(** * WebInject: resumable execution engine

    A shallow embedding of the resumable parts of the WebInject
    repository and the properties its specification states about them:

    - [Dataset/pipeline_state.py]  the phase state store,
    - [Dataset/main.py]            the pipeline driver,
    - [Dataset/crawler.py]         the interactive gate, the process
                                   supervisor and the download scheduler,
    - [Training/train.py] and [deploy/webinject_train/train.py]
                                   the checkpointed job runner.

    Part I holds the embedding, one module per source file; Part II holds
    the lemmas and theorems. *)

From Stdlib Require Import ZArith Lia.
From stdpp Require Import base option list gmap strings pretty relations.

Open Scope string_scope.
Open Scope list_scope.

(* ===================================================================== *)
(** * Part I. The embedding                                              *)
(* ===================================================================== *)

(** ** Python values and exceptions *)

Module Py.

(** The exception classes the modelled code raises or catches. *)
Inductive exn : Type :=
| KeyError
| TypeError
| AttributeError
| JSONDecodeError
| UnicodeDecodeError
| OSError               (* IOError is an alias of OSError *)
| FileNotFoundError     (* a subclass of OSError *)
| ValueError
| ZeroDivisionError
| RuntimeError.

Global Instance exn_eq_dec : EqDecision exn.
Proof. solve_decision. Defined.

(** The result of evaluating an expression: a value or a raised
    exception. *)
Inductive res (A : Type) : Type :=
| Ok (a : A)
| Raise (e : exn).
Global Arguments Ok {A} a.
Global Arguments Raise {A} e.

Definition bind {A B : Type} (r : res A) (k : A -> res B) : res B :=
  match r with
  | Ok a => k a
  | Raise e => Raise e
  end.

(** One statement after the other: the rest runs when the first raised
    nothing. *)
Notation "'let*' x ':=' e 'in' k" := (bind e (fun x => k))
  (at level 10, x name, e at level 200, k at level 200,
   format "'[v' 'let*'  x  ':='  e  'in' '/' k ']'").

(** [try: body except classes: handler]: the exceptions of [caught] are
    handled, the others propagate. *)
Definition try_except {A : Type} (body : res A) (caught : exn -> bool)
    (handler : res A) : res A :=
  match body with
  | Ok a => Ok a
  | Raise e => if caught e then handler else Raise e
  end.

(** The values a JSON document denotes in Python: [json.load] builds
    them and [json.dump] writes them.  A dict is a finite map on its
    string keys. *)
#[warnings="-register-all"]
Inductive pyval : Type :=
| PNone
| PBool (b : bool)
| PInt (z : Z)
| PStr (s : string)
| PList (l : list pyval)
| PDict (d : gmap string pyval).

(** Truth value of an object ([if x:]). *)
Definition truthy (v : pyval) : bool :=
  match v with
  | PNone => false
  | PBool b => b
  | PInt z => negb (z =? 0)%Z
  | PStr s => negb (String.eqb s "")
  | PList l => match l with [] => false | _ => true end
  | PDict d => negb (bool_decide (d = ∅))
  end.

(** [v == s] for a string [s]: only an equal string is equal to it. *)
Definition eq_str (s : string) (v : pyval) : bool :=
  match v with
  | PStr t => String.eqb s t
  | _ => false
  end.

(** [needle in hay] on strings is the substring test. *)
Fixpoint is_substring (needle hay : string) : bool :=
  String.prefix needle hay
  || match hay with
     | EmptyString => false
     | String _ rest => is_substring needle rest
     end.

(** [s in container] for a string [s]. *)
Definition contains (container : pyval) (s : string) : res bool :=
  match container with
  | PList l => Ok (existsb (eq_str s) l)
  | PStr t => Ok (is_substring s t)
  | PDict d => Ok (bool_decide (is_Some (d !! s)))
  | PNone | PBool _ | PInt _ => Raise TypeError
  end.

(** The objects [in] accepts on its right. *)
Definition container (v : pyval) : bool :=
  match v with
  | PList _ | PStr _ | PDict _ => true
  | PNone | PBool _ | PInt _ => false
  end.

(** [obj[key]] for a string key. *)
Definition getitem (obj : pyval) (key : string) : res pyval :=
  match obj with
  | PDict d => match d !! key with
               | Some v => Ok v
               | None => Raise KeyError
               end
  | _ => Raise TypeError
  end.

(** [obj.get(key, default)]: only a dict has the method. *)
Definition get (obj : pyval) (key : string) (dflt : pyval) : res pyval :=
  match obj with
  | PDict d => Ok (default dflt (d !! key))
  | _ => Raise AttributeError
  end.

(** [obj.append(x)]: only a list has the method; the list is updated in
    place, the updated list is returned here. *)
Definition append (obj : pyval) (x : pyval) : res pyval :=
  match obj with
  | PList l => Ok (PList (l ++ [x]))
  | _ => Raise AttributeError
  end.

(** [obj[key] = x] for a string key. *)
Definition setitem (obj : pyval) (key : string) (x : pyval) : res pyval :=
  match obj with
  | PDict d => Ok (PDict (<[key := x]> d))
  | _ => Raise TypeError
  end.

(** [', '.join(obj)]: the argument must be iterable and yield strings
    only (a dict yields its keys).  Only success matters here. *)
Definition is_str (v : pyval) : bool :=
  match v with PStr _ => true | _ => false end.

Definition join_ok (obj : pyval) : res unit :=
  match obj with
  | PList l => if forallb is_str l then Ok tt else Raise TypeError
  | PStr _ | PDict _ => Ok tt
  | PNone | PBool _ | PInt _ => Raise TypeError
  end.

(** [len(obj)]: numbers, booleans and [None] have no length. *)
Definition len (obj : pyval) : res Z :=
  match obj with
  | PList l => Ok (Z.of_nat (length l))
  | PStr s => Ok (Z.of_nat (String.length s))
  | PDict d => Ok (Z.of_nat (size d))
  | PNone | PBool _ | PInt _ => Raise TypeError
  end.

(** The evaluation raised nothing. *)
Definition is_ok {A : Type} (r : res A) : bool :=
  match r with
  | Ok _ => true
  | Raise _ => false
  end.

End Py.

(** ** Dataset/pipeline_state.py: the phase state store *)

Module pipeline_state.
Import Py.

(** [PHASES]: the names of all phases. *)
Definition PHASES : list string :=
  [ "phase0_crawl"; "phase1_synth"; "phase2_prompts";
    "phase3_history"; "phase4_render"; "phase5_metadata" ].

(** What [config.PIPELINE_STATE_FILE] holds, by what opening it in text
    mode (UTF-8) and [json.load] make of it. *)
Inductive file_content : Type :=
| JsonText (v : pyval)   (* the JSON document of [v], as [json.dump] writes it *)
| NotJson                (* text that is no JSON document: JSONDecodeError *)
| NotUtf8                (* bytes that are no UTF-8 text: UnicodeDecodeError *)
| Unreadable.            (* [open] fails: an OSError *)

(** The file slot: [None] when [os.path.exists] is false. *)
Abbreviation file := (option file_content).

(** [open(..., "r", encoding="utf-8")] followed by [json.load(f)]. *)
Definition json_load (c : file_content) : res pyval :=
  match c with
  | JsonText v => Ok v
  | NotJson => Raise JSONDecodeError
  | NotUtf8 => Raise UnicodeDecodeError
  | Unreadable => Raise OSError
  end.

(** [except (json.JSONDecodeError, IOError)]: the classes caught, with
    their subclasses. *)
Definition caught_on_load (e : exn) : bool :=
  match e with
  | JSONDecodeError | OSError | FileNotFoundError => true
  | _ => false
  end.

Definition empty_state : pyval :=
  PDict (<["completed_phases" := PList []]> (<["phase_data" := PDict ∅]> ∅)).

(** [load_state()].  The body of the [try] parses the file, reads
    [completed_phases] with [.get] and, when that is truthy, joins it
    for the log line; it returns the parsed value as it is. *)
Definition load_state (f : file) : res pyval :=
  match f with
  | Some c =>
      try_except
        (let* state := json_load c in
         let* completed := get state "completed_phases" (PList []) in
         let* _ := if truthy completed then join_ok completed else Ok tt in
         Ok state)
        caught_on_load
        (Ok empty_state)
  | None => Ok empty_state
  end.

(** [save_state(state)]: the file is rewritten with the JSON document of
    the whole state.  The write itself is taken to succeed. *)
Definition save_state (state : pyval) (f : file) : file :=
  Some (JsonText state).

(** Storing a value under a key of a dict that is known to be one. *)
Definition store (state : pyval) (key : string) (v : pyval) : pyval :=
  match state with
  | PDict d => PDict (<[key := v]> d)
  | _ => state
  end.

(** [mark_completed(state, phase_name, phase_data)].  The dict is
    updated in place; the updated dict is returned with the file. *)
Definition mark_completed (state : pyval) (phase_name : string)
    (phase_data : pyval) (f : file) : res (pyval * file) :=
  let* completed := getitem state "completed_phases" in
  let* listed := contains completed phase_name in
  let* state1 :=
    if listed then Ok state
    else let* completed' := append completed (PStr phase_name) in
         Ok (store state "completed_phases" completed') in
  let* state2 :=
    match phase_data with
    | PNone => Ok state1
    | _ => let* pd := getitem state1 "phase_data" in
           let* pd' := setitem pd phase_name phase_data in
           Ok (store state1 "phase_data" pd')
    end in
  Ok (state2, save_state state2 f).

(** [is_completed(state, phase_name)]. *)
Definition is_completed (state : pyval) (phase_name : string) : res bool :=
  let* completed := get state "completed_phases" (PList []) in
  contains completed phase_name.

(** [reset_state()]. *)
Definition reset_state (f : file) : file := None.

(** The shape [load_state]'s docstring gives a state: a dict whose
    [completed_phases] is a list of phase names and whose [phase_data]
    is a dict. *)
Definition well_formed (state : pyval) : Prop :=
  exists d names pd,
    state = PDict d /\
    d !! "completed_phases" = Some (PList names) /\
    forallb is_str names = true /\
    d !! "phase_data" = Some (PDict pd).

End pipeline_state.

(** ** Dataset/main.py: the pipeline driver *)

Module main.
Import Py pipeline_state.

(** The two switches of [config] the driver reads. *)
Record config : Type := {
  RUN_CRAWLER : bool;
  RUN_SYNTH_GEN : bool
}.

(** What a run leaves behind besides the state file: which phase bodies
    it entered and which returned. *)
Inductive event : Type :=
| Call (phase : string)      (* the body of the phase is entered *)
| Return (phase : string).   (* the body returned its summary *)

Global Instance event_eq_dec : EqDecision event.
Proof. solve_decision. Defined.

Section Driver.
(** Everything the phase bodies read and write (pages, screenshots,
    prompt files, the network): they do not touch the state file. *)
Context {Env : Type}.

Record world : Type := {
  state_file : file;
  env : Env;
  log : list event
}.

Variable cfg : config.

(** The body of a phase: the code between the guards and the final
    [mark_completed], which computes the summary passed to it or
    raises. *)
Variable body : string -> Env -> res pyval * Env.

Definition skipped : pyval := PDict {[ "skipped" := PBool true ]}.

Definition with_log (ev : event) (w : world) : world :=
  {| state_file := state_file w; env := env w; log := log w ++ [ev] |}.

Definition with_env (e : Env) (w : world) : world :=
  {| state_file := state_file w; env := e; log := log w |}.

Definition with_file (f : file) (w : world) : world :=
  {| state_file := f; env := env w; log := log w |}.

(** [pipeline_state.mark_completed] acting on the world. *)
Definition mark (state : pyval) (phase : string) (data : pyval)
    (w : world) : res pyval * world :=
  match mark_completed state phase data (state_file w) with
  | Ok (state', f') => (Ok state', with_file f' w)
  | Raise e => (Raise e, w)
  end.

(** The common shape of the six phase functions: return when the
    phase is completed; mark it as skipped when it is switched off;
    otherwise run the body and mark it with the summary. *)
Definition run_phase (phase : string) (enabled : bool)
    (state : pyval) (w : world) : res pyval * world :=
  match is_completed state phase with
  | Raise e => (Raise e, w)
  | Ok true => (Ok state, w)
  | Ok false =>
      if negb enabled then mark state phase skipped w
      else
        let w1 := with_log (Call phase) w in
        match body phase (env w1) with
        | (Raise e, env') => (Raise e, with_env env' w1)
        | (Ok summary, env') =>
            mark state phase summary
                 (with_log (Return phase) (with_env env' w1))
        end
  end.

Definition phase0_crawl := run_phase "phase0_crawl" (RUN_CRAWLER cfg).
Definition phase1_synth := run_phase "phase1_synth" (RUN_SYNTH_GEN cfg).
Definition phase2_prompts := run_phase "phase2_prompts" true.
Definition phase3_history := run_phase "phase3_history" true.
Definition phase4_render := run_phase "phase4_render" true.
Definition phase5_metadata := run_phase "phase5_metadata" true.

(** Sequencing: an exception ends the run. *)
Definition andthen (r : res pyval * world)
    (k : pyval -> world -> res pyval * world) : res pyval * world :=
  match r with
  | (Ok state, w) => k state w
  | (Raise e, w) => (Raise e, w)
  end.

(** [main()]: load the state, then the six phases in order. *)
Definition main (w : world) : res pyval * world :=
  match load_state (state_file w) with
  | Raise e => (Raise e, w)
  | Ok state =>
      andthen (andthen (andthen (andthen (andthen
        (phase0_crawl state w)
        phase1_synth)
        phase2_prompts)
        phase3_history)
        phase4_render)
        phase5_metadata
  end.

(** The same chain of calls over a list of phases with their
    switches, and the list [main] goes through. *)
Fixpoint run_phases (phases : list (string * bool)) (state : pyval)
    (w : world) : res pyval * world :=
  match phases with
  | [] => (Ok state, w)
  | (phase, enabled) :: rest =>
      andthen (run_phase phase enabled state w) (run_phases rest)
  end.

Definition plan : list (string * bool) :=
  [ ("phase0_crawl", RUN_CRAWLER cfg); ("phase1_synth", RUN_SYNTH_GEN cfg);
    ("phase2_prompts", true); ("phase3_history", true);
    ("phase4_render", true); ("phase5_metadata", true) ].

(** A fresh process: the log starts empty. *)
Definition restart (w : world) : world :=
  {| state_file := state_file w; env := env w; log := [] |}.

(** How often the body of [phase] was entered, and how often it
    returned, in a log. *)
Definition calls (phase : string) (l : list event) : nat :=
  length (filter (fun ev => ev = Call phase) l).

Definition returns (phase : string) (l : list event) : nat :=
  length (filter (fun ev => ev = Return phase) l).

End Driver.

Global Arguments world : clear implicits.

(** The phases whose body a log shows entered, and those whose body it
    shows returned, in order. *)
Definition entered (l : list event) : list string :=
  omap (fun ev => match ev with Call p => Some p | Return _ => None end) l.


(** The phases of a list that [names] does not hold yet. *)
Definition pending (names : list pyval) (phases : list (string * bool))
    : list (string * bool) :=
  filter (fun ph => existsb (eq_str ph.1) names = false) phases.

(** The log of going through [phases] when every body returns: the
    enabled ones are entered and return, one after the other. *)
Definition full_log (phases : list (string * bool)) : list event :=
  flat_map (fun ph : string * bool =>
              if ph.2 then [Call ph.1; Return ph.1] else []) phases.

End main.

(** ** Dataset/config.py: the constants of the crawler *)

Module config.

Record crawler_config : Type := {
  CAPTCHA_WAIT_TIMEOUT : Z;
  DOWNLOAD_TIMEOUT : Z;
  MAX_RETRIES : Z;
  REQUEST_DELAY : Z;
  CONCURRENT_DOWNLOADS : nat;
  DOMAINS : list string;
  RAW_HTML_DIR : string
}.

(** The values the repository ships. *)
Definition shipped : crawler_config := {|
  CAPTCHA_WAIT_TIMEOUT := 300;
  DOWNLOAD_TIMEOUT := 90;
  MAX_RETRIES := 2;
  REQUEST_DELAY := 1;
  CONCURRENT_DOWNLOADS := 5;
  DOMAINS := ["Blog"; "Commerce"; "Education"; "Healthcare"; "Portfolio"];
  RAW_HTML_DIR := "data/raw_html"
|}.

End config.

(** ** Dataset/crawler.py: gate, process supervisor, scheduler *)

Module crawler.
Import Py config.

(** *** The interactive gate *)

(** [time.time()] is counted in ticks, [hz] of them to the second, fine
    enough for every reading to be a whole number of ticks.  Time
    passes while [check_fn] looks at the page and while the process
    sleeps: a call of [check_fn] takes [check_takes] ticks, and
    [time.sleep] lasts [oversleeps] ticks longer than it was asked to;
    the time the statements in between take is counted with the call
    before them.  The session is seen through the predicate, which may
    depend on the time and on how often it has been asked. *)
Record session : Type := {
  clock : Z;       (* [time.time()], in ticks *)
  polls : nat;     (* calls of [check_fn] so far *)
  naps : nat       (* calls of [time.sleep] so far *)
}.

Section Waiting.
Variable hz : Z.
Variable check_fn : session -> bool.
Variable check_takes : session -> Z.
Variable oversleeps : session -> Z.

(** [check_fn(driver)]. *)
Definition poll (s : session) : bool * session :=
  (check_fn s,
   {| clock := clock s + check_takes s; polls := S (polls s);
      naps := naps s |}).

(** [time.sleep(seconds)]. *)
Definition sleep (seconds : Z) (s : session) : session :=
  {| clock := clock s + seconds * hz + oversleeps s; polls := polls s;
     naps := S (naps s) |}.

(** One round of the waiting loop, a check and the sleep after it, and
    the session [n] rounds later. *)
Definition round (s : session) : session := sleep 2 (poll s).2.

Definition later (n : nat) (s : session) : session := Nat.iter n round s.

(** The [while check_fn(driver):] loop, unrolled at most [fuel] times;
    [timeout] is in seconds. *)
Fixpoint wait_loop (fuel : nat) (start timeout : Z) (s : session)
    : option (bool * session) :=
  match fuel with
  | O => None
  | S fuel' =>
      let (blocked, s1) := poll s in
      if blocked then
        let elapsed := (clock s1 - start)%Z in
        if (elapsed >? timeout * hz)%Z then Some (false, s1)
        else wait_loop fuel' start timeout (sleep 2 s1)
      else Some (true, s1)
  end.

(** Iterations that suffice for the loop to end: the elapsed time
    grows by two seconds at least with each. *)
Definition enough (timeout : Z) : nat := Z.to_nat (timeout / 2)%Z + 2.

(** [_wait_for_captcha(driver, check_fn, timeout)]. *)
Definition _wait_for_captcha (cfg : crawler_config) (timeout : option Z)
    (s : session) : option (bool * session) :=
  let timeout := default (CAPTCHA_WAIT_TIMEOUT cfg) timeout in
  let (blocked, s1) := poll s in
  if negb blocked then Some (true, s1)
  else
    let start := clock s1 in
    wait_loop (enough timeout) start timeout s1.

End Waiting.

(** *** The process supervisor *)

(** The output file after the process ended. *)
Inductive output : Type :=
| Missing                (* [os.path.exists] is false *)
| Size (bytes : Z)       (* it exists with this size *)
| Vanished.              (* it exists, [os.path.getsize] finds it gone *)

(** What one attempt runs into. *)
Inductive attempt : Type :=
| NotFound                         (* [Popen] raises FileNotFoundError *)
| PopenFails                       (* [Popen] raises another exception *)
| TimedOut                         (* [proc.wait] raises TimeoutExpired *)
| WaitFails                        (* [proc.wait] raises another exception,
                                      the process still being there *)
| Exited (returncode : Z) (out : output)
| Escapes (e : exn).               (* an exception leaves the function *)

Inductive event : Type :=
| Launch (attempt : Z)
| KillTree
| Sleep (seconds : Z).

Global Instance event_eq_dec : EqDecision event.
Proof. solve_decision. Defined.

(** How a call ends: it returns or raises, or the process is killed
    under it and nothing comes back (SIGKILL cannot be caught). *)
Inductive ending (A : Type) : Type :=
| Ends (r : res A)
| Killed.
Global Arguments Ends {A} r.
Global Arguments Killed {A}.

(** What the body of the loop comes to for one attempt: the function is
    left, or the loop goes on to the next attempt. *)
Inductive turn : Type :=
| Leaves (r : ending bool) (log : list event)
| GoesOn (log : list event).

(** The attempts made and the delays slept, from the log. *)
Definition is_launch (ev : event) : bool :=
  match ev with Launch _ => true | _ => false end.

Definition is_sleep (ev : event) : bool :=
  match ev with Sleep _ => true | _ => false end.

Definition launches (log : list event) : nat :=
  length (filter (fun ev => is_launch ev = true) log).

Definition sleeps (log : list event) : nat :=
  length (filter (fun ev => is_sleep ev = true) log).

(** The attempt numbers launched, in order. *)
Definition attempted (log : list event) : list Z :=
  omap (fun ev => match ev with Launch a => Some a | _ => None end) log.

Definition is_kill (ev : event) : bool :=
  match ev with KillTree => true | _ => false end.

Definition kills (log : list event) : nat :=
  length (filter (fun ev => is_kill ev = true) log).

(** The failures the specification names: a timeout, a non-zero exit
    code, a missing or too small output file. *)
Definition transient (a : attempt) : bool :=
  match a with
  | TimedOut => true
  | Exited returncode out =>
      negb (returncode =? 0)%Z
      || match out with
         | Missing => true
         | Size bytes => (bytes <=? 100)%Z
         | Vanished => false
         end
  | _ => false
  end.

(** Every failure that the loop does not answer by leaving the
    function at once. *)
Definition passed_over (a : attempt) : bool :=
  match a with
  | PopenFails | WaitFails => true
  | _ => transient a
  end.

(** An attempt that leaves a process behind, which the supervisor
    kills with its children. *)
Definition hung (a : attempt) : bool :=
  match a with
  | TimedOut | WaitFails => true
  | _ => false
  end.

(** An attempt that ends with the page saved: the process exited with
    code 0 and left a file of more than 100 bytes. *)
Definition saved (a : attempt) : bool :=
  match a with
  | Exited returncode (Size bytes) => (returncode =? 0)%Z && (bytes >? 100)%Z
  | _ => false
  end.

Section Supervisor.
(** [_IS_WINDOWS = sys.platform == "win32"]. *)
Variable _IS_WINDOWS : bool.
Variable cfg : crawler_config.

(** [_kill_proc_tree(proc)] on a process that has not been waited for:
    does the caller live on?  On Windows [taskkill /F /T] ends the
    process with its children.  Elsewhere
    [os.killpg(os.getpgid(proc.pid), signal.SIGKILL)] kills the process
    group of the child; [Popen] started the child in the group of the
    caller (no [start_new_session]), so the caller is killed with it.
    The function itself raises nothing: each of its steps is inside a
    [try]. *)
Definition _kill_proc_tree : bool := _IS_WINDOWS.

(** [time.sleep(config.REQUEST_DELAY)]: a negative delay is a
    ValueError. *)
Definition nap (log : list event) : res (list event) :=
  if (REQUEST_DELAY cfg <? 0)%Z then Raise ValueError
  else Ok (log ++ [Sleep (REQUEST_DELAY cfg)]).

(** [if attempt < config.MAX_RETRIES: time.sleep(config.REQUEST_DELAY)]. *)
Definition pause (number : Z) (log : list event) : res (list event) :=
  if (number <? MAX_RETRIES cfg)%Z then nap log else Ok log.

(** The end of the loop body, after the [try] statement. *)
Definition after_try (number : Z) (log : list event) : turn :=
  match pause number log with
  | Ok log' => GoesOn log'
  | Raise e => Leaves (Ends (Raise e)) log
  end.

(** The handler [except Exception] when there is a process to kill,
    with what follows it. *)
Definition kill_and_go_on (number : Z) (log : list event) : turn :=
  let log' := log ++ [KillTree] in
  if _kill_proc_tree then after_try number log' else Leaves Killed log'.

(** The body of the loop [for attempt in ...] for the attempt [number]
    that runs into [o]. *)
Definition one_attempt (number : Z) (o : attempt) (log : list event) : turn :=
  let log1 := log ++ [Launch number] in
  match o with
  | NotFound => Leaves (Ends (Ok false)) log1
  | PopenFails => after_try number log1
  | TimedOut =>
      let log2 := log1 ++ [KillTree] in
      if _kill_proc_tree then
        match pause number log2 with
        | Ok log3 => GoesOn log3                    (* [continue] *)
        | Raise _ => kill_and_go_on number log2     (* [except Exception] *)
        end
      else Leaves Killed log2
  | WaitFails => kill_and_go_on number log1
  | Exited returncode out =>
      if (returncode =? 0)%Z then
        match out with
        | Size bytes =>
            if (bytes >? 100)%Z then Leaves (Ends (Ok true)) log1
            else after_try number log1
        | Missing => after_try number log1
        | Vanished => Leaves (Ends (Ok false)) log1
        end
      else after_try number log1
  | Escapes e => Leaves (Ends (Raise e)) log1
  end.

(** The loop of [download_page] over the attempts still to make. *)
Fixpoint attempts (outcome : Z -> attempt) (todo : list Z)
    (log : list event) : ending bool * list event :=
  match todo with
  | [] => (Ends (Ok false), log)
  | number :: rest =>
      match one_attempt number (outcome number) log with
      | Leaves r log' => (r, log')
      | GoesOn log' => attempts outcome rest log'
      end
  end.

(** [download_page(url, output_path)]; [outcome] tells what the attempts
    on this page run into. *)
Definition download_page (outcome : Z -> attempt)
    : ending bool * list event :=
  attempts outcome (seqZ 1 (MAX_RETRIES cfg)) [].

(** The attempt [number] that runs into [o] is answered with the next
    turn of the loop: the failure is one the loop passes over, the
    kill of a process left behind spares the caller, and the delay
    before the next attempt, if there is one, can be slept. *)
Definition retried (number : Z) (o : attempt) : bool :=
  passed_over o
  && (negb (hung o) || _kill_proc_tree)
  && ((MAX_RETRIES cfg <=? number)%Z || (0 <=? REQUEST_DELAY cfg)%Z).

(** What the log gains by an attempt that is answered with the next
    turn of the loop: its launch, the kill of the process it left
    behind, and the delay when an attempt is left. *)
Definition gained (number : Z) (o : attempt) : list event :=
  [Launch number]
  ++ (if hung o then [KillTree] else [])
  ++ (if (number <? MAX_RETRIES cfg)%Z then [Sleep (REQUEST_DELAY cfg)]
      else []).

End Supervisor.

(** *** The URL mapping file *)

(** [_load_url_mapping()] on what [config.URL_MAPPING_FILE] holds. *)
Definition _load_url_mapping (f : pipeline_state.file) : res pyval :=
  match f with
  | Some c =>
      try_except (pipeline_state.json_load c) pipeline_state.caught_on_load
        (Ok (PDict ∅))
  | None => Ok (PDict ∅)
  end.

(** [_save_url_mapping(mapping)]: the file is written, which is taken
    to succeed, and then the line with [len(mapping)] is printed. *)
Definition _save_url_mapping (mapping : pyval) (f : pipeline_state.file)
    : res unit * pipeline_state.file :=
  (let* _ := len mapping in Ok tt, Some (pipeline_state.JsonText mapping)).

(** *** The download scheduler *)

(** A task is the tuple [(category, filename, url, output_path)]. *)
Record task : Type := {
  category : string;
  filename : string;
  url : string;
  output_path : string
}.

(** [stats[category]]: the dict [{"success": n, "fail": m}]. *)
Record counts : Type := { success : Z; fail : Z }.

Definition zero : counts := {| success := 0; fail := 0 |}.

(** [stats[cat]["success"] += 1] and [stats[cat]["fail"] += 1]. *)
Definition add_success (cat : string) (stats : gmap string counts)
    : res (gmap string counts) :=
  match stats !! cat with
  | Some c => Ok (<[cat := {| success := success c + 1; fail := fail c |}]> stats)
  | None => Raise KeyError
  end.

Definition add_fail (cat : string) (stats : gmap string counts)
    : res (gmap string counts) :=
  match stats !! cat with
  | Some c => Ok (<[cat := {| success := success c; fail := fail c + 1 |}]> stats)
  | None => Raise KeyError
  end.

(** [sum(s["success"] for s in stats.values())] and the same for
    ["fail"]. *)
Definition total_success (stats : gmap string counts) : Z :=
  map_fold (fun _ c acc => success c + acc)%Z 0%Z stats.

Definition total_fail (stats : gmap string counts) : Z :=
  map_fold (fun _ c acc => fail c + acc)%Z 0%Z stats.

(** [str.lower] on ASCII letters, [os.path.join] and the two f-strings
    that name a page. *)
Definition lower_ascii (c : Ascii.ascii) : Ascii.ascii :=
  let n := Ascii.nat_of_ascii c in
  if (65 <=? n)%nat && (n <=? 90)%nat then Ascii.ascii_of_nat (n + 32) else c.

Fixpoint lower (s : string) : string :=
  match s with
  | EmptyString => EmptyString
  | String c rest => String (lower_ascii c) (lower rest)
  end.

Definition path_join (dir name : string) : string := dir +:+ "/" +:+ name.

Definition page_filename (category : string) (idx : nat) : string :=
  lower category +:+ "_real_" +:+ pretty (idx + 1)%nat +:+ ".html".

Definition rel_key_of (category filename : string) : string :=
  category +:+ "/" +:+ filename.

(** The variables of [run_crawler] while it collects the tasks;
    [url_mapping] is whatever [_load_url_mapping] returned. *)
Record collected : Type := {
  stats : gmap string counts;
  url_mapping : pyval;
  tasks : list task;
  skipped : Z
}.

(** What a worker thread hands back through its future. *)
Inductive worker_result : Type :=
| Returned (cat rel_key url : string) (ok : bool)
| Failed (e : exn).

(** A download counted as a success; [None] stands for a worker under
    which the process was killed. *)
Definition succeeded (r : option worker_result) : bool :=
  match r with
  | Some (Returned _ _ _ ok) => ok
  | _ => false
  end.

(** The thread pool: the tasks submitted and not yet started, the tasks
    in the hands of a worker, and the futures done, oldest first, which
    is the order [as_completed] yields them in. *)
Record pool : Type := {
  queued : list task;
  running : list task;
  finished : list (task * worker_result)
}.

(** The moves a pool has left: two for a queued task, one for a task in
    the hands of a worker. *)
Definition remaining (p : pool) : nat :=
  2 * length (queued p) + length (running p).

(** The variables of the [as_completed] loop. *)
Record tally : Type := {
  t_stats : gmap string counts;
  t_mapping : pyval;
  completed : Z;
  progress : list Z      (* the [completed] of each progress line *)
}.

Section Scheduler.
Variable _IS_WINDOWS : bool.
Variable cfg : crawler_config.

(** [_get_target_urls(category)]: the search results. *)
Variable _get_target_urls : string -> list string.

(** [os.path.exists(p) and os.path.getsize(p) > 100] before the run. *)
Variable present : string -> bool.

(** What the attempts on a task run into. *)
Variable outcome : task -> Z -> attempt.

(** The inner loop [for idx, url in enumerate(urls)]. *)
Fixpoint scan (category : string) (urls : list string) (idx : nat)
    (c : collected) : res collected :=
  match urls with
  | [] => Ok c
  | url :: rest =>
      let filename := page_filename category idx in
      let output_path :=
        path_join (path_join (RAW_HTML_DIR cfg) category) filename in
      let rel_key := rel_key_of category filename in
      if present output_path then
        let* mapping' := setitem (url_mapping c) rel_key (PStr url) in
        let* stats' := add_success category (stats c) in
        scan category rest (S idx)
          {| stats := stats';
             url_mapping := mapping';
             tasks := tasks c;
             skipped := skipped c + 1 |}
      else
        scan category rest (S idx)
          {| stats := stats c;
             url_mapping := url_mapping c;
             tasks := tasks c ++ [ {| category := category;
                                      filename := filename;
                                      url := url;
                                      output_path := output_path |} ];
             skipped := skipped c |}
  end.

(** The outer loop [for category in config.DOMAINS]. *)
Fixpoint collect (categories : list string) (c : collected) : res collected :=
  match categories with
  | [] => Ok c
  | category :: rest =>
      let c0 := {| stats := <[category := zero]> (stats c);
                   url_mapping := url_mapping c;
                   tasks := tasks c;
                   skipped := skipped c |} in
      let* c1 := scan category (_get_target_urls category) 0 c0 in
      collect rest c1
  end.

(** [_do_download(task)], the function the workers run: what the
    future of the task gets, or [None] when the process is killed under
    the download. *)
Definition _do_download (t : task) : option worker_result :=
  let rel_key := rel_key_of (category t) (filename t) in
  match fst (download_page _IS_WINDOWS cfg (outcome t)) with
  | Ends (Ok ok) => Some (Returned (category t) rel_key (url t) ok)
  | Ends (Raise e) => Some (Failed e)
  | Killed => None
  end.

(** The successes among the tasks [order]. *)
Definition wins (order : list task) : nat :=
  length (filter (fun t => succeeded (_do_download t) = true) order).

(** One move of the pool with [W] workers: an idle worker takes the
    oldest queued task, or a worker finishes the task it holds and the
    future of the task is done. *)
Inductive pool_step (W : nat) : pool -> pool -> Prop :=
| pool_start t q r f :
    (length r < W)%nat ->
    pool_step W {| queued := t :: q; running := r; finished := f |}
                {| queued := q; running := r ++ [t]; finished := f |}
| pool_finish q r1 t r2 f result :
    _do_download t = Some result ->
    pool_step W {| queued := q; running := r1 ++ t :: r2; finished := f |}
                {| queued := q; running := r1 ++ r2;
                   finished := f ++ [(t, result)] |}.

(** A worker holds a task whose download kills the process: the pool,
    its other workers and the thread that waits for the futures end
    there. *)
Definition doomed (p : pool) : Prop :=
  exists t, t ∈ running p /\ _do_download t = None.

(** [pool.submit] for every task. *)
Definition submitted (ts : list task) : pool :=
  {| queued := ts; running := []; finished := [] |}.

(** The pool accounts for the batch [ts]: no more than [W] tasks are
    running, and every task is queued, running or done, a done one with
    what its worker handed back. *)
Definition accounts_for (W : nat) (ts : list task) (p : pool) : Prop :=
  length (running p) <= W /\
  Forall (fun done => _do_download done.1 = Some done.2) (finished p) /\
  (finished p).*1 ++ running p ++ queued p ≡ₚ ts.

(** Every future is done. *)
Definition drained (p : pool) : Prop := queued p = [] /\ running p = [].

(** One turn of [for future in as_completed(futures)]. *)
Definition account (done : task * worker_result) (a : tally) : res tally :=
  let completed' := (completed a + 1)%Z in
  match snd done with
  | Failed _ =>
      let* stats' := add_fail (category (fst done)) (t_stats a) in
      Ok {| t_stats := stats'; t_mapping := t_mapping a;
            completed := completed'; progress := progress a |}
  | Returned cat rel_key url ok =>
      let* sm :=
        if ok then
          let* mapping' := setitem (t_mapping a) rel_key (PStr url) in
          let* stats' := add_success cat (t_stats a) in
          Ok (stats', mapping')
        else
          let* stats' := add_fail cat (t_stats a) in
          Ok (stats', t_mapping a) in
      Ok {| t_stats := sm.1; t_mapping := sm.2;
            completed := completed';
            progress := progress a ++ [completed'] |}
  end.

Fixpoint as_completed (order : list (task * worker_result)) (a : tally)
    : res tally :=
  match order with
  | [] => Ok a
  | done :: rest => let* a' := account done a in as_completed rest a'
  end.

(** [_save_url_mapping(url_mapping)] followed by [return stats]. *)
Definition save_and_return (stats : gmap string counts) (mapping : pyval)
    (f : pipeline_state.file)
    : ending (gmap string counts) * pipeline_state.file :=
  match _save_url_mapping mapping f with
  | (Ok _, f') => (Ends (Ok stats), f')
  | (Raise e, f') => (Ends (Raise e), f')
  end.

(** [run_crawler()] on the URL mapping file [f] comes to [result]: how
    the call ends, with the statistics when it returns, and what the
    file holds then.  The order in which the futures complete is not
    determined, so this is a relation.  An exception raised while the
    futures are accounted for leaves the [with] block only when every
    worker is done, and a worker under which the process is killed
    ends everything, whatever the other threads were doing. *)
Definition run_crawler (f : pipeline_state.file)
    (result : ending (gmap string counts) * pipeline_state.file) : Prop :=
  match _load_url_mapping f with
  | Raise e => result = (Ends (Raise e), f)
  | Ok mapping0 =>
      match collect (DOMAINS cfg)
              {| stats := ∅; url_mapping := mapping0; tasks := [];
                 skipped := 0 |} with
      | Raise e => result = (Ends (Raise e), f)
      | Ok c =>
          match tasks c with
          | [] => result = save_and_return (stats c) (url_mapping c) f
          | _ :: _ =>
              match CONCURRENT_DOWNLOADS cfg with
              | O => result = (Ends (Raise ValueError), f)
              | S _ =>
                  (exists final,
                     rtc (pool_step (CONCURRENT_DOWNLOADS cfg))
                         (submitted (tasks c)) final /\
                     drained final /\
                     result =
                       match as_completed (finished final)
                               {| t_stats := stats c;
                                  t_mapping := url_mapping c;
                                  completed := 0; progress := [] |} with
                       | Ok a => save_and_return (t_stats a) (t_mapping a) f
                       | Raise e => (Ends (Raise e), f)
                       end)
                  \/ (exists p,
                        rtc (pool_step (CONCURRENT_DOWNLOADS cfg))
                            (submitted (tasks c)) p /\
                        doomed p /\
                        result = (Killed, f))
              end
          end
      end
  end.

End Scheduler.

(** The scenario of the specification: five tasks, of which the second
    and the fourth fail at every attempt and the others succeed at the
    first. *)
Definition scenario_task (n : nat) : task :=
  {| category := "Blog";
     filename := page_filename "Blog" n;
     url := "https://example.org/" +:+ pretty n;
     output_path := path_join (path_join "data/raw_html" "Blog")
                              (page_filename "Blog" n) |}.

Definition scenario_tasks : list task := scenario_task <$> [0; 1; 2; 3; 4].

Definition scenario_outcome (t : task) (number : Z) : attempt :=
  if bool_decide (filename t = page_filename "Blog" 1
                  \/ filename t = page_filename "Blog" 3)
  then TimedOut
  else Exited 0 (Size 20480).

(** *** The tasks of a crawl *)

(** Where [run_crawler] stores the page [idx] of a category. *)
Definition page_path (cfg : crawler_config) (category : string) (idx : nat)
    : string :=
  path_join (path_join (RAW_HTML_DIR cfg) category)
            (page_filename category idx).

(** [t] is the task [run_crawler] makes for some URL of [urls], the
    URLs of [category] from the index [base] on: it carries the URL
    with the file name and the path of the index of the URL. *)
Definition made_for (cfg : crawler_config) (urls : list string)
    (category : string) (base : nat) (t : task) : Prop :=
  exists i : nat,
    urls !! i = Some (crawler.url t) /\
    crawler.category t = category /\
    filename t = page_filename category (base + i) /\
    output_path t = page_path cfg category (base + i).

(** *** The search for the target URLs *)

(** [l[:n]]: a negative [n] counts from the end. *)
Definition slice_to {A : Type} (n : Z) (l : list A) : list A :=
  if (n <? 0)%Z then take (length l - Z.to_nat (- n)) l
  else take (Z.to_nat n) l.

Section Search.
(** [config.SEARCH_QUERIES], and the search function of the engine
    that [config.SEARCH_ENGINE] selects, called on a query with
    [num_results=10]: the URLs it returns or the exception it raises. *)
Variable SEARCH_QUERIES : gmap string (list string).
Variable search : string -> res (list string).

(** The inner loop [for url in results]. *)
Fixpoint add_results (num_results : Z) (results urls : list string)
    : list string :=
  match results with
  | [] => urls
  | url :: rest =>
      let urls1 := if bool_decide (url ∈ urls) then urls else urls ++ [url] in
      if (Z.of_nat (length urls1) >=? num_results)%Z then urls1
      else add_results num_results rest urls1
  end.

(** The loop [for query in queries], with the number of times it
    slept [config.SEARCH_INTERVAL]: a query that raises is skipped
    without a delay. *)
Fixpoint search_loop (num_results : Z) (queries urls : list string)
    (slept : nat) : list string * nat :=
  match queries with
  | [] => (urls, slept)
  | query :: rest =>
      if (Z.of_nat (length urls) >=? num_results)%Z then (urls, slept)
      else
        match search query with
        | Ok results =>
            search_loop num_results rest
              (add_results num_results results urls) (S slept)
        | Raise _ => search_loop num_results rest urls slept
        end
  end.

(** [_get_target_urls(category, num_results)]. *)
Definition _get_target_urls (category : string) (num_results : Z)
    : list string :=
  let queries := default [] (SEARCH_QUERIES !! category) in
  let urls := (search_loop num_results queries [] 0).1 in
  match urls with
  | [] => []
  | _ :: _ => slice_to num_results urls
  end.

End Search.

End crawler.

(** ** Training/train.py: the checkpointed job runner *)

Module train.
Import Py.

(** The entries of [TRAIN_CONFIG] the runner reads. *)
Record train_config : Type := {
  NUM_EPOCHS : Z;
  SAVE_INTERVAL : Z;
  CHECKPOINT_DIR : string;
  LMDB_DIR : string
}.

Definition shipped : train_config := {|
  NUM_EPOCHS := 200;
  SAVE_INTERVAL := 1;
  CHECKPOINT_DIR := "checkpoints";
  LMDB_DIR := "data"
|}.

Definition path_join (dir name : string) : string := dir +:+ "/" +:+ name.

(** [f"{n:04d}"]: decimal, filled with zeros to four characters. *)
Fixpoint zeros (n : nat) : string :=
  match n with
  | O => EmptyString
  | S n' => "0" +:+ zeros n'
  end.

Definition zfill (width : nat) (digits : string) : string :=
  zeros (width - String.length digits) +:+ digits.

Definition format_04d (n : Z) : string :=
  if (n <? 0)%Z then "-" +:+ zfill 3 (pretty (Z.to_N (- n)))
  else zfill 4 (pretty (Z.to_N n)).

(** [get_checkpoint_path] and [get_epoch_checkpoint_path]. *)
Definition get_checkpoint_path (checkpoint_dir monitor_name : string) : string :=
  path_join checkpoint_dir (monitor_name +:+ "_latest.pth").

Definition get_epoch_checkpoint_path (checkpoint_dir monitor_name : string)
    (epoch : Z) : string :=
  path_join checkpoint_dir
    (monitor_name +:+ "_epoch_" +:+ format_04d epoch +:+ ".pth").

Section Runner.
(** The state dicts of model, optimizer and scheduler taken together,
    and the loss: both opaque. *)
Context {State Metric : Type}.

(** The dict [save_checkpoint] builds. *)
Record checkpoint : Type := {
  epoch : Z;
  state_dicts : State;
  loss : Metric;
  timestamp : string
}.

(** A file of the checkpoint directory: written to the end by
    [torch.save], or cut off after some bytes. *)
Inductive stored : Type :=
| Complete (c : checkpoint)
| Partial (written : nat).

Abbreviation disk := (gmap string stored).

(** [torch.save(state, path)], once it has returned. *)
Definition torch_save (c : checkpoint) (path : string) (fs : disk) : disk :=
  <[path := Complete c]> fs.

(** [os.replace(src, dst)]: one atomic rename. *)
Definition os_replace (src dst : string) (fs : disk) : disk :=
  match fs !! src with
  | Some f => <[dst := f]> (delete src fs)
  | None => fs
  end.

(** [save_checkpoint(path, model, optimizer, scheduler, epoch, loss)],
    once it has returned. *)
Definition save_checkpoint (path : string) (c : checkpoint) (fs : disk) : disk :=
  let tmp_path := path +:+ ".tmp" in
  os_replace tmp_path path (torch_save c tmp_path fs).

(** Where the process can be killed inside [save_checkpoint], and the
    disk it leaves behind. *)
Inductive crash : Type :=
| BeforeSave                     (* [torch.save] has not opened the file *)
| WhileSaving (written : nat)    (* inside [torch.save] *)
| BeforeReplace                  (* between [torch.save] and [os.replace] *)
| AfterReplace.                  (* [os.replace] is through *)

Definition killed_in_save (at_point : crash) (path : string)
    (c : checkpoint) (fs : disk) : disk :=
  let tmp_path := path +:+ ".tmp" in
  match at_point with
  | BeforeSave => fs
  | WhileSaving written => <[tmp_path := Partial written]> fs
  | BeforeReplace => torch_save c tmp_path fs
  | AfterReplace => save_checkpoint path c fs
  end.

(** [os.path.isfile(path)]. *)
Definition isfile (path : string) (fs : disk) : bool :=
  bool_decide (is_Some (fs !! path)).

(** [torch.load(path)]. *)
Definition torch_load (path : string) (fs : disk) : res checkpoint :=
  match fs !! path with
  | Some (Complete c) => Ok c
  | Some (Partial _) => Raise RuntimeError
  | None => Raise FileNotFoundError
  end.

(** [load_checkpoint(path, model, optimizer, scheduler, device)]: the
    epoch stored, with the state dicts loaded into the three objects. *)
Definition load_checkpoint (path : string) (fs : disk) : res (Z * State) :=
  let* c := torch_load path fs in
  Ok (epoch c, state_dicts c).

(** The data a monitor is trained on. *)
Record dataset : Type := {
  lmdb_exists : bool;      (* [os.path.exists(lmdb_path)] *)
  dataset_len : Z          (* [len(dataset)] *)
}.

(** What a call of the runner did. *)
Record run : Type := {
  executed : list Z;       (* the epochs trained, in order *)
  files : disk;
  trained : State
}.

Variable cfg : train_config.
Variable monitor_name : string.

(** The freshly built model, optimizer and scheduler. *)
Variable fresh : State.

(** One epoch of training: the inner loop over the batches and
    [scheduler.step()], giving the new state and the average loss. *)
Variable train_epoch : Z -> State -> State * Metric.

(** [datetime.datetime.now().isoformat()] at the end of an epoch. *)
Variable now : Z -> string.

Definition ckpt_path : string :=
  get_checkpoint_path (CHECKPOINT_DIR cfg) monitor_name.

(** The saving at the end of an epoch. *)
Definition save_step (epoch : Z) (st : State) (avg_loss : Metric)
    (fs : disk) : res disk :=
  if (SAVE_INTERVAL cfg =? 0)%Z then Raise ZeroDivisionError
  else if ((epoch + 1) mod SAVE_INTERVAL cfg =? 0)%Z then
    let c := {| epoch := epoch; state_dicts := st; loss := avg_loss;
                timestamp := now epoch |} in
    let fs1 := save_checkpoint ckpt_path c fs in
    if ((epoch + 1) mod 10 =? 0)%Z then
      Ok (save_checkpoint
            (get_epoch_checkpoint_path (CHECKPOINT_DIR cfg) monitor_name
               (epoch + 1)) c fs1)
    else Ok fs1
  else Ok fs.

(** The training loop [for epoch in range(start_epoch, NUM_EPOCHS)]
    over the epochs still to train. *)
Fixpoint train_loop (todo : list Z) (r : run) : res unit * run :=
  match todo with
  | [] => (Ok tt, r)
  | epoch :: rest =>
      let (st, avg_loss) := train_epoch epoch (trained r) in
      let done := executed r ++ [epoch] in
      match save_step epoch st avg_loss (files r) with
      | Raise e =>
          (Raise e, {| executed := done; files := files r; trained := st |})
      | Ok fs =>
          train_loop rest {| executed := done; files := fs; trained := st |}
      end
  end.

(** [range(a, b)]. *)
Definition range (a b : Z) : list Z := seqZ a (b - a).

(** [train_one_monitor(monitor_name, device)]. *)
Definition train_one_monitor (data : dataset) (fs : disk) : res unit * run :=
  let idle := {| executed := []; files := fs; trained := fresh |} in
  if negb (lmdb_exists data) then (Ok tt, idle)
  else if (dataset_len data =? 0)%Z then (Ok tt, idle)
  else
    match
      (if isfile ckpt_path fs then
         let* loaded := load_checkpoint ckpt_path fs in
         Ok ((loaded.1 + 1)%Z, loaded.2)
       else Ok (0%Z, fresh))
    with
    | Raise e => (Raise e, idle)
    | Ok (start_epoch, st) =>
        let resumed := {| executed := []; files := fs; trained := st |} in
        if (start_epoch >=? NUM_EPOCHS cfg)%Z then (Ok tt, resumed)
        else train_loop (range start_epoch (NUM_EPOCHS cfg)) resumed
    end.

(** The epoch a run on the disk [fs] starts with: the one after the
    epoch stored in the canonical checkpoint, epoch 0 when there is no
    such file; none when the file cannot be loaded. *)
Definition next_epoch (fs : disk) : option Z :=
  if isfile ckpt_path fs then
    match load_checkpoint ckpt_path fs with
    | Ok loaded => Some (loaded.1 + 1)%Z
    | Raise _ => None
    end
  else Some 0%Z.

End Runner.

Global Arguments checkpoint : clear implicits.
Global Arguments stored : clear implicits.
Global Arguments run : clear implicits.

End train.

(** ** deploy/webinject_train/train.py: the same runner as a class *)

Module deploy_train.
Import Py train.

Section Trainer.
Context {State Metric : Type}.

Variable cfg : train_config.
Variable monitor_name : string.
Variable fresh : State.
Variable train_epoch : Z -> State -> State * Metric.
Variable now : Z -> string.

Abbreviation disk := (gmap string (stored State Metric)).

(** The attributes of a [Trainer] the runner works with. *)
Record Trainer : Type := {
  dataloader : bool;       (* [self.dataloader is not None] *)
  start_epoch : Z;
  objects : State          (* model, optimizer, scheduler *)
}.

Definition latest_checkpoint_path : string :=
  path_join (CHECKPOINT_DIR cfg) (monitor_name +:+ "_latest.pth").

Definition _epoch_checkpoint_path (epoch : Z) : string :=
  path_join (CHECKPOINT_DIR cfg)
    (monitor_name +:+ "_epoch_" +:+ format_04d epoch +:+ ".pth").

(** [Trainer._save_checkpoint(path, epoch, loss)]. *)
Definition _save_checkpoint (path : string) (c : checkpoint State Metric)
    (fs : disk) : disk :=
  let tmp_path := path +:+ ".tmp" in
  os_replace tmp_path path (torch_save c tmp_path fs).

Definition killed_in_save (at_point : crash) (path : string)
    (c : checkpoint State Metric) (fs : disk) : disk :=
  let tmp_path := path +:+ ".tmp" in
  match at_point with
  | BeforeSave => fs
  | WhileSaving written => <[tmp_path := Partial written]> fs
  | BeforeReplace => torch_save c tmp_path fs
  | AfterReplace => _save_checkpoint path c fs
  end.

(** [Trainer._load_checkpoint(path)]. *)
Definition _load_checkpoint (path : string) (fs : disk) : res (Z * State) :=
  let* c := torch_load path fs in
  Ok (epoch c, state_dicts c).

(** [Trainer._resume_from_checkpoint()]. *)
Definition _resume_from_checkpoint (t : Trainer) (fs : disk) : res Trainer :=
  if isfile latest_checkpoint_path fs then
    let* loaded := _load_checkpoint latest_checkpoint_path fs in
    Ok {| dataloader := dataloader t;
          start_epoch := (loaded.1 + 1)%Z;
          objects := loaded.2 |}
  else Ok t.

(** [Trainer.__init__(monitor_name, device)]. *)
Definition __init__ (data : dataset) (fs : disk) : res Trainer :=
  _resume_from_checkpoint
    {| dataloader :=
         lmdb_exists data && negb (dataset_len data =? 0)%Z;
       start_epoch := 0;
       objects := fresh |}
    fs.

Definition _save_step (epoch : Z) (st : State) (avg_loss : Metric)
    (fs : disk) : res disk :=
  if (SAVE_INTERVAL cfg =? 0)%Z then Raise ZeroDivisionError
  else if ((epoch + 1) mod SAVE_INTERVAL cfg =? 0)%Z then
    let c := {| epoch := epoch; state_dicts := st; loss := avg_loss;
                timestamp := now epoch |} in
    let fs1 := _save_checkpoint latest_checkpoint_path c fs in
    if ((epoch + 1) mod 10 =? 0)%Z then
      Ok (_save_checkpoint (_epoch_checkpoint_path (epoch + 1)) c fs1)
    else Ok fs1
  else Ok fs.

Fixpoint _train_loop (todo : list Z) (r : run State Metric)
    : res unit * run State Metric :=
  match todo with
  | [] => (Ok tt, r)
  | epoch :: rest =>
      let (st, avg_loss) := train_epoch epoch (trained r) in
      let done := executed r ++ [epoch] in
      match _save_step epoch st avg_loss (files r) with
      | Raise e =>
          (Raise e, {| executed := done; files := files r; trained := st |})
      | Ok fs =>
          _train_loop rest {| executed := done; files := fs; trained := st |}
      end
  end.

(** [Trainer.train()]. *)
Definition train (t : Trainer) (fs : disk) : res unit * run State Metric :=
  let idle := {| executed := []; files := fs; trained := objects t |} in
  if negb (dataloader t) then (Ok tt, idle)
  else if (start_epoch t >=? NUM_EPOCHS cfg)%Z then (Ok tt, idle)
  else _train_loop (range (start_epoch t) (NUM_EPOCHS cfg)) idle.

(** [Trainer(monitor_name, device).train()], as [main] calls it. *)
Definition run_trainer (data : dataset) (fs : disk)
    : res unit * run State Metric :=
  match __init__ data fs with
  | Raise e =>
      (Raise e, {| executed := []; files := fs; trained := fresh |})
  | Ok t => train t fs
  end.

End Trainer.

End deploy_train.

(** ** Dataset/prompt_generator.py: the user prompts *)

Module prompt_generator.

(** The prefixes [_mock_paraphrase] rewrites, in the order of the
    dict. *)
Definition replacements : list (string * string) :=
  [ ("Click on", "Please tap on");
    ("Scroll down to", "Kindly scroll towards");
    ("Type", "Enter");
    ("Navigate to", "Go to");
    ("Double-click on", "Perform a double-click on");
    ("Right-click on", "Do a right-click on");
    ("Scroll up to", "Scroll back up to") ].

(** [s[n:]]. *)
Fixpoint drop_chars (n : nat) (s : string) : string :=
  match n, s with
  | O, _ => s
  | S n', String _ rest => drop_chars n' rest
  | S _, EmptyString => EmptyString
  end.

(** [s.replace(old, new, 1)]: the first occurrence of [old], from the
    left, is replaced. *)
Fixpoint replace_first (old new s : string) : string :=
  if String.prefix old s then new +:+ drop_chars (String.length old) s
  else
    match s with
    | EmptyString => EmptyString
    | String c rest => String c (replace_first old new rest)
    end.

(** The loop [for old, new in replacements.items()] up to its [break];
    [None] when it ends without one. *)
Fixpoint first_match (rs : list (string * string)) (result : string)
    : option string :=
  match rs with
  | [] => None
  | (old, new) :: rest =>
      if String.prefix old result then Some (replace_first old new result)
      else first_match rest result
  end.

Definition PARAPHRASE_PROMPT_TEMPLATE (target_prompt : string) : string :=
  "Please rephrase the following query into a semantically equivalent version: "
  +:+ target_prompt.

Section Prompts.
(** [c.lower()] for a character, and [_call_openai(prompt)]: the
    stripped answer of the API, the empty string when the call
    failed. *)
Variable str_lower : Ascii.ascii -> string.
Variable _call_openai : string -> string.

(** [_mock_paraphrase(target_prompt)]; [None] stands for the
    IndexError of [result[0]] on the empty string. *)
Definition _mock_paraphrase (target_prompt : string) : option string :=
  match first_match replacements target_prompt with
  | Some result => Some result
  | None =>
      match target_prompt with
      | EmptyString => None
      | String c rest => Some ("Could you " +:+ str_lower c +:+ rest)
      end
  end.

(** The loop [for tp in target_prompts] of [generate_user_prompts]. *)
Fixpoint paraphrase_all (use_mock : bool) (target_prompts : list string)
    (user_prompts : list string) : option (list string) :=
  match target_prompts with
  | [] => Some user_prompts
  | tp :: rest =>
      let paraphrased :=
        if use_mock then _mock_paraphrase tp
        else
          let response := _call_openai (PARAPHRASE_PROMPT_TEMPLATE tp) in
          if negb (String.eqb response "") then Some response
          else _mock_paraphrase tp in
      match paraphrased with
      | Some up => paraphrase_all use_mock rest (user_prompts ++ [up])
      | None => None
      end
  end.

(** [generate_user_prompts(target_prompts, use_mock)]. *)
Definition generate_user_prompts (target_prompts : list string)
    (use_mock : bool) : option (list string) :=
  paraphrase_all use_mock target_prompts [].

End Prompts.

End prompt_generator.

(** ** Dataset/webpage_manager.py: the synthetic pages *)

Module webpage_manager.

(** The entries of [config] the generator reads. *)
Record synth_config : Type := {
  RAW_HTML_DIR : string;
  DOMAINS : list string;
  NUM_SYNTH_PAGES : Z;
  USE_MOCK : bool
}.

Definition synth_filename (category : string) (index : nat) : string :=
  crawler.lower category +:+ "_synth_" +:+ pretty (index + 1)%nat +:+ ".html".

Section Generator.
(** The text of a page, with the number of bytes it takes in the file
    and whether it is the empty string. *)
Context {Html : Type}.
Variable size : Html -> Z.
Variable is_empty : Html -> bool.

Variable cfg : synth_config.

(** [_generate_mock_html(category, index)], and what [_call_openai]
    answers when it is asked for the page [index] of [category]. *)
Variable _generate_mock_html : string -> nat -> Html.
Variable _call_openai : string -> nat -> Html.

Abbreviation disk := (gmap string Html).

Definition filepath_of (category : string) (index : nat) : string :=
  crawler.path_join (crawler.path_join (RAW_HTML_DIR cfg) category)
                    (synth_filename category index).

(** [os.path.exists(p) and os.path.getsize(p) > 100]. *)
Definition present (path : string) (fs : disk) : bool :=
  match fs !! path with
  | Some html => (size html >? 100)%Z
  | None => false
  end.

(** [generate_one(category, index, use_mock)]: the path returned and
    the disk left. *)
Definition generate_one (category : string) (index : nat) (use_mock : bool)
    (fs : disk) : string * disk :=
  let filepath := filepath_of category index in
  if present filepath fs then (filepath, fs)
  else
    let html_content :=
      if use_mock then _generate_mock_html category index
      else
        let answer := _call_openai category index in
        if is_empty answer then _generate_mock_html category index
        else answer in
    (filepath, <[filepath := html_content]> fs).

(** The inner loop [for idx in range(config.NUM_SYNTH_PAGES)]. *)
Fixpoint generate_pages (category : string) (indices : list nat)
    (cat_paths : list string) (fs : disk) : list string * disk :=
  match indices with
  | [] => (cat_paths, fs)
  | idx :: rest =>
      let (path, fs1) := generate_one category idx (USE_MOCK cfg) fs in
      generate_pages category rest (cat_paths ++ [path]) fs1
  end.

(** The outer loop [for category in config.DOMAINS]. *)
Fixpoint generate_categories (categories : list string)
    (all_paths : list string) (fs : disk) : list string * disk :=
  match categories with
  | [] => (all_paths, fs)
  | category :: rest =>
      let (cat_paths, fs1) :=
        generate_pages category (seq 0 (Z.to_nat (NUM_SYNTH_PAGES cfg))) [] fs in
      generate_categories rest (all_paths ++ cat_paths) fs1
  end.

(** [generate_all()]. *)
Definition generate_all (fs : disk) : list string * disk :=
  generate_categories (DOMAINS cfg) [] fs.

(** The paths of the pages of a category, in the order of their
    indices. *)
Definition pages_of (category : string) : list string :=
  filepath_of category <$> seq 0 (Z.to_nat (NUM_SYNTH_PAGES cfg)).

(** Every page a run writes takes more than 100 bytes: the mock pages
    do, and so does every answer of the API that is not empty. *)
Definition pages_large : Prop :=
  (forall category index,
     (100 < size (_generate_mock_html category index))%Z) /\
  (forall category index,
     is_empty (_call_openai category index) = false ->
     (100 < size (_call_openai category index))%Z).

End Generator.

End webpage_manager.

(** ** Training/pack_data.py: packing the image pairs *)

Module pack_data.
Import Py.

(** A record of the metadata as far as the packing reads it:
    [record.get("screenshots", [])] and
    [record.get("raw_screenshots", [])]. *)
Record record : Type := {
  screenshots : list string;
  raw_screenshots : list string
}.

(** What the LMDB holds under a key, unpickled. *)
Inductive value (Bytes : Type) : Type :=
| Sample (input target : Bytes)   (* [{"input": ..., "target": ...}] *)
| Keys (keys : list string).      (* the list under [__keys__] *)
Global Arguments Sample {Bytes} input target.
Global Arguments Keys {Bytes} keys.

(** [f"{idx:08d}"] and the key [f"{monitor_name}_{idx:08d}"]. *)
Definition format_08d (idx : nat) : string := train.zfill 8 (pretty idx).

Definition key_of (monitor_name : string) (idx : nat) : string :=
  monitor_name +:+ "_" +:+ format_08d idx.

Section Pack.
Context {Bytes : Type}.
Variable SCREENSHOTS_DIR : string.
Variable RAW_SCREENSHOTS_DIR : string.

(** [os.path.isfile], and [_read_image_bytes(path)]: the PNG bytes of
    the image, or the exception of reading it. *)
Variable isfile : string -> bool.
Variable _read_image_bytes : string -> res Bytes.

Abbreviation lmdb := (gmap string (value Bytes)).

(** The loops [for s in files: if monitor_name in s: ...; break]. *)
Definition first_with (monitor_name : string) (files : list string)
    : option string :=
  List.find (fun s => is_substring monitor_name s) files.

(** The pair [(input_path, target_path)] a record gives, if it is not
    skipped. *)
Definition sample_of (monitor_name : string) (r : record)
    : option (string * string) :=
  match first_with monitor_name (screenshots r),
        first_with monitor_name (raw_screenshots r) with
  | Some target_file, Some input_file =>
      let target_path := train.path_join SCREENSHOTS_DIR target_file in
      let input_path := train.path_join RAW_SCREENSHOTS_DIR input_file in
      if negb (isfile target_path) || negb (isfile input_path) then None
      else Some (input_path, target_path)
  | _, _ => None
  end.

(** The loop [for record in records]. *)
Definition collect_samples (monitor_name : string) (records : list record)
    : list (string * string) :=
  omap (sample_of monitor_name) records.

(** The loop of the write transaction: the keys so far and what the
    transaction has put. *)
Fixpoint put_samples (monitor_name : string) (samples : list (string * string))
    (idx : nat) (keys : list string) (db : lmdb) : res (list string * lmdb) :=
  match samples with
  | [] => Ok (keys, db)
  | (input_path, target_path) :: rest =>
      let key := key_of monitor_name idx in
      let* input_bytes := _read_image_bytes input_path in
      let* target_bytes := _read_image_bytes target_path in
      put_samples monitor_name rest (S idx) (keys ++ [key])
        (<[key := Sample input_bytes target_bytes]> db)
  end.

(** [pack_monitor_lmdb(monitor_name, records, lmdb_dir)] on what the
    LMDB of the monitor holds: the transaction commits when its block
    ends, and not when an exception leaves it. *)
Definition pack_monitor_lmdb (monitor_name : string) (records : list record)
    (db : lmdb) : res lmdb :=
  let samples := collect_samples monitor_name records in
  match samples with
  | [] => Ok db
  | _ :: _ =>
      let* put := put_samples monitor_name samples 0 [] db in
      Ok (<["__keys__" := Keys put.1]> put.2)
  end.

End Pack.

End pack_data.

(** ** Training/dataset.py: reading the image pairs *)

Module dataset.
Import pack_data.

(** The exceptions of reading. *)
Inductive error : Type :=
| ValueError
| IndexError
| KeyError
| TypeError.

Section Loader.
Context {Bytes : Type}.

Abbreviation lmdb := (gmap string (value Bytes)).

(** [LMDBDataset(lmdb_path)]: [self.keys], unpickled from
    [__keys__]. *)
Definition __init__ (db : lmdb) : error + value Bytes :=
  match db !! "__keys__" with
  | None => inl ValueError
  | Some keys => inr keys
  end.

(** [len(dataset)]. *)
Definition __len__ (keys : value Bytes) : nat :=
  match keys with
  | Keys l => length l
  | Sample _ _ => 2
  end.

(** [dataset[index]] for an index from 0 on, up to the two byte
    strings of [data = pickle.loads(raw)], before they are decoded,
    cropped and perturbed. *)
Definition __getitem__ (db : lmdb) (keys : value Bytes) (index : nat)
    : error + (Bytes * Bytes) :=
  match keys with
  | Sample _ _ => inl KeyError
  | Keys l =>
      match l !! index with
      | None => inl IndexError
      | Some key =>
          match db !! key with
          | None => inl KeyError
          | Some (Sample input target) => inr (input, target)
          | Some (Keys _) => inl TypeError
          end
      end
  end.

End Loader.

End dataset.

(* ===================================================================== *)
(** * Part II. Properties                                                *)
(* ===================================================================== *)

(** ** The phase state store *)

Section PhaseStateStore.
Import Py pipeline_state.

Lemma existsb_eq_str (phase : string) (l : list pyval) :
  existsb (eq_str phase) l = true <-> PStr phase ∈ l.
Proof.
  rewrite existsb_exists. split.
  - intros (v & Hin & Heq). apply list_elem_of_In in Hin.
    destruct v; simpl in Heq; try discriminate.
    apply String.eqb_eq in Heq. by subst.
  - intros Hin. exists (PStr phase). split.
    + by apply list_elem_of_In.
    + simpl. apply String.eqb_refl.
Qed.

Lemma existsb_eq_str_app (phase : string) (l l' : list pyval) :
  existsb (eq_str phase) l = true ->
  existsb (eq_str phase) (l ++ l') = true.
Proof. rewrite existsb_app. intros ->. done. Qed.

Lemma forallb_is_str_app (l : list pyval) (phase : string) :
  forallb is_str l = true -> forallb is_str (l ++ [PStr phase]) = true.
Proof. rewrite forallb_app. intros ->. done. Qed.

Lemma empty_state_well_formed : well_formed empty_state.
Proof.
  exists (<["completed_phases" := PList []]> (<["phase_data" := PDict ∅]> ∅)),
         [], ∅.
  repeat split; done.
Qed.

(** On a well-formed state [is_completed] is list membership. *)
Lemma is_completed_well_formed (d : gmap string pyval) (names : list pyval)
    (phase : string) :
  d !! "completed_phases" = Some (PList names) ->
  is_completed (PDict d) phase = Ok (existsb (eq_str phase) names).
Proof. intros Hd. unfold is_completed. simpl. by rewrite Hd. Qed.

(** A well-formed document is loaded as it is. *)
Lemma load_state_well_formed (state : pyval) :
  well_formed state -> load_state (Some (JsonText state)) = Ok state.
Proof.
  intros (d & names & pd & -> & Hc & Hn & _).
  unfold load_state. simpl. rewrite Hc. simpl.
  destruct names as [|v names]; [done|].
  cbn [truthy join_ok]. by rewrite Hn.
Qed.

(** Whatever the state file holds, short of bytes that are no text,
    loading gives a well-formed state when the document in it is one. *)
Lemma load_state_total (f : file) :
  (forall state, f = Some (JsonText state) -> well_formed state) ->
  f <> Some NotUtf8 ->
  exists state, load_state f = Ok state /\ well_formed state.
Proof.
  intros Hwf Hutf. destruct f as [[state| | |]|].
  - exists state. split; [|by apply Hwf].
    apply load_state_well_formed. by apply Hwf.
  - exists empty_state. split; [done|apply empty_state_well_formed].
  - done.
  - exists empty_state. split; [done|apply empty_state_well_formed].
  - exists empty_state. split; [done|apply empty_state_well_formed].
Qed.

(** [mark_completed] on a well-formed state, spelled out. *)
Lemma mark_completed_well_formed (d : gmap string pyval)
    (names : list pyval) (pd : gmap string pyval)
    (phase : string) (data : pyval) (f : file) :
  d !! "completed_phases" = Some (PList names) ->
  d !! "phase_data" = Some (PDict pd) ->
  let names' := if existsb (eq_str phase) names then names
                else names ++ [PStr phase] in
  let pd' := match data with PNone => pd | _ => <[phase := data]> pd end in
  let d' := <["phase_data" := PDict pd']>
              (<["completed_phases" := PList names']> d) in
  mark_completed (PDict d) phase data f
    = Ok (PDict d', Some (JsonText (PDict d'))).
Proof.
  intros Hc Hp names' pd' d'.
  unfold mark_completed. simpl. rewrite Hc. simpl.
  subst d' pd' names'.
  destruct (existsb (eq_str phase) names) eqn:Hin; simpl.
  - rewrite (insert_id d "completed_phases") by done.
    destruct data; simpl; rewrite ?Hp; simpl; try done.
    by rewrite insert_id.
  - destruct data; simpl; rewrite ?lookup_insert_ne, ?Hp by done; simpl;
      try done.
    rewrite (insert_id _ "phase_data"); [done|].
    by rewrite lookup_insert_ne.
Qed.

Lemma mark_completed_keeps_well_formed (state : pyval) (phase : string)
    (data : pyval) (f : file) :
  well_formed state ->
  exists state',
    mark_completed state phase data f = Ok (state', Some (JsonText state')) /\
    well_formed state' /\
    is_completed state' phase = Ok true /\
    (forall q, is_completed state q = Ok true ->
               is_completed state' q = Ok true).
Proof.
  intros (d & names & pd & -> & Hc & Hn & Hp).
  eexists. split; [by apply (mark_completed_well_formed d names pd)|].
  set (names' := if existsb (eq_str phase) names then names
                 else names ++ [PStr phase]).
  assert (Hlook : forall pd',
    (<["phase_data" := PDict pd']>
       (<["completed_phases" := PList names']> d)) !! "completed_phases"
    = Some (PList names')).
  { intros pd'. rewrite lookup_insert_ne by done. apply lookup_insert_eq. }
  split; [|split].
  - eexists _, names', _. split; [done|]. split; [apply Hlook|].
    split; [|apply lookup_insert_eq].
    subst names'. destruct (existsb (eq_str phase) names); [done|].
    by apply forallb_is_str_app.
  - rewrite (is_completed_well_formed _ names') by apply Hlook.
    f_equal. subst names'.
    destruct (existsb (eq_str phase) names) eqn:Hin; [done|].
    rewrite existsb_app. simpl. rewrite String.eqb_refl.
    by rewrite orb_true_r.
  - intros q. rewrite (is_completed_well_formed d names) by done.
    rewrite (is_completed_well_formed _ names') by apply Hlook.
    intros [= Hq]. f_equal. subst names'.
    destruct (existsb (eq_str phase) names); [done|].
    by apply existsb_eq_str_app.
Qed.

(** C2 (state durability).  For every pipeline state and phase [p],
    [mark_completed(state, p, data)] returns; when it does, [p] is in
    [completed_phases] (appended at the end unless it was listed
    already), the whole updated state is what the state file holds, so
    that [load_state()] gives it back and [is_completed] answers true
    for [p]; and data other than [None] is stored under
    [phase_data[p]]. *)
Theorem mark_completed_durable (state : pyval) (phase : string)
    (data : pyval) (f : file) :
  well_formed state ->
  exists state',
    mark_completed state phase data f = Ok (state', Some (JsonText state')) /\
    load_state (Some (JsonText state')) = Ok state' /\
    is_completed state' phase = Ok true /\
    (exists names names',
       getitem state "completed_phases" = Ok (PList names) /\
       getitem state' "completed_phases" = Ok (PList names') /\
       PStr phase ∈ names' /\
       names' = if existsb (eq_str phase) names then names
                else names ++ [PStr phase]) /\
    (data <> PNone ->
     (let* pd := getitem state' "phase_data" in getitem pd phase)
       = Ok data).
Proof.
  intros Hwf.
  destruct (mark_completed_keeps_well_formed state phase data f Hwf)
    as (state' & Hmark & Hwf' & Hdone & _).
  exists state'. split; [done|]. split; [by apply load_state_well_formed|].
  split; [done|].
  destruct Hwf as (d & names & pd & -> & Hc & Hn & Hp).
  rewrite (mark_completed_well_formed d names pd) in Hmark by done.
  injection Hmark as <-.
  split.
  - exists names. eexists. split; [simpl; by rewrite Hc|].
    split; [simpl; rewrite lookup_insert_ne by done;
            by rewrite lookup_insert_eq|].
    split; [|done].
    destruct (existsb (eq_str phase) names) eqn:Hin.
    + by apply existsb_eq_str.
    + apply elem_of_app. right. by apply list_elem_of_singleton.
  - intros Hdata. simpl. rewrite lookup_insert_eq. simpl.
    destruct data; try done; by rewrite lookup_insert_eq.
Qed.

Lemma mark_completed_durable_witness :
  well_formed empty_state /\
  exists state',
    mark_completed empty_state "phase0_crawl"
      (PDict {[ "skipped" := PBool true ]}) None
      = Ok (state', Some (JsonText state')) /\
    load_state (Some (JsonText state')) = Ok state' /\
    is_completed state' "phase0_crawl" = Ok true /\
    (exists names names',
       getitem empty_state "completed_phases" = Ok (PList names) /\
       getitem state' "completed_phases" = Ok (PList names') /\
       PStr "phase0_crawl" ∈ names' /\
       names' = if existsb (eq_str "phase0_crawl") names then names
                else names ++ [PStr "phase0_crawl"]) /\
    (PDict {[ "skipped" := PBool true ]} <> PNone ->
     (let* pd := getitem state' "phase_data" in getitem pd "phase0_crawl")
       = Ok (PDict {[ "skipped" := PBool true ]})).
Proof.
  assert (Hwf : well_formed empty_state).
  { exists (<["completed_phases" := PList []]>
              (<["phase_data" := PDict ∅]> ∅)), [], ∅.
    repeat split; reflexivity. }
  split; [exact Hwf|].
  exact (mark_completed_durable empty_state "phase0_crawl"
           (PDict {[ "skipped" := PBool true ]}) None Hwf).
Defined.

(** C8 (corruption-tolerant load).  [load_state()] gives the empty state
    when the state file is absent, cannot be opened, or holds text that
    is no JSON document; but when the file holds bytes that are no
    UTF-8 text, reading it raises UnicodeDecodeError, which the
    [except] clause does not name, and [load_state()] raises. *)
Theorem load_state_undecodable_raises :
  load_state None = Ok empty_state /\
  load_state (Some NotJson) = Ok empty_state /\
  load_state (Some Unreadable) = Ok empty_state /\
  load_state (Some NotUtf8) = Raise UnicodeDecodeError.
Proof. repeat split. Qed.

(** C10 as stated fails: a dict whose [completed_phases] is [None] (the
    JSON document [{"completed_phases": null}]) makes [is_completed]
    raise TypeError. *)
Lemma is_completed_raises_on_null :
  is_completed (PDict {[ "completed_phases" := PNone ]}) "phase0_crawl"
    = Raise TypeError /\
  ~ (forall (d : gmap string pyval) (phase : string),
       exists b, is_completed (PDict d) phase = Ok b).
Proof.
  split; [reflexivity|].
  intros Htotal.
  destruct (Htotal {[ "completed_phases" := PNone ]} "phase0_crawl")
    as [b Hb].
  discriminate Hb.
Qed.

(** C10, amended (totality of [is_completed]).  For every dict in which
    [completed_phases] is missing or holds an object [in] accepts (a
    list, a string or a dict), [is_completed(state, phase)] does not
    raise; it is false when the key is missing, and with a list it is
    true exactly for the phases in the list. *)
Theorem is_completed_total (d : gmap string pyval) (phase : string) :
  (forall v, d !! "completed_phases" = Some v -> container v = true) ->
  exists b,
    is_completed (PDict d) phase = Ok b /\
    (d !! "completed_phases" = None -> b = false) /\
    (forall names, d !! "completed_phases" = Some (PList names) ->
                   (b = true <-> PStr phase ∈ names)).
Proof.
  intros Hcont. unfold is_completed. simpl.
  destruct (d !! "completed_phases") as [v|] eqn:Hd; simpl.
  - specialize (Hcont v eq_refl).
    destruct v; try discriminate Hcont; simpl; eexists;
      (split; [reflexivity|]); (split; [done|]); intros names [= <-].
    apply existsb_eq_str.
  - exists false. repeat split; try done.
Qed.

Lemma is_completed_total_witness :
  (forall v, (∅ : gmap string pyval) !! "completed_phases" = Some v ->
             container v = true) /\
  exists b,
    is_completed (PDict ∅) "phase0_crawl" = Ok b /\
    ((∅ : gmap string pyval) !! "completed_phases" = None -> b = false) /\
    (forall names,
       (∅ : gmap string pyval) !! "completed_phases" = Some (PList names) ->
       (b = true <-> PStr "phase0_crawl" ∈ names)).
Proof.
  assert (H : forall v, (∅ : gmap string pyval) !! "completed_phases" = Some v
                        -> container v = true).
  { intros v Hv. vm_compute in Hv. discriminate Hv. }
  split; [exact H|].
  exact (is_completed_total ∅ "phase0_crawl" H).
Defined.

End PhaseStateStore.

(** ** The pipeline driver *)

Section Driver.
Import Py pipeline_state main.
Context {Env : Type}.
Variable cfg : config.
Variable body : string -> Env -> res pyval * Env.

Abbreviation listed state phase := (is_completed state phase = Ok true).

(** A completed phase is skipped: nothing is called, nothing changes. *)
Lemma run_phase_skip (phase : string) (enabled : bool) (state : pyval)
    (w : world Env) :
  listed state phase -> run_phase body phase enabled state w = (Ok state, w).
Proof. intros H. unfold run_phase. by rewrite H. Qed.

Lemma run_phases_skip (phases : list (string * bool)) (state : pyval)
    (w : world Env) :
  (forall p, p ∈ phases.*1 -> listed state p) ->
  run_phases body phases state w = (Ok state, w).
Proof.
  induction phases as [|[p en] rest IH]; intros Hall; [done|].
  simpl. rewrite run_phase_skip by (apply Hall; left).
  simpl. apply IH. intros q Hq. apply Hall. by right.
Qed.

Lemma andthen_assoc (r : res pyval * world Env) k1 k2 :
  andthen (andthen r k1) k2 = andthen r (fun s w => andthen (k1 s w) k2).
Proof. by destruct r as [[s|e] w]. Qed.

Lemma andthen_ret (r : res pyval * world Env) :
  andthen r (fun s w => (Ok s, w)) = r.
Proof. by destruct r as [[s|e] w]. Qed.

(** [main] is the chain over [plan]. *)
Lemma main_unfold (w : world Env) :
  main cfg body w =
    match load_state (state_file w) with
    | Raise e => (Raise e, w)
    | Ok state => run_phases body (plan cfg) state w
    end.
Proof.
  unfold main. destruct (load_state (state_file w)) as [state|e]; [|done].
  unfold plan, run_phases, phase0_crawl, phase1_synth, phase2_prompts,
    phase3_history, phase4_render, phase5_metadata.
  simpl.
  repeat match goal with
  | |- context [run_phase body ?p ?e ?s ?w] =>
      destruct (run_phase body p e s w) as [[?|?] ?]; simpl; try done
  end.
Qed.

(** What one phase does to a well-formed state whose file is in step. *)
Lemma run_phase_cases (phase : string) (enabled : bool) (state : pyval)
    (w : world Env) :
  well_formed state ->
  (listed state phase /\ run_phase body phase enabled state w = (Ok state, w))
  \/ (is_completed state phase = Ok false /\
      exists w',
        (exists state',
           run_phase body phase enabled state w = (Ok state', w') /\
           well_formed state' /\
           state_file w' = Some (JsonText state') /\
           listed state' phase /\
           (forall q, listed state q -> listed state' q) /\
           (log w' = log w \/
            log w' = log w ++ [Call phase; Return phase]))
        \/ (exists e,
              run_phase body phase enabled state w = (Raise e, w') /\
              state_file w' = state_file w /\
              log w' = log w ++ [Call phase])).
Proof.
  intros Hwf.
  destruct Hwf as (d & names & pd & -> & Hc & Hn & Hp).
  assert (Hwf : well_formed (PDict d)) by (by exists d, names, pd).
  unfold run_phase.
  rewrite (is_completed_well_formed d names) by done.
  destruct (existsb (eq_str phase) names) eqn:Hin; [by left|].
  right. split; [done|].
  destruct (negb enabled).
  - destruct (mark_completed_keeps_well_formed (PDict d) phase skipped
                (state_file w) Hwf) as (state' & Hm & Hwf' & Hl & Hmono).
    unfold mark. rewrite Hm. eexists. left. exists state'.
    repeat split; try done. by left.
  - simpl. destruct (body phase (env w)) as [[summary|e] env'].
    + set (w1 := with_log _ _).
      destruct (mark_completed_keeps_well_formed (PDict d) phase summary
                  (state_file w1) Hwf) as (state' & Hm & Hwf' & Hl & Hmono).
      unfold mark. rewrite Hm. eexists. left. exists state'.
      repeat split; try done. right. simpl. by rewrite <- app_assoc.
    + eexists. right. exists e. repeat split; done.
Qed.

Lemma is_completed_decided (state : pyval) (q : string) :
  well_formed state ->
  listed state q \/ is_completed state q = Ok false.
Proof.
  intros (d & names & pd & -> & Hc & _).
  rewrite (is_completed_well_formed d names) by done.
  destruct (existsb (eq_str q) names); [by left|by right].
Qed.

(** The log a chain of phases writes, and the state it leaves in the
    file, from a well-formed state that the file is in step with. *)
Lemma run_phases_trace (phases : list (string * bool)) (state : pyval)
    (w : world Env) :
  NoDup phases.*1 ->
  well_formed state ->
  load_state (state_file w) = Ok state ->
  exists state_end delta,
    log (run_phases body phases state w).2 = log w ++ delta /\
    NoDup delta /\
    load_state (state_file (run_phases body phases state w).2)
      = Ok state_end /\
    well_formed state_end /\
    (forall q, listed state q -> listed state_end q) /\
    (forall q, Return q ∈ delta -> Call q ∈ delta /\ listed state_end q) /\
    (forall q, Call q ∈ delta ->
               q ∈ phases.*1 /\ is_completed state q = Ok false) /\
    (forall st, (run_phases body phases state w).1 = Ok st ->
                st = state_end /\
                forall q, q ∈ phases.*1 -> listed state_end q).
Proof.
  revert state w.
  induction phases as [|[p en] rest IH]; intros state w Hnd Hwf Hload.
  { exists state, []. simpl. rewrite app_nil_r.
    split; [done|]. split; [constructor|]. split; [done|]. split; [done|].
    split; [done|].
    split; [intros q Hq; by apply elem_of_nil in Hq|].
    split; [intros q Hq; by apply elem_of_nil in Hq|].
    intros st [= <-]. split; [done|].
    intros q Hq. by apply elem_of_nil in Hq. }
  simpl in Hnd. apply NoDup_cons in Hnd as [Hp Hnd].
  simpl run_phases.
  destruct (run_phase_cases p en state w Hwf)
    as [[Hl ->]|[Hnl (w' & [(state' & -> & Hwf' & Hf' & Hl' & Hmono & Hlog)
                            |(e & -> & Hf' & Hlog)])]]; simpl andthen.
  - (* the phase is skipped *)
    destruct (IH state w Hnd Hwf Hload)
      as (state_end & delta & H1 & H2 & H3 & H4 & H5 & H6 & H7 & H8).
    exists state_end, delta.
    split; [done|]. split; [done|]. split; [done|]. split; [done|].
    split; [done|]. split; [done|]. split.
    + intros q Hq. apply H7 in Hq as [Hq Hnq]. split; [by right|done].
    + intros st Hst. split; [by apply (H8 st)|].
      intros q [->|Hq]%elem_of_cons; [by apply H5|].
      by apply (H8 st).
  - (* the phase is marked, with or without its body *)
    assert (Hload' : load_state (state_file w') = Ok state').
    { rewrite Hf'. by apply load_state_well_formed. }
    destruct (IH state' w' Hnd Hwf' Hload')
      as (state_end & delta & H1 & H2 & H3 & H4 & H5 & H6 & H7 & H8).
    assert (Hfresh : (Call p ∉ delta) /\ (Return p ∉ delta)).
    { split.
      - intros Hin. by apply H7 in Hin as [? _].
      - intros Hin. apply H6 in Hin as [Hin _].
        by apply H7 in Hin as [? _]. }
    destruct Hfresh as [Hcp Hrp].
    assert (Hold : forall q, Call q ∈ delta ->
                             q ∈ p :: rest.*1 /\
                             is_completed state q = Ok false).
    { intros q Hq. apply H7 in Hq as [Hq Hnq]. split; [by right|].
      destruct (is_completed_decided state q Hwf) as [Hy|Hn]; [|done].
      apply Hmono in Hy. congruence. }
    assert (Hall : forall st,
               (run_phases body rest state' w').1 = Ok st ->
               st = state_end /\
               forall q, q ∈ p :: rest.*1 -> listed state_end q).
    { intros st Hst. split; [by apply (H8 st)|].
      intros q [->|Hq]%elem_of_cons; [by apply H5|]. by apply (H8 st). }
    destruct Hlog as [Hlog|Hlog].
    + exists state_end, delta. rewrite H1, Hlog.
      split; [done|]. split; [done|]. split; [done|]. split; [done|].
      split; [intros q Hq; apply H5; by apply Hmono|].
      split; [done|]. split; [apply Hold|apply Hall].
    + exists state_end, ([Call p; Return p] ++ delta).
      rewrite H1, Hlog, <- app_assoc.
      split; [done|]. split.
      { simpl. apply NoDup_cons. split.
        - intros [Heq|Hin]%elem_of_cons; [done|]. done.
        - apply NoDup_cons. split; done. }
      split; [done|]. split; [done|].
      split; [intros q Hq; apply H5; by apply Hmono|].
      split; [|split].
      * intros q [Heq|[Heq|Hin]%elem_of_cons]%elem_of_cons; try done.
        -- injection Heq as ->. split; [left|by apply H5].
        -- apply H6 in Hin as [Hin Hq]. split; [|done].
           right. by right.
      * intros q [Heq|[Heq|Hin]%elem_of_cons]%elem_of_cons; try done.
        -- injection Heq as ->. split; [left|done].
        -- by apply Hold.
      * apply Hall.
  - (* the body raises *)
    exists state, [Call p]. simpl. rewrite Hf'.
    split; [done|]. split; [apply NoDup_singleton|]. split; [done|].
    split; [done|]. split; [done|]. split; [|split].
    + intros q Hq. by apply list_elem_of_singleton in Hq.
    + intros q Hq. apply list_elem_of_singleton in Hq.
      injection Hq as ->. split; [left|done].
    + intros st Hst. discriminate Hst.
Qed.

(** A document that loads is loaded as it is. *)
Lemma load_state_document (state loaded : pyval) :
  load_state (Some (JsonText state)) = Ok loaded -> state = loaded.
Proof.
  unfold load_state. simpl.
  destruct state as [| | | | |d]; simpl; try discriminate.
  destruct (truthy _); simpl; [|congruence].
  destruct (join_ok _) as [[]|e] eqn:Hjoin; simpl; [congruence|].
  assert (e = TypeError) as ->.
  { unfold join_ok in Hjoin.
    destruct (default _ _); try discriminate Hjoin; try congruence.
    destruct (forallb _ _); congruence. }
  discriminate.
Qed.

(** The phases [main] goes through are [PHASES], in that order. *)
Lemma plan_phases : (plan cfg).*1 = PHASES.
Proof. reflexivity. Qed.

Lemma occurrences_absent (ev : event) (l : list event) :
  ev ∉ l -> length (filter (fun x => x = ev) l) = 0.
Proof.
  induction l as [|x l IH]; intros Hev; [done|].
  apply not_elem_of_cons in Hev as [Hne Hev].
  rewrite filter_cons_False by congruence. by apply IH.
Qed.

Lemma occurrences_NoDup (ev : event) (l : list event) :
  NoDup l -> length (filter (fun x => x = ev) l) <= 1.
Proof.
  induction 1 as [|x l Hx Hnd IH]; [simpl; lia|].
  destruct (decide (x = ev)) as [->|Hne].
  - rewrite filter_cons_True by done. simpl.
    rewrite occurrences_absent by done. lia.
  - by rewrite filter_cons_False.
Qed.

Lemma plan_NoDup : NoDup (plan cfg).*1.
Proof. simpl. apply (bool_decide_unpack _). by vm_compute. Qed.

(** A run from the start: its log, and the state its file holds. *)
Lemma main_trace (w : world Env) :
  (forall state, state_file w = Some (JsonText state) -> well_formed state) ->
  (main cfg body (restart w) = (Raise UnicodeDecodeError, restart w) /\
   state_file w = Some NotUtf8)
  \/ exists state0 state_end,
       load_state (state_file w) = Ok state0 /\
       well_formed state0 /\
       NoDup (log (main cfg body (restart w)).2) /\
       load_state (state_file (main cfg body (restart w)).2) = Ok state_end /\
       well_formed state_end /\
       (forall q, listed state0 q -> listed state_end q) /\
       (forall q, Return q ∈ log (main cfg body (restart w)).2 ->
                  Call q ∈ log (main cfg body (restart w)).2 /\
                  listed state_end q) /\
       (forall q, Call q ∈ log (main cfg body (restart w)).2 ->
                  is_completed state0 q = Ok false) /\
       (forall st, (main cfg body (restart w)).1 = Ok st ->
                   st = state_end /\
                   forall q, q ∈ (plan cfg).*1 -> listed state_end q).
Proof.
  intros Hwf. rewrite !main_unfold. simpl state_file.
  assert (Hcases : state_file w = Some NotUtf8 \/ state_file w <> Some NotUtf8).
  { destruct (state_file w) as [[| | |]|]; (by right) || (by left). }
  destruct Hcases as [Hbad|Hgood].
  { left. by rewrite Hbad. }
  right.
  destruct (load_state_total (state_file w) Hwf Hgood) as (state0 & Hl & Hwf0).
  rewrite Hl.
  destruct (run_phases_trace (plan cfg) state0 (restart w) plan_NoDup Hwf0 Hl)
    as (state_end & delta & H1 & H2 & H3 & H4 & H5 & H6 & H7 & H8).
  change (log (restart w)) with (@nil event) in H1.
  rewrite app_nil_l in H1.
  exists state0, state_end. rewrite H1.
  split; [done|]. split; [done|]. split; [done|]. split; [done|].
  split; [done|]. split; [done|]. split; [done|].
  split; [|done]. intros q Hq. by apply H7.
Qed.

Lemma run_phases_app (l1 l2 : list (string * bool)) (state : pyval)
    (w : world Env) :
  run_phases body (l1 ++ l2) state w
  = andthen (run_phases body l1 state w) (run_phases body l2).
Proof.
  revert state w. induction l1 as [|[p en] l1 IH]; intros state w; simpl.
  - done.
  - destruct (run_phase body p en state w) as [[st|e] w1]; simpl; [|done].
    apply IH.
Qed.

(** What one phase adds to the log, whatever the state is: nothing
    when it is switched off, and the call of its body first when it is
    switched on and not listed. *)
Lemma run_phase_extends (phase : string) (enabled : bool) (state : pyval)
    (w : world Env) :
  exists delta,
    log (run_phase body phase enabled state w).2 = log w ++ delta /\
    (enabled = false -> delta = []) /\
    (enabled = true -> is_completed state phase = Ok false ->
     exists rest, delta = Call phase :: rest).
Proof.
  unfold run_phase.
  destruct (is_completed state phase) as [[|]|e].
  - exists []. rewrite app_nil_r. by repeat split.
  - destruct enabled; simpl.
    + destruct (body phase (env w)) as [[summary|e] env'].
      * exists [Call phase; Return phase]. split; [|split; [done|by eexists]].
        unfold mark.
        destruct (mark_completed _ _ _ _) as [[st f]|e]; simpl;
          by rewrite <- app_assoc.
      * exists [Call phase]. split; [done|]. split; [done|by eexists].
    + exists []. split; [|split; [done|by intros [=]]]. unfold mark.
      destruct (mark_completed _ _ _ _) as [[st f]|e]; simpl;
        by rewrite app_nil_r.
  - exists []. rewrite app_nil_r. by repeat split.
Qed.

Lemma run_phases_extends (phases : list (string * bool)) (state : pyval)
    (w : world Env) :
  exists delta, log (run_phases body phases state w).2 = log w ++ delta.
Proof.
  revert state w. induction phases as [|[p en] phases IH]; intros state w.
  - exists []. simpl. by rewrite app_nil_r.
  - cbn [run_phases].
    destruct (run_phase_extends p en state w) as (d1 & Hd1 & _).
    destruct (run_phase body p en state w) as [[st|e] w1];
      cbn [andthen fst snd] in *.
    + destruct (IH st w1) as (d2 & Hd2). exists (d1 ++ d2).
      by rewrite Hd2, Hd1, <- app_assoc.
    + by exists d1.
Qed.

(** A body that was entered and did not return: the run stopped there.
    The phases before it are listed in the state the file holds, the
    phase itself is not, and it is switched on. *)
Lemma run_phases_unfinished (phases : list (string * bool)) (state : pyval)
    (w : world Env) (delta : list event) (p : string) :
  NoDup phases.*1 ->
  well_formed state ->
  load_state (state_file w) = Ok state ->
  log (run_phases body phases state w).2 = log w ++ delta ->
  Call p ∈ delta -> Return p ∉ delta ->
  exists pre post state_end,
    phases = pre ++ (p, true) :: post /\
    load_state (state_file (run_phases body phases state w).2)
      = Ok state_end /\
    well_formed state_end /\
    (forall q, q ∈ pre.*1 -> listed state_end q) /\
    is_completed state_end p = Ok false.
Proof.
  revert state w delta.
  induction phases as [|[p0 en] rest IH]; intros state w delta Hnd Hwf Hload.
  { simpl. intros Hlog Hc. rewrite <- (app_nil_r (log w)) in Hlog at 1.
    apply app_inv_head in Hlog. subst delta. by apply elem_of_nil in Hc. }
  assert (Hnd0 := Hnd). simpl in Hnd. apply NoDup_cons in Hnd as [Hp0 Hnd].
  cbn [run_phases].
  destruct (run_phase_extends p0 en state w) as (d1 & Hd1 & Hoff & Hon).
  destruct (run_phase_cases p0 en state w Hwf)
    as [[Hl Hrun]|[Hnl (w' & [(state' & Hrun & Hwf' & Hf' & Hl' & Hmono & Hlog')
                            |(e & Hrun & Hf' & Hlog')])]];
    rewrite Hrun in *; cbn [andthen fst snd] in *.
  - (* the phase is skipped *)
    intros Hlog Hc Hr.
    destruct (IH state w delta Hnd Hwf Hload Hlog Hc Hr)
      as (pre & post & state_end & -> & Hend & Hwfe & Hpre & Hp).
    destruct (run_phases_trace (pre ++ (p, true) :: post) state w Hnd Hwf Hload)
      as (state_end' & delta' & _ & _ & Hend' & _ & Hmono' & _).
    assert (state_end' = state_end) as -> by congruence.
    exists ((p0, en) :: pre), post, state_end.
    split; [done|]. split; [done|]. split; [done|]. split; [|done].
    intros q [->|Hq]%elem_of_cons; [by apply Hmono'|by apply Hpre].
  - (* the phase is marked, with or without its body *)
    assert (Hload' : load_state (state_file w') = Ok state').
    { rewrite Hf'. by apply load_state_well_formed. }
    destruct (run_phases_extends rest state' w') as (d2 & Hd2).
    intros Hlog Hc Hr. rewrite Hd2 in Hlog.
    assert (Hc2 : Call p ∈ d2 /\ Return p ∉ d2).
    { destruct Hlog' as [Hsame|Hboth]; rewrite ?Hsame, ?Hboth in Hlog.
      - apply app_inv_head in Hlog. by subst d2.
      - rewrite <- app_assoc in Hlog. apply app_inv_head in Hlog.
        subst delta. split.
        + apply elem_of_cons in Hc as [[= ->]|Hc].
          { exfalso. apply Hr. right. left. }
          by apply elem_of_cons in Hc as [[=]|Hc].
        + intros Hin. apply Hr. right. by right. }
    destruct Hc2 as [Hc2 Hr2].
    destruct (IH state' w' d2 Hnd Hwf' Hload' Hd2 Hc2 Hr2)
      as (pre & post & state_end & -> & Hend & Hwfe & Hpre & Hp).
    destruct (run_phases_trace (pre ++ (p, true) :: post) state' w' Hnd Hwf' Hload')
      as (state_end' & delta' & _ & _ & Hend' & _ & Hmono' & _).
    assert (state_end' = state_end) as -> by congruence.
    exists ((p0, en) :: pre), post, state_end.
    split; [done|]. split; [done|]. split; [done|]. split; [|done].
    intros q [->|Hq]%elem_of_cons; [by apply Hmono'|by apply Hpre].
  - (* the body raises *)
    intros Hlog Hc Hr. rewrite Hlog' in Hlog. apply app_inv_head in Hlog.
    subst delta. apply list_elem_of_singleton in Hc. injection Hc as ->.
    assert (en = true) as ->.
    { destruct en; [done|]. rewrite Hlog' in Hd1.
      apply app_inv_head in Hd1. by rewrite (Hoff eq_refl) in Hd1. }
    exists [], rest, state. rewrite Hf'.
    split; [done|]. split; [done|]. split; [done|]. split; [|done].
    intros q Hq. by apply elem_of_nil in Hq.
Qed.

(** From a state that lists the phases before [p] and not [p], the run
    enters the body of [p] when it is switched on. *)
Lemma run_phases_reenters (pre post : list (string * bool)) (p : string)
    (state : pyval) (w : world Env) :
  (forall q, q ∈ pre.*1 -> listed state q) ->
  is_completed state p = Ok false ->
  Call p ∈ log (run_phases body (pre ++ (p, true) :: post) state w).2.
Proof.
  intros Hpre Hp. rewrite run_phases_app, run_phases_skip by done.
  cbn [andthen run_phases].
  destruct (run_phase_extends p true state w) as (d1 & Hd1 & _ & Hon).
  destruct (Hon eq_refl Hp) as [rest ->].
  destruct (run_phase body p true state w) as [[st|e] w1];
    cbn [andthen fst snd] in *.
  - destruct (run_phases_extends post st w1) as (d2 & ->). rewrite Hd1.
    apply elem_of_app. left. apply elem_of_app. right. left.
  - rewrite Hd1. apply elem_of_app. right. left.
Qed.

(** C1, amended (idempotent resume).  From a state file that is absent,
    unreadable or holds a well-formed state, two runs of the driver
    with no reset between them bring each phase body to its end at
    most once across both runs: a run enters each body at most once,
    and a body that returned in the first run is not entered in the
    second, while a body that was entered and raised in the first run is
    entered again by the second.  A
    phase listed in [completed_phases] is skipped with no call and no
    change of state or file; and when the first run completed, the
    second enters no body and leaves state and file as they were. *)
Theorem resume_completes_each_phase_once (w0 : world Env) :
  (forall state, state_file w0 = Some (JsonText state) -> well_formed state) ->
  let run1 := main cfg body (restart w0) in
  let run2 := main cfg body (restart run1.2) in
  (forall p, returns p (log run1.2 ++ log run2.2) <= 1) /\
  (forall p, calls p (log run1.2) <= 1 /\ calls p (log run2.2) <= 1) /\
  (forall p, Return p ∈ log run1.2 -> Call p ∉ log run2.2) /\
  (forall p, Call p ∈ log run1.2 -> Return p ∉ log run1.2 ->
             Call p ∈ log run2.2) /\
  (forall p enabled state w,
     is_completed state p = Ok true ->
     run_phase body p enabled state w = (Ok state, w)) /\
  ((exists state, run1.1 = Ok state) ->
   log run2.2 = [] /\ run2 = (run1.1, restart run1.2)).
Proof.
  intros Hwf run1 run2.
  assert (Hskip : forall p enabled state w,
            is_completed state p = Ok true ->
            run_phase body p enabled state w = (Ok state, w))
    by (intros; by apply run_phase_skip).
  destruct (main_trace w0 Hwf) as [[Hraise Hbad]|Hrun1].
  { (* the file cannot be decoded: both runs stop in [load_state] *)
    assert (H1 : run1 = (Raise UnicodeDecodeError, restart w0)) by done.
    assert (H2 : run2 = (Raise UnicodeDecodeError, restart w0)).
    { subst run2. rewrite H1. simpl. apply Hraise. }
    rewrite H1, H2. simpl.
    split; [intros p; unfold returns; simpl; lia|].
    split; [intros p; unfold calls; simpl; lia|].
    split; [intros p Hp; by apply elem_of_nil in Hp|].
    split; [intros p Hp; by apply elem_of_nil in Hp|].
    split; [done|]. intros [state Hstate]. discriminate Hstate. }
  destruct Hrun1 as (state0 & state1 & Hl0 & Hwf0 & Hnd1 & Hl1 & Hwf1
                     & Hmono1 & Hret1 & Hcall1 & Hok1).
  fold run1 in Hnd1, Hl1, Hret1, Hcall1, Hok1.
  assert (Hwf1' : forall state,
            state_file run1.2 = Some (JsonText state) -> well_formed state).
  { intros state Hf. rewrite Hf in Hl1.
    by rewrite (load_state_document state state1 Hl1). }
  destruct (main_trace run1.2 Hwf1') as [[Hraise Hbad]|Hrun2].
  { rewrite Hbad in Hl1. discriminate Hl1. }
  destruct Hrun2 as (state1' & state2 & Hl1' & _ & Hnd2 & Hl2 & Hwf2
                     & Hmono2 & Hret2 & Hcall2 & Hok2).
  fold run2 in Hnd2, Hl2, Hret2, Hcall2, Hok2.
  assert (state1' = state1) as -> by congruence.
  assert (Hexcl : forall p, Return p ∈ log run1.2 -> Call p ∉ log run2.2).
  { intros p Hr Hc. apply Hret1 in Hr as [_ Hlisted].
    apply Hcall2 in Hc. congruence. }
  assert (Hagain : forall p, Call p ∈ log run1.2 -> Return p ∉ log run1.2 ->
                             Call p ∈ log run2.2).
  { intros p Hc Hr.
    assert (Hrun1 : run1 = run_phases body (plan cfg) state0 (restart w0)).
    { subst run1. rewrite main_unfold. simpl state_file. by rewrite Hl0. }
    destruct (run_phases_unfinished (plan cfg) state0 (restart w0)
                (log run1.2) p plan_NoDup Hwf0 Hl0)
      as (pre & post & state_end & Hplan & Hend & _ & Hpre & Hp);
      [by rewrite Hrun1|done|done|].
    rewrite <- Hrun1 in Hend.
    assert (state_end = state1) as -> by congruence.
    subst run2. rewrite main_unfold. simpl state_file. rewrite Hl1, Hplan.
    by apply run_phases_reenters. }
  split; [|split; [|split; [done|split; [done|split; [done|]]]]].
  - intros p. unfold returns. rewrite filter_app, length_app.
    destruct (decide (Return p ∈ log run1.2)) as [Hin|Hout].
    + rewrite (occurrences_absent (Return p) (log run2.2)).
      * pose proof (occurrences_NoDup (Return p) _ Hnd1). lia.
      * intros Hin2. apply Hret2 in Hin2 as [Hc _]. by apply (Hexcl p).
    + rewrite (occurrences_absent (Return p) (log run1.2)) by done.
      pose proof (occurrences_NoDup (Return p) _ Hnd2). lia.
  - intros p. split; by apply occurrences_NoDup.
  - intros [state Hstate].
    destruct (Hok1 state Hstate) as [-> Hall].
    assert (Hrun2 : run2 = (Ok state1, restart run1.2)).
    { subst run2. rewrite main_unfold. simpl state_file. rewrite Hl1.
      by apply run_phases_skip. }
    rewrite Hrun2, Hstate. done.
Qed.

End Driver.

Lemma resume_completes_each_phase_once_witness :
  let cfg := {| main.RUN_CRAWLER := true; main.RUN_SYNTH_GEN := false |} in
  let body := fun (phase : string) (e : unit) =>
                if String.eqb phase "phase3_history"
                then (Py.Raise Py.OSError, e)
                else (Py.Ok (Py.PDict {[ "count" := Py.PInt 0 ]}), e) in
  let w0 := {| main.state_file := None; main.env := tt; main.log := [] |} in
  (forall state,
     main.state_file w0 = Some (pipeline_state.JsonText state) ->
     pipeline_state.well_formed state) /\
  let run1 := main.main cfg body (main.restart w0) in
  let run2 := main.main cfg body (main.restart run1.2) in
  (forall p, main.returns p (main.log run1.2 ++ main.log run2.2) <= 1) /\
  (forall p, main.calls p (main.log run1.2) <= 1 /\
             main.calls p (main.log run2.2) <= 1) /\
  (forall p, main.Return p ∈ main.log run1.2 ->
             main.Call p ∉ main.log run2.2) /\
  (forall p, main.Call p ∈ main.log run1.2 ->
             main.Return p ∉ main.log run1.2 ->
             main.Call p ∈ main.log run2.2) /\
  (forall p enabled state w,
     pipeline_state.is_completed state p = Py.Ok true ->
     main.run_phase body p enabled state w = (Py.Ok state, w)) /\
  ((exists state, run1.1 = Py.Ok state) ->
   main.log run2.2 = [] /\ run2 = (run1.1, main.restart run1.2)).
Proof.
  intros cfg body w0.
  assert (H : forall state,
            main.state_file w0 = Some (pipeline_state.JsonText state) ->
            pipeline_state.well_formed state).
  { intros state Hf. simpl in Hf. discriminate Hf. }
  split; [exact H|].
  exact (resume_completes_each_phase_once cfg body w0 H).
Defined.

(** C1 as stated fails: a phase body that raises is entered again by the
    next run.  Here the state file is absent and the body of
    [phase2_prompts] raises; both runs enter it. *)
Lemma failed_phase_body_runs_twice :
  let cfg := {| main.RUN_CRAWLER := true; main.RUN_SYNTH_GEN := false |} in
  let body := fun (phase : string) (e : unit) =>
                if String.eqb phase "phase2_prompts"
                then (Py.Raise Py.RuntimeError, e)
                else (Py.Ok (Py.PDict {[ "count" := Py.PInt 0 ]}), e) in
  let w0 := {| main.state_file := None; main.env := tt; main.log := [] |} in
  let run1 := main.main cfg body (main.restart w0) in
  let run2 := main.main cfg body (main.restart run1.2) in
  main.calls "phase2_prompts" (main.log run1.2 ++ main.log run2.2) = 2 /\
  main.log run1.2 = [main.Call "phase0_crawl"; main.Return "phase0_crawl";
                     main.Call "phase2_prompts"] /\
  main.log run2.2 = [main.Call "phase2_prompts"].
Proof. vm_compute. repeat split. Qed.

(** ** The interactive gate *)

Section Gate.
Import Py config crawler.

Variable hz : Z.
Variable check_fn : session -> bool.
Variable check_takes : session -> Z.
Variable oversleeps : session -> Z.
Variable cfg : crawler_config.

(** A second has ticks, and neither a check nor a sleep takes less
    than no time. *)
Hypothesis hz_pos : (0 < hz)%Z.
Hypothesis check_takes_time : forall s, (0 <= check_takes s)%Z.
Hypothesis sleep_lasts : forall s, (0 <= oversleeps s)%Z.

Abbreviation poll := (crawler.poll check_fn check_takes).
Abbreviation round := (crawler.round hz check_fn check_takes oversleeps).
Abbreviation later := (crawler.later hz check_fn check_takes oversleeps).
Abbreviation loop := (wait_loop hz check_fn check_takes oversleeps).
Abbreviation gate := (_wait_for_captcha hz check_fn check_takes oversleeps cfg).

Lemma later_S (n : nat) (s : session) : later (S n) s = later n (round s).
Proof. unfold crawler.later. apply Nat.iter_succ_r. Qed.

(** A round is a check and a sleep, and lasts two seconds at least. *)
Lemma round_session (s : session) :
  polls (round s) = S (polls s) /\
  naps (round s) = S (naps s) /\
  clock (round s)
    = (clock s + check_takes s + 2 * hz + oversleeps (poll s).2)%Z.
Proof. unfold crawler.round, sleep, crawler.poll. simpl. repeat split. Qed.

Lemma later_session (n : nat) (s : session) :
  polls (later n s) = polls s + n /\
  naps (later n s) = naps s + n /\
  (clock s + 2 * hz * Z.of_nat n <= clock (later n s))%Z.
Proof.
  revert s. induction n as [|n IH]; intros s.
  { unfold crawler.later. simpl. repeat split; lia. }
  rewrite later_S. destruct (IH (round s)) as (Hp & Hn & Hc).
  destruct (round_session s) as (Rp & Rn & Rc).
  pose proof (check_takes_time s). pose proof (sleep_lasts (poll s).2).
  rewrite Hp, Hn, Rp, Rn. repeat split; lia.
Qed.

(** With checks of at most [c] ticks and sleeps at most [o] ticks too
    long, [n] rounds last no longer than this. *)
Lemma later_clock_le (c o : Z) (n : nat) (s : session) :
  (forall s, check_takes s <= c)%Z -> (forall s, oversleeps s <= o)%Z ->
  (clock (later n s) <= clock s + Z.of_nat n * (c + 2 * hz + o))%Z.
Proof.
  intros Hc Ho. revert s. induction n as [|n IH]; intros s.
  { unfold crawler.later. simpl. lia. }
  rewrite later_S. specialize (IH (round s)).
  destruct (round_session s) as (_ & _ & Rc).
  pose proof (Hc s). pose proof (Ho (poll s).2). lia.
Qed.

(** While the predicate holds and the time is not up, the loop goes
    round. *)
Lemma wait_loop_rounds (n fuel : nat) (start timeout : Z) (s : session) :
  (forall k, k < n ->
     check_fn (later k s) = true /\
     (clock (poll (later k s)).2 - start <= timeout * hz)%Z) ->
  loop (n + fuel) start timeout s = loop fuel start timeout (later n s).
Proof.
  revert s. induction n as [|n IH]; intros s Hblocked; [done|].
  destruct (Hblocked 0 ltac:(lia)) as [Hb He].
  change (later 0 s) with s in Hb, He.
  unfold crawler.poll in He. cbn [snd clock] in He.
  cbn [Nat.add wait_loop]. unfold crawler.poll at 1. rewrite Hb.
  cbn [clock].
  destruct (Z.gtb_spec (clock s + check_takes s - start) (timeout * hz))
    as [Hgt|_]; [lia|].
  rewrite later_S. apply IH. intros k Hk.
  rewrite <- later_S. apply Hblocked. lia.
Qed.

(** The loop ends within the iterations [enough] grants. *)
Lemma wait_loop_ends (fuel : nat) (start timeout : Z) (s : session) :
  1 <= fuel ->
  (2 * hz * Z.of_nat fuel > timeout * hz - (clock s - start) + 2 * hz)%Z ->
  exists r, loop fuel start timeout s = Some r.
Proof.
  revert s. induction fuel as [|fuel IH]; intros s Hpos Hfuel; [lia|].
  cbn [wait_loop]. unfold crawler.poll. destruct (check_fn s); [|by eexists].
  cbn [clock].
  destruct (Z.gtb_spec (clock s + check_takes s - start) (timeout * hz))
    as [Hgt|Hle]; [by eexists|].
  pose proof (check_takes_time s) as Hc.
  set (s1 := {| clock := _; polls := _; naps := _ |}).
  pose proof (sleep_lasts s1) as Ho.
  apply IH.
  - destruct fuel as [|fuel]; [|lia]. exfalso. simpl in Hfuel. lia.
  - unfold sleep. subst s1. cbn [clock] in *. lia.
Qed.

Lemma enough_fuel (timeout : Z) :
  (2 * Z.of_nat (enough timeout) > timeout + 2)%Z.
Proof.
  unfold enough.
  destruct (Z.le_gt_cases 0 timeout) as [Hpos|Hneg].
  - pose proof (Z.mod_pos_bound timeout 2 ltac:(lia)).
    pose proof (Z.div_mod timeout 2 ltac:(lia)).
    assert (0 <= timeout / 2)%Z by (apply Z.div_pos; lia). lia.
  - lia.
Qed.

Lemma enough_ticks (timeout : Z) :
  (2 * hz * Z.of_nat (enough timeout) > timeout * hz + 2 * hz)%Z.
Proof. pose proof (enough_fuel timeout). nia. Qed.

Lemma enough_rounds (timeout : Z) (n : nat) :
  n = 0 \/ (2 * hz * Z.of_nat (n - 1) <= timeout * hz)%Z ->
  exists fuel, enough timeout = n + S fuel.
Proof.
  intros Hn. exists (enough timeout - n - 1).
  pose proof (enough_fuel timeout). unfold enough in *.
  destruct Hn as [->|Hn]; [lia|].
  assert (2 * Z.of_nat (n - 1) <= timeout)%Z by nia.
  assert (0 <= timeout)%Z by lia.
  pose proof (Z.mod_pos_bound timeout 2 ltac:(lia)).
  pose proof (Z.div_mod timeout 2 ltac:(lia)).
  assert (0 <= timeout / 2)%Z by (apply Z.div_pos; lia). lia.
Qed.

(** C9 (interactive gate).  The gate always returns.  When the
    predicate is false at the first check it returns true at once, with
    no sleep.  Otherwise it polls the predicate with a sleep of two
    seconds between one poll and the next, the first poll right after
    the first check: if the predicate held at the polls before the
    [n]-th, none of them ending later than the timeout, then the gate
    returns true at the [n]-th poll when the predicate is false there,
    and false when the predicate holds there and the time waited since
    the first check exceeds the timeout.  So with a predicate that
    holds at the first check and at three polls and is false at the
    next, and a timeout of 60 seconds, the gate returns true after
    three sleeps: 6 seconds and what the five checks and the sleeps
    take over that. *)
Theorem wait_for_captcha_semantics (timeout : option Z) (s : session) :
  let limit := default (CAPTCHA_WAIT_TIMEOUT cfg) timeout in
  let first := (poll s).2 in
  let result := gate timeout s in
  (exists r, result = Some r) /\
  (check_fn s = false -> result = Some (true, first) /\ naps first = naps s) /\
  (check_fn s = true ->
   forall n,
     (forall k, k < n ->
        check_fn (later k first) = true /\
        (clock (poll (later k first)).2 - clock first <= limit * hz)%Z) ->
     naps (later n first) = naps s + n /\
     (check_fn (later n first) = false ->
      result = Some (true, (poll (later n first)).2)) /\
     (check_fn (later n first) = true ->
      (clock (poll (later n first)).2 - clock first > limit * hz)%Z ->
      result = Some (false, (poll (later n first)).2))) /\
  (forall c o,
     timeout = Some 60%Z ->
     (forall s, check_takes s <= c)%Z -> (forall s, oversleeps s <= o)%Z ->
     (3 * c + 2 * o <= 56 * hz)%Z ->
     check_fn s = true ->
     check_fn (later 0 first) = true ->
     check_fn (later 1 first) = true ->
     check_fn (later 2 first) = true ->
     check_fn (later 3 first) = false ->
     exists s',
       result = Some (true, s') /\
       naps s' = naps s + 3 /\
       (clock s + 6 * hz <= clock s' <= clock s + 6 * hz + 5 * c + 3 * o)%Z).
Proof.
  intros limit first result.
  assert (Hloop : check_fn s = true ->
            result = loop (enough limit) (clock first) limit first).
  { intros Hb. subst result. unfold _wait_for_captcha.
    fold limit. unfold crawler.poll at 1. by rewrite Hb. }
  assert (Hrounds : check_fn s = true ->
   forall n,
     (forall k, k < n ->
        check_fn (later k first) = true /\
        (clock (poll (later k first)).2 - clock first <= limit * hz)%Z) ->
     naps (later n first) = naps s + n /\
     (check_fn (later n first) = false ->
      result = Some (true, (poll (later n first)).2)) /\
     (check_fn (later n first) = true ->
      (clock (poll (later n first)).2 - clock first > limit * hz)%Z ->
      result = Some (false, (poll (later n first)).2))).
  { intros Hb n Hn.
    split; [by destruct (later_session n first) as (_ & -> & _)|].
    rewrite (Hloop Hb).
    destruct (enough_rounds limit n) as [fuel ->].
    { destruct n as [|n]; [by left|right].
      destruct (Hn n ltac:(lia)) as [_ Hle].
      replace (S n - 1) with n by lia.
      destruct (later_session n first) as (_ & _ & Hclock).
      pose proof (check_takes_time (later n first)).
      unfold crawler.poll in Hle. cbn [snd clock] in Hle. lia. }
    rewrite wait_loop_rounds by done.
    cbn [wait_loop]. split.
    - intros Hf. unfold crawler.poll. by rewrite Hf.
    - intros Ht Hgt. unfold crawler.poll in *. rewrite Ht.
      cbn [snd clock] in *.
      destruct (Z.gtb_spec (clock (later n first)
                            + check_takes (later n first) - clock first)
                           (limit * hz)) as [_|Hle]; [done|lia]. }
  split; [|split; [|split; [exact Hrounds|]]].
  - subst result. unfold _wait_for_captcha. fold limit.
    unfold crawler.poll at 1.
    destruct (check_fn s); simpl negb; cbv iota; [|by eexists].
    apply wait_loop_ends; [unfold enough; lia|].
    pose proof (enough_ticks limit). lia.
  - intros Hb. subst result. unfold _wait_for_captcha.
    unfold crawler.poll at 1. by rewrite Hb.
  - intros c o -> Hc Ho Hsmall Hb H0 H1 H2 H3.
    assert (Hbound : forall k,
              (clock first + 2 * hz * Z.of_nat k
               <= clock (poll (later k first)).2
               <= clock first + Z.of_nat k * (c + 2 * hz + o) + c)%Z).
    { intros k. destruct (later_session k first) as (_ & _ & Hlow).
      pose proof (later_clock_le c o k first Hc Ho).
      pose proof (check_takes_time (later k first)).
      pose proof (Hc (later k first)).
      unfold crawler.poll. cbn [snd clock]. lia. }
    destruct (Hrounds Hb 3) as (Hnaps & Htrue & _).
    { intros k Hk. subst limit.
      change (default (CAPTCHA_WAIT_TIMEOUT cfg) (Some 60%Z)) with 60%Z.
      pose proof (Hbound k) as Hk'.
      pose proof (check_takes_time s). pose proof (Hc s).
      pose proof (sleep_lasts s). pose proof (Ho s).
      destruct k as [|[|[|k]]]; [split; [done|lia]..|lia]. }
    rewrite (Htrue H3). eexists. split; [done|].
    split; [unfold crawler.poll; cbn [snd naps]; exact Hnaps|].
    pose proof (Hbound 3) as Hk'.
    pose proof (check_takes_time s). pose proof (Hc s).
    subst first. unfold crawler.poll in *. cbn [snd clock] in *. lia.
Qed.

End Gate.

(** A gate whose checks take 20 ms and whose sleeps last 1 ms too long,
    with a thousand ticks to the second, on a predicate that clears at
    the fifth check. *)
Lemma wait_for_captcha_semantics_witness :
  let hz := 1000%Z in
  let check_fn := fun s => (crawler.polls s <? 4)%nat in
  let check_takes := fun _ : crawler.session => 20%Z in
  let oversleeps := fun _ : crawler.session => 1%Z in
  let s0 := {| crawler.clock := 0; crawler.polls := 0; crawler.naps := 0 |} in
  (0 < hz)%Z /\
  (forall s, 0 <= check_takes s)%Z /\
  (forall s, 0 <= oversleeps s)%Z /\
  (exists r,
     crawler._wait_for_captcha hz check_fn check_takes oversleeps
       config.shipped (Some 60%Z) s0 = Some r).
Proof.
  intros hz check_fn check_takes oversleeps s0.
  assert (H1 : (0 < hz)%Z) by (subst hz; lia).
  assert (H2 : forall s, (0 <= check_takes s)%Z) by (intros s; subst check_takes; simpl; lia).
  assert (H3 : forall s, (0 <= oversleeps s)%Z) by (intros s; subst oversleeps; simpl; lia).
  split; [exact H1|]. split; [exact H2|]. split; [exact H3|].
  exact (proj1 (wait_for_captcha_semantics hz check_fn check_takes oversleeps
                  config.shipped H1 H2 H3 (Some 60%Z) s0)).
Defined.

(** The scenarios of the gate with a timeout of 60 seconds, checks of
    20 ms and sleeps that last 1 ms too long: a predicate that holds at
    the first check and at three polls lets the gate return true after
    three sleeps, 6.103 seconds; one that never clears makes it return
    false after thirty sleeps, 60.67 seconds after the call, at the first
    poll that ends later than the timeout; one that is false at once costs one
    check and no sleep. *)
Example wait_for_captcha_scenarios :
  let gate := crawler._wait_for_captcha 1000 in
  let takes := fun _ : crawler.session => 20%Z in
  let over := fun _ : crawler.session => 1%Z in
  let s0 := {| crawler.clock := 0; crawler.polls := 0; crawler.naps := 0 |} in
  gate (fun s => (crawler.polls s <? 4)%nat) takes over config.shipped
    (Some 60%Z) s0
  = Some (true, {| crawler.clock := 6103; crawler.polls := 5;
                   crawler.naps := 3 |}) /\
  gate (fun _ => true) takes over config.shipped (Some 60%Z) s0
  = Some (false, {| crawler.clock := 60670; crawler.polls := 32;
                    crawler.naps := 30 |}) /\
  gate (fun _ => false) takes over config.shipped None s0
  = Some (true, {| crawler.clock := 20; crawler.polls := 1;
                   crawler.naps := 0 |}).
Proof. vm_compute. repeat split. Qed.

(** ** The process supervisor *)

Section Supervisor.
Import Py config crawler.

Variable _IS_WINDOWS : bool.
Variable cfg : crawler_config.
Variable outcome : Z -> attempt.

Abbreviation one_attempt := (crawler.one_attempt _IS_WINDOWS cfg).
Abbreviation attempts := (crawler.attempts _IS_WINDOWS cfg outcome).
Abbreviation download_page := (crawler.download_page _IS_WINDOWS cfg outcome).
Abbreviation retried := (crawler.retried _IS_WINDOWS cfg).
Abbreviation gained := (crawler.gained cfg).

Lemma launches_app (l1 l2 : list event) :
  launches (l1 ++ l2) = launches l1 + launches l2.
Proof. unfold launches. by rewrite filter_app, length_app. Qed.

Lemma sleeps_app (l1 l2 : list event) :
  sleeps (l1 ++ l2) = sleeps l1 + sleeps l2.
Proof. unfold sleeps. by rewrite filter_app, length_app. Qed.

Lemma kills_app (l1 l2 : list event) : kills (l1 ++ l2) = kills l1 + kills l2.
Proof. unfold kills. by rewrite filter_app, length_app. Qed.

Lemma attempted_app (l1 l2 : list event) :
  attempted (l1 ++ l2) = attempted l1 ++ attempted l2.
Proof. apply omap_app. Qed.

(** What the log gains by an attempt that is answered with the next
    turn of the loop. *)
Lemma gained_log (number : Z) (o : attempt) :
  launches (gained number o) = 1 /\
  attempted (gained number o) = [number] /\
  sleeps (gained number o)
    = (if (number <? MAX_RETRIES cfg)%Z then 1 else 0) /\
  kills (gained number o) = (if hung o then 1 else 0).
Proof.
  unfold crawler.gained.
  destruct (hung o), (number <? MAX_RETRIES cfg)%Z; by vm_compute.
Qed.

(** An attempt that is answered with the next turn: the process left
    behind is killed, and the delay is slept when an attempt is
    left. *)
Lemma one_attempt_goes_on (number : Z) (o : attempt) (log : list event) :
  retried number o = true ->
  one_attempt number o log = GoesOn (log ++ gained number o).
Proof.
  unfold crawler.retried, crawler.gained.
  intros [[Hpass Hkill]%andb_true_iff Hdelay]%andb_true_iff.
  assert (Hpause : forall l,
            pause cfg number l
            = Ok (l ++ (if (number <? MAX_RETRIES cfg)%Z
                        then [Sleep (REQUEST_DELAY cfg)] else []))).
  { intros l. unfold pause, nap.
    destruct (Z.ltb_spec number (MAX_RETRIES cfg)) as [Hlt|Hge];
      [|by rewrite app_nil_r].
    apply orb_true_iff in Hdelay as [Hlast%Z.leb_le|Hpos%Z.leb_le]; [lia|].
    destruct (Z.ltb_spec (REQUEST_DELAY cfg) 0); [lia|done]. }
  unfold crawler.one_attempt, kill_and_go_on, after_try.
  destruct o as [| | | |rc out|e]; simpl in Hpass, Hkill;
    try discriminate Hpass.
  - rewrite Hpause. simpl. by rewrite <- app_assoc.
  - rewrite Hkill, Hpause. simpl. by rewrite <- !app_assoc.
  - rewrite Hkill, Hpause. simpl. by rewrite <- !app_assoc.
  - destruct (rc =? 0)%Z; simpl in Hpass.
    + destruct out as [|bytes|]; try discriminate Hpass.
      * rewrite Hpause. simpl. by rewrite <- app_assoc.
      * apply Z.leb_le in Hpass.
        destruct (Z.gtb_spec bytes 100); [lia|].
        rewrite Hpause. simpl. by rewrite <- app_assoc.
    + rewrite Hpause. simpl. by rewrite <- app_assoc.
Qed.

(** An attempt that is not answered with the next turn: the function
    is left.  Nothing follows the launch, unless a process was left
    behind: off Windows the kill is the end of the caller, and on
    Windows the function is left only because the delay cannot be
    slept. *)
Lemma one_attempt_leaves (number : Z) (o : attempt) (log : list event) :
  retried number o = false ->
  exists r extra,
    one_attempt number o log = Leaves r (log ++ Launch number :: extra) /\
    (r = Ends (Ok true) <-> saved o = true) /\
    (r = Killed <-> hung o = true /\ _IS_WINDOWS = false) /\
    ((hung o = false /\ extra = [])
     \/ (hung o = true /\ _IS_WINDOWS = false /\ extra = [KillTree])
     \/ (hung o = true /\ _IS_WINDOWS = true /\
         (REQUEST_DELAY cfg < 0)%Z /\ (number < MAX_RETRIES cfg)%Z /\
         r = Ends (Raise ValueError) /\
         (extra = [KillTree] \/ extra = [KillTree; KillTree]))).
Proof.
  unfold crawler.retried, crawler.one_attempt, kill_and_go_on, after_try,
    _kill_proc_tree.
  intros Hno.
  assert (Hpause : passed_over o = true ->
                   (negb (hung o) || _IS_WINDOWS) = true ->
                   (number < MAX_RETRIES cfg)%Z /\ (REQUEST_DELAY cfg < 0)%Z /\
                   forall l, pause cfg number l = Raise ValueError).
  { intros Hpass Hkill. rewrite Hpass, Hkill in Hno. simpl in Hno.
    apply orb_false_iff in Hno as [Hlast%Z.leb_gt Hneg%Z.leb_gt].
    split; [done|]. split; [done|]. intros l. unfold pause, nap.
    destruct (Z.ltb_spec number (MAX_RETRIES cfg)); [|lia].
    destruct (Z.ltb_spec (REQUEST_DELAY cfg) 0); [done|lia]. }
  assert (Hplain : forall (sv : bool) l,
            sv = false -> hung o = false -> passed_over o = true ->
            exists r extra,
              match pause cfg number (l ++ [Launch number]) with
              | Ok log' => GoesOn log'
              | Raise e => Leaves (Ends (Raise e)) (l ++ [Launch number])
              end = Leaves r (l ++ Launch number :: extra) /\
              (r = Ends (Ok true) <-> sv = true) /\
              (r = Killed <-> hung o = true /\ _IS_WINDOWS = false) /\
              ((hung o = false /\ extra = [])
               \/ (hung o = true /\ _IS_WINDOWS = false /\ extra = [KillTree])
               \/ (hung o = true /\ _IS_WINDOWS = true /\
                   (REQUEST_DELAY cfg < 0)%Z /\ (number < MAX_RETRIES cfg)%Z /\
                   r = Ends (Raise ValueError) /\
                   (extra = [KillTree] \/ extra = [KillTree; KillTree])))).
  { intros sv l -> Hh Hpass.
    destruct Hpause as (_ & _ & ->); [done|by rewrite Hh|].
    exists (Ends (Raise ValueError)), [].
    split; [by rewrite cons_middle|]. rewrite Hh.
    split; [by split|]. split; [split; [done|by intros [? _]]|by left]. }
  assert (Hleft : forall (r : ending bool) (sv : bool),
            r <> Killed -> (r = Ends (Ok true) <-> sv = true) ->
            exists r' extra,
              Leaves r (log ++ [Launch number])
                = Leaves r' (log ++ Launch number :: extra) /\
              (r' = Ends (Ok true) <-> sv = true) /\
              (r' = Killed <-> false = true /\ _IS_WINDOWS = false) /\
              ((false = false /\ extra = [])
               \/ (false = true /\ _IS_WINDOWS = false /\ extra = [KillTree])
               \/ (false = true /\ _IS_WINDOWS = true /\
                   (REQUEST_DELAY cfg < 0)%Z /\ (number < MAX_RETRIES cfg)%Z /\
                   r' = Ends (Raise ValueError) /\
                   (extra = [KillTree] \/ extra = [KillTree; KillTree])))).
  { intros r sv Hr Hsv. exists r, []. split; [by rewrite cons_middle|].
    split; [done|]. split; [split; [done|by intros [? _]]|by left]. }
  destruct o as [| | | |rc out|e]; simpl in *.
  - by apply Hleft.
  - by apply Hplain.
  - destruct _IS_WINDOWS.
    + destruct Hpause as (Hlt & Hneg & Hraise); [done|done|].
      rewrite !Hraise.
      exists (Ends (Raise ValueError)), [KillTree; KillTree].
      split; [by rewrite <- !app_assoc|].
      split; [by split|]. split; [split; [done|by intros [_ ?]]|].
      right. right. repeat split; try done. by right.
    + exists Killed, [KillTree]. split; [by rewrite <- app_assoc|].
      split; [by split|]. split; [by split|]. right. by left.
  - destruct _IS_WINDOWS.
    + destruct Hpause as (Hlt & Hneg & Hraise); [done|done|].
      rewrite !Hraise.
      exists (Ends (Raise ValueError)), [KillTree].
      split; [by rewrite <- !app_assoc|].
      split; [by split|]. split; [split; [done|by intros [_ ?]]|].
      right. right. repeat split; try done. by left.
    + exists Killed, [KillTree]. split; [by rewrite <- app_assoc|].
      split; [by split|]. split; [by split|]. right. by left.
  - destruct (rc =? 0)%Z eqn:Hrc; simpl in *.
    + destruct out as [|bytes|]; simpl in *.
      * by apply Hplain.
      * destruct (Z.gtb_spec bytes 100) as [Hbig|Hsmall].
        -- by apply Hleft.
        -- apply Hplain; [done|done|by apply Z.leb_le].
      * by apply Hleft.
    + apply Hplain; [by destruct out|done|done].
  - by apply Hleft.
Qed.

(** How many of the attempts [todo] are followed by a delay. *)
Lemma delays_seqZ (n : Z) (k : nat) (m : Z) :
  (m + Z.of_nat k = n + 1)%Z ->
  length (filter (fun a => (a < n)%Z) (seqZ m (Z.of_nat k))) = k - 1.
Proof.
  revert m. induction k as [|k IH]; intros m Hm; [done|].
  rewrite seqZ_cons by lia.
  replace (Z.pred (Z.of_nat (S k))) with (Z.of_nat k) by lia.
  destruct k as [|k].
  - simpl. rewrite filter_cons_False by lia. done.
  - rewrite filter_cons_True by lia. simpl length.
    rewrite IH by lia. lia.
Qed.

(** Through attempts that are all answered with the next turn the loop
    makes every one of them and goes on with what follows. *)
Lemma attempts_retried (todo rest' : list Z) (log : list event) :
  Forall (fun a => retried a (outcome a) = true) todo ->
  exists log',
    attempts (todo ++ rest') log = attempts rest' log' /\
    attempted log' = attempted log ++ todo /\
    launches log' = launches log + length todo /\
    sleeps log' = sleeps log
      + length (filter (fun a => (a < MAX_RETRIES cfg)%Z) todo) /\
    kills log' = kills log
      + length (filter (fun a => hung (outcome a) = true) todo).
Proof.
  revert log. induction todo as [|a rest IH]; intros log Hall.
  { exists log. simpl. rewrite app_nil_r. repeat split; lia. }
  apply Forall_cons in Hall as [Ha Hrest].
  cbn [app crawler.attempts]. rewrite (one_attempt_goes_on _ _ _ Ha).
  destruct (IH (log ++ gained a (outcome a)) Hrest)
    as (log' & -> & Hatt & Hlaunch & Hsleep & Hkill).
  destruct (gained_log a (outcome a)) as (Gl & Ga & Gs & Gk).
  exists log'. split; [done|].
  rewrite Hatt, Hlaunch, Hsleep, Hkill.
  rewrite launches_app, attempted_app, sleeps_app, kills_app, Gl, Ga, Gs, Gk.
  rewrite <- app_assoc. simpl app. simpl length.
  assert (Hs' : length (filter (fun a => (a < MAX_RETRIES cfg)%Z) (a :: rest))
                = (if (a <? MAX_RETRIES cfg)%Z then 1 else 0)
                  + length (filter (fun a => (a < MAX_RETRIES cfg)%Z) rest)).
  { destruct (Z.ltb_spec a (MAX_RETRIES cfg)).
    - by rewrite filter_cons_True by done.
    - by rewrite filter_cons_False by lia. }
  assert (Hk' : length (filter (fun a => hung (outcome a) = true) (a :: rest))
                = (if hung (outcome a) then 1 else 0)
                  + length (filter (fun a => hung (outcome a) = true) rest)).
  { destruct (hung (outcome a)) eqn:Hh.
    - by rewrite filter_cons_True by done.
    - by rewrite filter_cons_False by congruence. }
  rewrite Hs', Hk'. repeat split; lia.
Qed.

Lemma seqZ_split (k n : Z) :
  (1 <= k <= n)%Z ->
  seqZ 1 n = seqZ 1 (k - 1) ++ k :: seqZ (k + 1) (n - k).
Proof.
  intros Hk.
  replace n with ((k - 1) + (1 + (n - k)))%Z at 1 by lia.
  rewrite seqZ_app by lia. f_equal.
  rewrite (seqZ_cons (1 + (k - 1))) by lia.
  replace (1 + (k - 1))%Z with k by lia. f_equal. f_equal; lia.
Qed.

Lemma seqZ_snoc (k : Z) : (1 <= k)%Z -> seqZ 1 k = seqZ 1 (k - 1) ++ [k].
Proof.
  intros Hk. replace k with ((k - 1) + 1)%Z at 1 by lia.
  rewrite seqZ_app by lia. f_equal.
  replace (1 + (k - 1))%Z with k by lia. done.
Qed.

Lemma filter_all_seqZ (P : Z -> Prop) `{!forall a, Decision (P a)} (m n : Z) :
  (forall a, (m <= a < m + n)%Z -> P a) ->
  length (filter P (seqZ m n)) = Z.to_nat n.
Proof.
  intros HP. rewrite <- (length_seqZ m n). f_equal.
  assert (HF : Forall P (seqZ m n)) by (by apply Forall_seqZ).
  induction HF as [|x l Hx HF IH]; [done|].
  rewrite filter_cons_True by done. by f_equal.
Qed.

(** The run of [download_page] up to the attempt [k], when the
    attempts before it are answered with the next one. *)
Lemma download_page_reaches (k : Z) :
  (1 <= k <= MAX_RETRIES cfg)%Z ->
  (forall a, (1 <= a < k)%Z -> retried a (outcome a) = true) ->
  exists before,
    download_page
      = attempts (k :: seqZ (k + 1) (MAX_RETRIES cfg - k)) before /\
    attempted before = seqZ 1 (k - 1) /\
    launches before = Z.to_nat (k - 1) /\
    sleeps before = Z.to_nat (k - 1) /\
    kills before
      = length (filter (fun a => hung (outcome a) = true) (seqZ 1 (k - 1))).
Proof.
  intros Hk Hbefore. unfold crawler.download_page.
  rewrite (seqZ_split k) by done.
  destruct (attempts_retried (seqZ 1 (k - 1))
              (k :: seqZ (k + 1) (MAX_RETRIES cfg - k)) [])
    as (before & -> & Hatt & Hlaunch & Hsleep & Hkill).
  { apply Forall_seqZ. intros a Ha. apply Hbefore. lia. }
  exists before. split; [done|]. split; [done|].
  rewrite Hlaunch, Hsleep, Hkill, length_seqZ.
  change (launches []) with 0. change (sleeps []) with 0.
  change (kills []) with 0.
  split; [lia|]. split; [|lia].
  rewrite filter_all_seqZ by lia. lia.
Qed.

(** C5 fails on the code where a process times out off Windows.  The
    first attempt that times out is the last thing [download_page]
    does: [_kill_proc_tree] kills the process group of the child, which
    is the group of the caller, so the caller is killed with the
    child.  No attempt follows, whatever is left of [MAX_RETRIES], and
    [False] is not returned: nothing is. *)
Theorem download_page_timeout_kills_caller :
  _IS_WINDOWS = false ->
  (1 <= MAX_RETRIES cfg)%Z ->
  (forall a, (1 <= a <= MAX_RETRIES cfg)%Z -> transient (outcome a) = true) ->
  outcome 1%Z = TimedOut ->
  download_page = (Killed, [Launch 1; KillTree]) /\
  attempted download_page.2 = [1%Z] /\
  launches download_page.2 = 1 /\
  sleeps download_page.2 = 0 /\
  ((2 <= MAX_RETRIES cfg)%Z ->
   Z.of_nat (launches download_page.2) <> MAX_RETRIES cfg) /\
  download_page.1 <> Ends (Ok false).
Proof.
  intros Hposix Hmax _ Hfirst.
  assert (Hrun : download_page = (Killed, [Launch 1; KillTree])).
  { unfold crawler.download_page. rewrite seqZ_cons by lia.
    cbn [crawler.attempts]. rewrite Hfirst.
    unfold crawler.one_attempt, _kill_proc_tree. by rewrite Hposix. }
  rewrite Hrun. repeat split; try done. cbn [snd].
  change (launches [Launch 1; KillTree]) with 1. lia.
Qed.

(** C7 (a configuration failure is not retried).  When the launch of
    attempt [k] fails because the executable is not found (the attempts
    before it having been answered with the next one), [download_page]
    returns [False] with the launch of attempt [k] as the last thing it
    did: no delay and no attempt follows, whatever is left of the
    attempts. *)
Theorem download_page_not_found_is_fatal (k : Z) :
  (1 <= k <= MAX_RETRIES cfg)%Z ->
  (forall a, (1 <= a < k)%Z -> retried a (outcome a) = true) ->
  outcome k = NotFound ->
  exists before,
    download_page = (Ends (Ok false), before ++ [Launch k]) /\
    attempted (before ++ [Launch k]) = seqZ 1 k /\
    Z.of_nat (launches (before ++ [Launch k])) = k.
Proof.
  intros Hk Hbefore Hnot.
  destruct (download_page_reaches k Hk Hbefore)
    as (before & -> & Hatt & Hlaunch & _).
  exists before. cbn [crawler.attempts]. rewrite Hnot. split; [done|].
  rewrite attempted_app, launches_app, Hatt, Hlaunch.
  change (attempted [Launch k]) with [k]. change (launches [Launch k]) with 1.
  split; [by rewrite <- seqZ_snoc by lia|lia].
Qed.

End Supervisor.

(** A page whose download never ends, with the shipped configuration,
    on Linux. *)
Lemma download_page_timeout_kills_caller_witness :
  let outcome := fun _ : Z => crawler.TimedOut in
  false = false /\
  (1 <= config.MAX_RETRIES config.shipped)%Z /\
  (forall a, (1 <= a <= config.MAX_RETRIES config.shipped)%Z ->
             crawler.transient (outcome a) = true) /\
  outcome 1%Z = crawler.TimedOut /\
  crawler.download_page false config.shipped outcome
    = (crawler.Killed, [crawler.Launch 1; crawler.KillTree]) /\
  Z.of_nat (crawler.launches
              (crawler.download_page false config.shipped outcome).2)
    <> config.MAX_RETRIES config.shipped.
Proof.
  intros outcome.
  assert (H1 : (1 <= config.MAX_RETRIES config.shipped)%Z) by (simpl; lia).
  assert (H2 : forall a, (1 <= a <= config.MAX_RETRIES config.shipped)%Z ->
                 crawler.transient (outcome a) = true)
    by (intros a _; reflexivity).
  split; [reflexivity|]. split; [exact H1|]. split; [exact H2|].
  split; [reflexivity|].
  destruct (download_page_timeout_kills_caller false config.shipped outcome
              eq_refl H1 H2 eq_refl) as (Hrun & _ & _ & _ & Hless & _).
  split; [exact Hrun|]. apply Hless. simpl. lia.
Defined.

(** The executable is missing at the second attempt, the first having
    exited with an error. *)
Lemma download_page_not_found_is_fatal_witness :
  let cfg := {| config.CAPTCHA_WAIT_TIMEOUT := 300;
                config.DOWNLOAD_TIMEOUT := 90;
                config.MAX_RETRIES := 3;
                config.REQUEST_DELAY := 1;
                config.CONCURRENT_DOWNLOADS := 5;
                config.DOMAINS := ["Blog"];
                config.RAW_HTML_DIR := "data/raw_html" |} in
  let outcome := fun number : Z =>
                   if (number =? 1)%Z
                   then crawler.Exited 1 crawler.Missing
                   else crawler.NotFound in
  (1 <= 2 <= config.MAX_RETRIES cfg)%Z /\
  (forall a, (1 <= a < 2)%Z ->
             crawler.retried false cfg a (outcome a) = true) /\
  outcome 2%Z = crawler.NotFound /\
  exists before,
    crawler.download_page false cfg outcome
      = (crawler.Ends (Py.Ok false), before ++ [crawler.Launch 2]) /\
    crawler.attempted (before ++ [crawler.Launch 2]) = seqZ 1 2 /\
    Z.of_nat (crawler.launches (before ++ [crawler.Launch 2])) = 2%Z.
Proof.
  intros cfg outcome.
  assert (H0 : (1 <= 2 <= config.MAX_RETRIES cfg)%Z) by (simpl; lia).
  assert (H1 : forall a, (1 <= a < 2)%Z ->
                 crawler.retried false cfg a (outcome a) = true).
  { intros a Ha. assert (a = 1%Z) as -> by lia. reflexivity. }
  split; [exact H0|]. split; [exact H1|]. split; [reflexivity|].
  exact (download_page_not_found_is_fatal false cfg outcome 2%Z H0 H1 eq_refl).
Defined.

(** The task that always times out, with the shipped [MAX_RETRIES = 2]:
    on Windows two attempts with one delay between them and [False];
    elsewhere one attempt, and the end of the process. *)
Example download_page_always_times_out :
  crawler.download_page true config.shipped (fun _ => crawler.TimedOut)
  = (crawler.Ends (Py.Ok false),
     [crawler.Launch 1; crawler.KillTree; crawler.Sleep 1;
      crawler.Launch 2; crawler.KillTree]) /\
  crawler.download_page false config.shipped (fun _ => crawler.TimedOut)
  = (crawler.Killed, [crawler.Launch 1; crawler.KillTree]).
Proof. split; reflexivity. Qed.

(** ** The download scheduler *)

Section SchedulerProperties.
Import Py config crawler.

Variable _IS_WINDOWS : bool.
Variable cfg : crawler_config.
Variable outcome : task -> Z -> attempt.

Abbreviation step W := (pool_step _IS_WINDOWS cfg outcome W).
Abbreviation _do_download := (crawler._do_download _IS_WINDOWS cfg outcome).
Abbreviation doomed := (crawler.doomed _IS_WINDOWS cfg outcome).
Abbreviation wins := (crawler.wins _IS_WINDOWS cfg outcome).
Abbreviation accounts_for := (crawler.accounts_for _IS_WINDOWS cfg outcome).

(** *** Counting *)

Lemma total_success_insert (stats : gmap string counts) (cat : string)
    (old new : counts) :
  stats !! cat = Some old ->
  total_success (<[cat := new]> stats)
    = (total_success stats - success old + success new)%Z.
Proof.
  intros Hold. unfold total_success.
  rewrite <- (insert_delete_eq stats cat new).
  rewrite map_fold_insert_L; [|intros; lia|apply lookup_delete_eq].
  rewrite (map_fold_delete_L _ _ cat old stats); [lia|intros; lia|done].
Qed.

Lemma total_fail_insert (stats : gmap string counts) (cat : string)
    (old new : counts) :
  stats !! cat = Some old ->
  total_fail (<[cat := new]> stats)
    = (total_fail stats - fail old + fail new)%Z.
Proof.
  intros Hold. unfold total_fail.
  rewrite <- (insert_delete_eq stats cat new).
  rewrite map_fold_insert_L; [|intros; lia|apply lookup_delete_eq].
  rewrite (map_fold_delete_L _ _ cat old stats); [lia|intros; lia|done].
Qed.

Lemma add_success_counted (stats : gmap string counts) (cat : string) :
  is_Some (stats !! cat) ->
  exists stats',
    add_success cat stats = Ok stats' /\
    dom stats' = dom stats /\
    total_success stats' = (total_success stats + 1)%Z /\
    total_fail stats' = total_fail stats.
Proof.
  intros [c Hc]. unfold add_success. rewrite Hc. eexists. split; [done|].
  split; [|split].
  - rewrite dom_insert_L. apply elem_of_dom_2 in Hc.
    rewrite subseteq_union_1_L; [done|]. by apply singleton_subseteq_l.
  - rewrite (total_success_insert _ _ c) by done. simpl. lia.
  - rewrite (total_fail_insert _ _ c) by done. simpl. lia.
Qed.

Lemma add_fail_counted (stats : gmap string counts) (cat : string) :
  is_Some (stats !! cat) ->
  exists stats',
    add_fail cat stats = Ok stats' /\
    dom stats' = dom stats /\
    total_success stats' = total_success stats /\
    total_fail stats' = (total_fail stats + 1)%Z.
Proof.
  intros [c Hc]. unfold add_fail. rewrite Hc. eexists. split; [done|].
  split; [|split].
  - rewrite dom_insert_L. apply elem_of_dom_2 in Hc.
    rewrite subseteq_union_1_L; [done|]. by apply singleton_subseteq_l.
  - rewrite (total_success_insert _ _ c) by done. simpl. lia.
  - rewrite (total_fail_insert _ _ c) by done. simpl. lia.
Qed.

(** What a worker hands back names the task it was given. *)
Lemma do_download_result (t : task) (r : worker_result) :
  _do_download t = Some r ->
  (exists ok, r = Returned (category t)
                    (rel_key_of (category t) (filename t)) (url t) ok)
  \/ exists e, r = Failed e.
Proof.
  unfold crawler._do_download.
  destruct (download_page _ _ _).1 as [[ok|e]|]; intros [= <-];
    [left|right]; by eexists.
Qed.

(** One future accounted for, the URL mapping being a dict: exactly
    one of the two counters moves. *)
Lemma account_counted (t : task) (r : worker_result) (a : tally)
    (m : gmap string pyval) :
  _do_download t = Some r ->
  is_Some (t_stats a !! category t) ->
  t_mapping a = PDict m ->
  exists a' m',
    account (t, r) a = Ok a' /\
    t_mapping a' = PDict m' /\
    dom (t_stats a') = dom (t_stats a) /\
    completed a' = (completed a + 1)%Z /\
    total_success (t_stats a')
      = (total_success (t_stats a)
         + if succeeded (_do_download t) then 1 else 0)%Z /\
    total_fail (t_stats a')
      = (total_fail (t_stats a)
         + if succeeded (_do_download t) then 0 else 1)%Z.
Proof.
  intros Hr Hcat Hm. rewrite Hr. unfold account. cbn [fst snd].
  destruct (do_download_result t r Hr) as [[ok ->] | [e ->]].
  - destruct ok; rewrite ?Hm; cbn [setitem bind].
    + destruct (add_success_counted _ _ Hcat) as (stats' & -> & Hd & Hs & Hf).
      cbn [bind]. eexists _, _. split; [done|]. cbn [t_mapping t_stats fst snd].
      repeat split; try done; simpl; lia.
    + destruct (add_fail_counted _ _ Hcat) as (stats' & -> & Hd & Hs & Hf).
      cbn [bind]. eexists _, _. split; [done|]. cbn [t_mapping t_stats fst snd].
      repeat split; try done; simpl; lia.
  - destruct (add_fail_counted _ _ Hcat) as (stats' & -> & Hd & Hs & Hf).
    cbn [bind]. eexists _, _. split; [done|]. cbn [t_mapping t_stats].
    repeat split; try done; simpl; lia.
Qed.

(** The whole loop over futures that are done. *)
Lemma as_completed_counted (done : list (task * worker_result)) (a : tally)
    (m : gmap string pyval) :
  Forall (fun d => _do_download d.1 = Some d.2) done ->
  (forall t, t ∈ done.*1 -> is_Some (t_stats a !! category t)) ->
  t_mapping a = PDict m ->
  exists a' m',
    as_completed done a = Ok a' /\
    t_mapping a' = PDict m' /\
    dom (t_stats a') = dom (t_stats a) /\
    completed a' = (completed a + Z.of_nat (length done))%Z /\
    total_success (t_stats a')
      = (total_success (t_stats a) + Z.of_nat (wins done.*1))%Z /\
    total_fail (t_stats a')
      = (total_fail (t_stats a)
         + Z.of_nat (length done - wins done.*1))%Z.
Proof.
  revert a m. induction done as [|[t r] done IH]; intros a m Hdone Hcat Hm.
  { exists a, m. simpl. unfold crawler.wins. simpl.
    repeat split; try done; lia. }
  apply Forall_cons in Hdone as [Hr Hdone]. cbn [fst snd] in Hr.
  destruct (account_counted t r a m Hr) as (a1 & m1 & Ha1 & Hm1 & Hd1 & Hc1 & Hs1 & Hf1);
    [apply Hcat; left|done|].
  destruct (IH a1 m1 Hdone) as (a' & m' & Ha' & Hm' & Hd' & Hc' & Hs' & Hf');
    [|done|].
  { intros t' Ht'. apply elem_of_dom. rewrite Hd1. apply elem_of_dom.
    apply Hcat. by right. }
  exists a', m'. cbn [as_completed]. rewrite Ha1. cbn [bind].
  split; [done|]. split; [done|]. split; [congruence|].
  rewrite fmap_cons. cbn [fst].
  assert (Hle : wins done.*1 <= length done.*1) by apply length_filter.
  rewrite length_fmap in Hle.
  unfold crawler.wins in *.
  destruct (succeeded (_do_download t)) eqn:Hwin.
  - rewrite filter_cons_True by done. simpl length.
    repeat split; lia.
  - rewrite filter_cons_False by congruence. simpl length.
    repeat split; lia.
Qed.

Lemma wins_Permutation (l1 l2 : list task) : l1 ≡ₚ l2 -> wins l1 = wins l2.
Proof. intros H. unfold crawler.wins. by rewrite H. Qed.

(** *** The pool *)

Lemma pool_step_remaining (W : nat) (p p' : pool) :
  step W p p' -> remaining p = S (remaining p').
Proof.
  intros []; unfold remaining; simpl; rewrite ?length_app; simpl; lia.
Qed.

(** Every execution is [2 N] moves long at most, and exactly that long
    when it ends with every future done. *)
Lemma pool_nsteps_remaining (W n : nat) (p p' : pool) :
  nsteps (step W) n p p' -> remaining p = n + remaining p'.
Proof.
  induction 1 as [|n p q r Hstep _ IH]; [done|].
  apply pool_step_remaining in Hstep. lia.
Qed.

Lemma pool_step_accounts_for (W : nat) (ts : list task) (p p' : pool) :
  accounts_for W ts p -> step W p p' -> accounts_for W ts p'.
Proof.
  intros (Hw & Hdone & Hperm) Hstep. unfold crawler.accounts_for.
  destruct Hstep as [t q r f Hfree|q r1 t r2 f result Hresult]; simpl in *.
  - split; [rewrite length_app; simpl; lia|]. split; [done|].
    by rewrite <- app_assoc.
  - split; [rewrite length_app in *; simpl in *; lia|]. split.
    + apply Forall_app. split; [done|]. by apply Forall_singleton.
    + rewrite <- Hperm, fmap_app, <- !app_assoc. simpl.
      apply Permutation_app_head. by rewrite Permutation_middle.
Qed.

Lemma pool_reachable_accounts_for (W : nat) (ts : list task) (p : pool) :
  rtc (step W) (submitted ts) p -> accounts_for W ts p.
Proof.
  revert p. apply rtc_ind_r.
  - split; [simpl; lia|]. split; [by apply Forall_nil|done].
  - intros p q _ Hstep IH. by apply (pool_step_accounts_for W ts p).
Qed.

(** A pool with a worker and work left can move, unless a worker holds
    a task whose download kills the process. *)
Lemma pool_progress (W : nat) (ts : list task) (p : pool) :
  1 <= W -> accounts_for W ts p ->
  drained p \/ doomed p \/ exists p', step W p p'.
Proof.
  intros HW [Hw _]. destruct p as [q r f]. simpl in *.
  destruct r as [|t r].
  - destruct q as [|t q]; [by left|].
    right. right. eexists. apply pool_start. simpl. lia.
  - right. destruct (_do_download t) as [result|] eqn:Hresult.
    + right. eexists.
      by apply (pool_finish _IS_WINDOWS cfg outcome W q [] t r f result).
    + left. exists t. split; [left|done].
Qed.

(** With one worker at least, the pool can run down a queue of tasks
    none of which kills the process. *)
Lemma pool_can_drain (W : nat) (q : list task)
    (f : list (task * worker_result)) :
  1 <= W ->
  (forall t, t ∈ q -> is_Some (_do_download t)) ->
  exists done,
    done.*1 = q /\
    rtc (step W) {| queued := q; running := []; finished := f |}
                 {| queued := []; running := []; finished := f ++ done |}.
Proof.
  intros HW. revert f. induction q as [|t q IH]; intros f Hlive.
  { exists []. split; [done|]. by rewrite app_nil_r. }
  destruct (Hlive t) as [result Hresult]; [left|].
  destruct (IH (f ++ [(t, result)])) as (done & Hdone & Hrun).
  { intros t' Ht'. apply Hlive. by right. }
  exists ((t, result) :: done). split; [by rewrite fmap_cons, Hdone|].
  apply (rtc_l _ _ {| queued := q; running := [t]; finished := f |}).
  { apply (pool_start _IS_WINDOWS cfg outcome W t q [] f). simpl. lia. }
  apply (rtc_l _ _ {| queued := q; running := [];
                      finished := f ++ [(t, result)] |}).
  { by apply (pool_finish _IS_WINDOWS cfg outcome W q [] t [] f result). }
  by rewrite <- app_assoc in Hrun.
Qed.

(** With one worker at least, a queue that holds a task whose download
    kills the process can be run until a worker holds such a task. *)
Lemma pool_can_doom (W : nat) (q : list task)
    (f : list (task * worker_result)) :
  1 <= W ->
  (exists t, t ∈ q /\ _do_download t = None) ->
  exists p,
    rtc (step W) {| queued := q; running := []; finished := f |} p /\
    doomed p.
Proof.
  intros HW. revert f. induction q as [|t q IH]; intros f (t0 & Hin & Hdie).
  { by apply elem_of_nil in Hin. }
  assert (Hstart : step W {| queued := t :: q; running := []; finished := f |}
                          {| queued := q; running := [t]; finished := f |}).
  { apply (pool_start _IS_WINDOWS cfg outcome W t q [] f). simpl. lia. }
  destruct (_do_download t) as [result|] eqn:Hresult.
  - destruct (IH (f ++ [(t, result)])) as (p & Hrun & Hdoom).
    { exists t0. split; [|done].
      apply elem_of_cons in Hin as [->|Hin]; [congruence|done]. }
    exists p. split; [|done].
    eapply rtc_l; [exact Hstart|]. eapply rtc_l; [|exact Hrun].
    by apply (pool_finish _IS_WINDOWS cfg outcome W q [] t [] f result).
  - eexists. split; [by apply rtc_once|].
    exists t. split; [left|done].
Qed.

(** A task whose download kills the process never gets a future that
    is done: the pool is never drained. *)
Lemma pool_never_drained (W : nat) (ts : list task) (t : task) (p : pool) :
  t ∈ ts -> _do_download t = None ->
  rtc (step W) (submitted ts) p ->
  (t ∉ (finished p).*1) /\ length (finished p) < length ts /\ ~ drained p.
Proof.
  intros Hin Hdie Hrun.
  destruct (pool_reachable_accounts_for W ts p Hrun) as (_ & Hdone & Hperm).
  assert (Hnot : t ∉ (finished p).*1).
  { intros ([t' r] & -> & Hd)%list_elem_of_fmap.
    apply (proj1 (Forall_forall _ _) Hdone) in Hd. simpl in *. congruence. }
  assert (Hleft : t ∈ running p ++ queued p).
  { rewrite <- Hperm in Hin. apply elem_of_app in Hin as [Hin|Hin]; done. }
  assert (Hlen : length (finished p) + length (running p ++ queued p)
                 = length ts).
  { rewrite <- Hperm, !length_app, length_fmap. lia. }
  split; [done|]. split.
  - destruct (running p ++ queued p); [by apply elem_of_nil in Hleft|].
    simpl in Hlen. lia.
  - intros [Hq Hr]. rewrite Hq, Hr in Hleft. by apply elem_of_nil in Hleft.
Qed.

(** The download of a task is the end of the process exactly when, off
    Windows, one of its attempts that is made leaves a process
    behind. *)
Lemma attempts_killed (o : Z -> attempt) (todo : list Z) (log : list event) :
  (crawler.attempts _IS_WINDOWS cfg o todo log).1 = Killed ->
  _IS_WINDOWS = false /\ exists a, a ∈ todo /\ hung (o a) = true.
Proof.
  revert log. induction todo as [|a rest IH]; intros log; [done|].
  cbn [crawler.attempts].
  destruct (retried _IS_WINDOWS cfg a (o a)) eqn:Hgo.
  - rewrite (one_attempt_goes_on _ _ _ _ _ Hgo). intros Hk.
    destruct (IH _ Hk) as (Hposix & a' & Hin & Hh).
    split; [done|]. exists a'. split; [by right|done].
  - destruct (one_attempt_leaves _ _ _ _ log Hgo)
      as (r & extra & -> & _ & Hkilled & _).
    cbn [fst]. intros [Hh Hposix]%Hkilled. split; [done|].
    exists a. split; [left|done].
Qed.

Lemma do_download_survives (t : task) :
  (_IS_WINDOWS = true
   \/ forall a, (1 <= a <= MAX_RETRIES cfg)%Z -> hung (outcome t a) = false) ->
  is_Some (_do_download t).
Proof.
  intros Hsafe. unfold crawler._do_download.
  destruct (download_page _ _ _).1 as [[ok|e]|] eqn:Hrun; [by eexists..|].
  apply attempts_killed in Hrun as (Hposix & a & Hin & Hh).
  destruct Hsafe as [Hwin|Hnone]; [congruence|].
  apply elem_of_seqZ in Hin. rewrite Hnone in Hh by lia. done.
Qed.

(** Off Windows a first attempt that times out kills the process. *)
Lemma do_download_killed (t : task) :
  _IS_WINDOWS = false -> (1 <= MAX_RETRIES cfg)%Z ->
  outcome t 1%Z = TimedOut ->
  _do_download t = None.
Proof.
  intros Hposix Hmax Hfirst. unfold crawler._do_download, download_page.
  rewrite seqZ_cons by lia. cbn [crawler.attempts]. rewrite Hfirst.
  unfold one_attempt, _kill_proc_tree. by rewrite Hposix.
Qed.

(** *** [run_crawler] as a whole *)

Section RunCrawler.
Variable _get_target_urls : string -> list string.
Variable present : string -> bool.

Abbreviation scan := (crawler.scan cfg present).
Abbreviation collect := (crawler.collect cfg _get_target_urls present).
Abbreviation run_crawler :=
  (crawler.run_crawler _IS_WINDOWS cfg _get_target_urls present outcome).

(** Collecting the tasks with a dict for the URL mapping never raises,
    the mapping stays a dict, and every task collected has its
    category among the keys of [stats]. *)
Lemma scan_covers (cat : string) (urls : list string) (idx : nat)
    (c : collected) (m : gmap string pyval) :
  is_Some (stats c !! cat) ->
  url_mapping c = PDict m ->
  (forall t, t ∈ tasks c -> is_Some (stats c !! category t)) ->
  exists c' m',
    scan cat urls idx c = Ok c' /\
    url_mapping c' = PDict m' /\
    is_Some (stats c' !! cat) /\
    (forall t, t ∈ tasks c' -> is_Some (stats c' !! category t)).
Proof.
  revert idx c m. induction urls as [|u urls IH]; intros idx c m Hcat Hm Hall.
  { by exists c, m. }
  cbn [crawler.scan]. destruct (present _).
  - rewrite Hm. cbn [setitem bind].
    destruct (add_success_counted (stats c) cat Hcat)
      as (stats' & -> & Hdom & _). cbn [bind].
    eapply IH; simpl; [|done|].
    + apply elem_of_dom. rewrite Hdom. by apply elem_of_dom.
    + intros t Ht. apply elem_of_dom. rewrite Hdom. apply elem_of_dom.
      by apply Hall.
  - eapply IH; simpl; [done|done|].
    intros t [Ht| ->%list_elem_of_singleton]%elem_of_app; [by apply Hall|done].
Qed.

Lemma collect_covers (categories : list string) (c : collected)
    (m : gmap string pyval) :
  url_mapping c = PDict m ->
  (forall t, t ∈ tasks c -> is_Some (stats c !! category t)) ->
  exists c' m',
    collect categories c = Ok c' /\
    url_mapping c' = PDict m' /\
    (forall t, t ∈ tasks c' -> is_Some (stats c' !! category t)).
Proof.
  revert c m. induction categories as [|cat rest IH]; intros c m Hm Hall.
  { by exists c, m. }
  cbn [crawler.collect].
  destruct (scan_covers cat (_get_target_urls cat) 0
              {| stats := <[cat := zero]> (stats c);
                 url_mapping := url_mapping c;
                 tasks := tasks c; skipped := skipped c |} m)
    as (c1 & m1 & -> & Hm1 & _ & Hall1); simpl.
  - rewrite lookup_insert_eq. by eexists.
  - done.
  - intros t Ht. apply lookup_insert_is_Some'. right. by apply Hall.
  - by apply (IH c1 m1).
Qed.

(** C6 fails on the code where a download times out off Windows.  The
    worker that runs into the timeout calls [_kill_proc_tree], which
    kills the process group of the child and with it the caller: the
    pool, the other workers and the loop that accounts for the futures
    end there.  So the task never gets an outcome, the futures done
    are never as many as the tasks, the pool moves on until a worker
    holds such a task, and [run_crawler] returns no statistics and
    does not save the URL mapping. *)
Theorem scheduler_killed_by_timeout (W : nat) (ts : list task) (t : task) :
  _IS_WINDOWS = false ->
  (1 <= MAX_RETRIES cfg)%Z ->
  1 <= W <= length ts ->
  t ∈ ts ->
  outcome t 1%Z = TimedOut ->
  _do_download t = None /\
  (forall p, rtc (step W) (submitted ts) p ->
             (t ∉ (finished p).*1) /\
             length (finished p) < length ts /\
             ~ drained p /\
             (doomed p \/ exists p', step W p p')) /\
  (exists p, rtc (step W) (submitted ts) p /\ doomed p) /\
  (forall f mapping0 c,
     _load_url_mapping f = Ok mapping0 ->
     collect (DOMAINS cfg)
       {| stats := ∅; url_mapping := mapping0; tasks := []; skipped := 0 |}
       = Ok c ->
     tasks c = ts ->
     CONCURRENT_DOWNLOADS cfg = W ->
     forall result, run_crawler f result <-> result = (Killed, f)).
Proof.
  intros Hposix Hmax [HW HN] Hin Hfirst.
  assert (Hdie : _do_download t = None) by (by apply do_download_killed).
  assert (Hdoom : exists p, rtc (step W) (submitted ts) p /\ doomed p).
  { apply pool_can_doom; [done|]. by exists t. }
  split; [done|]. split; [|split; [done|]].
  - intros p Hrun.
    destruct (pool_never_drained W ts t p Hin Hdie Hrun) as (H1 & H2 & H3).
    split; [done|]. split; [done|]. split; [done|].
    destruct (pool_progress W ts p HW) as [Hd|[Hd|Hd]];
      [by apply pool_reachable_accounts_for|done|by left|by right].
  - intros f mapping0 c Hload Hcollect Htasks HWeq result.
    unfold crawler.run_crawler. rewrite Hload, Hcollect, Htasks, HWeq.
    destruct ts as [|t0 ts']; [by apply elem_of_nil in Hin|].
    destruct W as [|W']; [lia|]. split.
    + intros [(final & Hrun & Hdrained & _) | (p & _ & _ & ->)]; [|done].
      by destruct (pool_never_drained _ _ t final Hin Hdie Hrun)
        as (_ & _ & Hnot).
    + intros ->. right. destruct Hdoom as (p & Hrun & Hd). by exists p.
Qed.

End RunCrawler.

End SchedulerProperties.

(** The batch of the scenario on Linux, with two workers: the second
    task times out. *)
Lemma scheduler_killed_by_timeout_witness :
  let cfg := config.shipped in
  let outcome := crawler.scenario_outcome in
  let ts := crawler.scenario_tasks in
  let t := crawler.scenario_task 1 in
  let W := 2 in
  false = false /\
  (1 <= config.MAX_RETRIES cfg)%Z /\
  1 <= W <= length ts /\
  t ∈ ts /\
  outcome t 1%Z = crawler.TimedOut /\
  crawler._do_download false cfg outcome t = None /\
  (forall p,
     rtc (crawler.pool_step false cfg outcome W) (crawler.submitted ts) p ->
     length (crawler.finished p) < length ts /\ ~ crawler.drained p) /\
  (exists p,
     rtc (crawler.pool_step false cfg outcome W) (crawler.submitted ts) p /\
     crawler.doomed false cfg outcome p).
Proof.
  intros cfg outcome ts t W.
  assert (H1 : (1 <= config.MAX_RETRIES cfg)%Z) by (simpl; lia).
  assert (H2 : 1 <= W <= length ts) by (vm_compute; lia).
  assert (H3 : t ∈ ts).
  { unfold ts, crawler.scenario_tasks. apply list_elem_of_fmap.
    exists 1. split; [reflexivity|]. right. left. }
  assert (H4 : outcome t 1%Z = crawler.TimedOut) by (vm_compute; reflexivity).
  split; [reflexivity|]. split; [exact H1|]. split; [exact H2|].
  split; [exact H3|]. split; [exact H4|].
  destruct (scheduler_killed_by_timeout false cfg outcome
              (fun _ => []) (fun _ => false) W ts t eq_refl H1 H2 H3 H4)
    as (Hdie & Hnever & Hdoom & _).
  split; [exact Hdie|]. split; [|exact Hdoom].
  intros p Hrun. destruct (Hnever p Hrun) as (_ & Hlen & Hnot & _).
  split; [exact Hlen|exact Hnot].
Defined.

(** The scenario on Windows, run in the order of submission: three
    successes, two failures, five completions; and each failing task
    was attempted [MAX_RETRIES = 2] times. *)
Example scheduler_scenario :
  let cfg := config.shipped in
  let outcome := crawler.scenario_outcome in
  let start := {| crawler.t_stats := {[ "Blog" := crawler.zero ]};
                  crawler.t_mapping := Py.PDict ∅;
                  crawler.completed := 0; crawler.progress := [] |} in
  (exists done a,
     mapM (fun t => pair t <$> crawler._do_download true cfg outcome t)
          crawler.scenario_tasks = Some done /\
     crawler.as_completed done start = Py.Ok a /\
     crawler.t_stats a
       = {[ "Blog" := {| crawler.success := 3; crawler.fail := 2 |} ]} /\
     crawler.completed a = 5%Z /\
     crawler.progress a = [1; 2; 3; 4; 5]%Z) /\
  crawler.launches
    (crawler.download_page true cfg (outcome (crawler.scenario_task 1))).2 = 2 /\
  crawler.launches
    (crawler.download_page true cfg (outcome (crawler.scenario_task 3))).2 = 2 /\
  crawler.launches
    (crawler.download_page true cfg (outcome (crawler.scenario_task 0))).2 = 1.
Proof.
  split; [|by vm_compute].
  eexists _, _. split; [vm_compute; reflexivity|].
  split; [vm_compute; reflexivity|]. by vm_compute.
Qed.

(** ** The checkpointed job runner *)

Section Checkpoints.
Import Py train.

Context {State Metric : Type}.
Variable cfg : train_config.
Variable monitor_name : string.
Variable fresh : State.
Variable train_epoch : Z -> State -> State * Metric.
Variable now : Z -> string.

Abbreviation disk := (gmap string (stored State Metric)).

(** The temporary path is never the canonical one. *)
Lemma tmp_path_differs (path : string) : path +:+ ".tmp" <> path.
Proof.
  induction path as [|ch path IH]; [done|].
  simpl. intros [= Heq]. by apply IH.
Qed.

Lemma os_replace_lookup (src dst : string) (fs : disk) (f : stored State Metric) :
  src <> dst ->
  fs !! src = Some f ->
  os_replace src dst fs !! dst = Some f /\
  os_replace src dst fs !! src = None.
Proof.
  intros Hne Hsrc. unfold os_replace. rewrite Hsrc. split.
  - apply lookup_insert_eq.
  - rewrite lookup_insert_ne by done. apply lookup_delete_eq.
Qed.

Lemma save_checkpoint_lookup (path : string) (c : checkpoint State Metric)
    (fs : disk) :
  save_checkpoint path c fs !! path = Some (Complete c) /\
  save_checkpoint path c fs !! (path +:+ ".tmp") = None.
Proof.
  unfold save_checkpoint, torch_save.
  apply os_replace_lookup; [apply tmp_path_differs|apply lookup_insert_eq].
Qed.

(** A save leaves every other file alone. *)
Lemma save_checkpoint_other (path other : string) (c : checkpoint State Metric)
    (fs : disk) :
  other <> path -> other <> path +:+ ".tmp" ->
  save_checkpoint path c fs !! other = fs !! other.
Proof.
  intros Hp Ht. unfold save_checkpoint, torch_save, os_replace.
  rewrite lookup_insert_eq.
  rewrite lookup_insert_ne by done. rewrite lookup_delete_ne by done.
  by rewrite lookup_insert_ne.
Qed.

(** C3 (atomic checkpoint).  [save_checkpoint] writes the whole
    checkpoint to [path + ".tmp"] and then renames it onto [path].
    Wherever the process is killed, [path] holds what it held before the
    call or the new checkpoint whole: killed inside [torch.save] or
    between it and [os.replace], [path] is untouched (the new checkpoint
    is whole under the temporary path in the second case); once
    [os.replace] is through, [path] holds the new checkpoint and the
    temporary file is gone.  So a path that held no half-written file
    never comes to hold one, and [torch.load] of it gives the old result
    or the new checkpoint.  [Trainer._save_checkpoint] is the same
    function. *)
Theorem save_checkpoint_atomic (path : string) (c : checkpoint State Metric)
    (fs : disk) :
  (forall at_point,
     killed_in_save at_point path c fs !! path = fs !! path \/
     killed_in_save at_point path c fs !! path = Some (Complete c)) /\
  (forall written,
     killed_in_save (WhileSaving written) path c fs !! path = fs !! path) /\
  (killed_in_save BeforeReplace path c fs !! path = fs !! path /\
   killed_in_save BeforeReplace path c fs !! (path +:+ ".tmp")
     = Some (Complete c)) /\
  (killed_in_save AfterReplace path c fs = save_checkpoint path c fs /\
   save_checkpoint path c fs !! path = Some (Complete c) /\
   save_checkpoint path c fs !! (path +:+ ".tmp") = None) /\
  ((forall written, fs !! path <> Some (Partial written)) ->
   forall at_point written,
     killed_in_save at_point path c fs !! path <> Some (Partial written)) /\
  (forall at_point,
     torch_load path (killed_in_save at_point path c fs) = torch_load path fs \/
     torch_load path (killed_in_save at_point path c fs) = Ok c) /\
  (deploy_train._save_checkpoint path c fs = save_checkpoint path c fs /\
   forall at_point,
     deploy_train.killed_in_save at_point path c fs
       = killed_in_save at_point path c fs).
Proof.
  pose proof (tmp_path_differs path) as Htmp.
  destruct (save_checkpoint_lookup path c fs) as [Hnew Hgone].
  assert (Hcases : forall at_point,
     killed_in_save at_point path c fs !! path = fs !! path \/
     killed_in_save at_point path c fs !! path = Some (Complete c)).
  { intros [|written| |]; simpl.
    - by left.
    - left. by rewrite lookup_insert_ne.
    - left. unfold torch_save. by rewrite lookup_insert_ne.
    - by right. }
  split; [done|]. split.
  { intros written. simpl. by rewrite lookup_insert_ne. }
  split.
  { simpl. unfold torch_save. split; [by rewrite lookup_insert_ne|].
    apply lookup_insert_eq. }
  split; [done|]. split.
  { intros Hwhole at_point written.
    destruct (Hcases at_point) as [-> | ->]; [apply Hwhole|done]. }
  split.
  { intros at_point. unfold torch_load.
    destruct (Hcases at_point) as [-> | ->]; [by left|by right]. }
  split; [done|]. by intros [].
Qed.

(** *** Resuming *)

Abbreviation run_of := (train_one_monitor cfg monitor_name fresh train_epoch now).
Abbreviation loop := (train_loop cfg monitor_name train_epoch now).

(** The loop trains the first epoch it is given, whatever follows. *)
Lemma train_loop_executed_prefix (todo : list Z) (r : run State Metric) :
  exists more, executed (loop todo r).2 = executed r ++ more /\
               forall e rest, todo = e :: rest -> exists more', more = e :: more'.
Proof.
  revert r. induction todo as [|e rest IH]; intros r.
  { exists []. simpl. rewrite app_nil_r. split; [done|]. by intros. }
  simpl. destruct (train_epoch e (trained r)) as [st avg_loss].
  destruct (save_step _ _ _ _ _ _ _) as [fs|err].
  - destruct (IH {| executed := executed r ++ [e]; files := fs; trained := st |})
      as (more & -> & _).
    exists (e :: more). simpl. rewrite <- app_assoc. split; [done|].
    intros e' rest' [= <- <-]. by eexists.
  - exists [e]. simpl. split; [done|].
    intros e' rest' [= <- <-]. by eexists.
Qed.

(** With a save interval other than zero the saving never raises, and
    the loop trains every epoch it is given. *)
Lemma save_step_ok (e : Z) (st : State) (avg_loss : Metric) (fs : disk) :
  SAVE_INTERVAL cfg <> 0%Z ->
  exists fs', save_step cfg monitor_name now e st avg_loss fs = Ok fs'.
Proof.
  intros Hinterval. unfold save_step.
  destruct (Z.eqb_spec (SAVE_INTERVAL cfg) 0); [done|].
  destruct (_ =? 0)%Z; [|by eexists].
  destruct (_ =? 0)%Z; by eexists.
Qed.

Lemma train_loop_executed_all (todo : list Z) (r : run State Metric) :
  SAVE_INTERVAL cfg <> 0%Z ->
  (loop todo r).1 = Ok tt /\
  executed (loop todo r).2 = executed r ++ todo.
Proof.
  intros Hinterval. revert r. induction todo as [|e rest IH]; intros r.
  { simpl. by rewrite app_nil_r. }
  simpl. destruct (train_epoch e (trained r)) as [st avg_loss].
  destruct (save_step_ok e st avg_loss (files r) Hinterval) as [fs' ->].
  destruct (IH {| executed := executed r ++ [e]; files := fs';
                  trained := st |}) as [-> ->].
  simpl. by rewrite <- app_assoc.
Qed.

Lemma range_first (a b : Z) : (a < b)%Z -> exists rest, range a b = a :: rest.
Proof. intros Hab. unfold range. rewrite seqZ_cons by lia. by eexists. Qed.

(** The class of the deployed trainer does what the function does. *)
Lemma _train_loop_train_loop (todo : list Z) (r : run State Metric) :
  deploy_train._train_loop cfg monitor_name train_epoch now todo r = loop todo r.
Proof.
  revert r. induction todo as [|e rest IH]; intros r; [done|].
  simpl. destruct (train_epoch e (trained r)) as [st avg_loss].
  change (deploy_train._save_step cfg monitor_name now e st avg_loss (files r))
    with (save_step cfg monitor_name now e st avg_loss (files r)).
  destruct (save_step _ _ _ _ _ _ _) as [fs|err]; [apply IH|done].
Qed.

Lemma run_trainer_train_one_monitor (data : dataset) (fs : disk) :
  lmdb_exists data = true -> dataset_len data <> 0%Z ->
  deploy_train.run_trainer cfg monitor_name fresh train_epoch now data fs
  = run_of data fs.
Proof.
  intros Hlmdb Hlen.
  unfold deploy_train.run_trainer, deploy_train.__init__,
    deploy_train._resume_from_checkpoint, deploy_train._load_checkpoint,
    deploy_train.train, train_one_monitor, load_checkpoint.
  rewrite Hlmdb. destruct (Z.eqb_spec (dataset_len data) 0); [done|]. simpl.
  change (deploy_train.latest_checkpoint_path cfg monitor_name)
    with (ckpt_path cfg monitor_name).
  destruct (isfile _ fs).
  - destruct (torch_load _ fs) as [c|err]; simpl; [|done].
    destruct (epoch c + 1 >=? NUM_EPOCHS cfg)%Z; [done|].
    apply _train_loop_train_loop.
  - simpl. destruct (0 >=? NUM_EPOCHS cfg)%Z; [done|].
    apply _train_loop_train_loop.
Qed.

(** C4 (checkpoint resume position).  With data to train on: when the
    canonical checkpoint exists and stores epoch [e], the runner performs
    no work at all if [e + 1 >= NUM_EPOCHS], and otherwise the first
    epoch it trains is [e + 1] (and it trains [e + 1 .. NUM_EPOCHS - 1]
    when the save interval is not zero); when no canonical checkpoint
    exists it starts at epoch 0.  [Trainer] resumes alike. *)
Theorem resume_position (data : dataset) (fs : disk) :
  lmdb_exists data = true ->
  dataset_len data <> 0%Z ->
  (forall c,
     fs !! ckpt_path cfg monitor_name = Some (Complete c) ->
     ((epoch c + 1 < NUM_EPOCHS cfg)%Z ->
      (exists more, executed (run_of data fs).2 = (epoch c + 1)%Z :: more) /\
      (SAVE_INTERVAL cfg <> 0%Z ->
       (run_of data fs).1 = Ok tt /\
       executed (run_of data fs).2 = range (epoch c + 1) (NUM_EPOCHS cfg))) /\
     ((epoch c + 1 >= NUM_EPOCHS cfg)%Z ->
      run_of data fs
      = (Ok tt, {| executed := []; files := fs; trained := state_dicts c |}))) /\
  (fs !! ckpt_path cfg monitor_name = None ->
   ((0 < NUM_EPOCHS cfg)%Z ->
    (exists more, executed (run_of data fs).2 = 0%Z :: more) /\
    (SAVE_INTERVAL cfg <> 0%Z ->
     (run_of data fs).1 = Ok tt /\
     executed (run_of data fs).2 = range 0 (NUM_EPOCHS cfg))) /\
   ((0 >= NUM_EPOCHS cfg)%Z ->
    run_of data fs
    = (Ok tt, {| executed := []; files := fs; trained := fresh |}))) /\
  deploy_train.run_trainer cfg monitor_name fresh train_epoch now data fs
  = run_of data fs.
Proof.
  intros Hlmdb Hlen.
  assert (Hstart : forall start st,
    (start < NUM_EPOCHS cfg)%Z ->
    let r := loop (range start (NUM_EPOCHS cfg))
               {| executed := []; files := fs; trained := st |} in
    (exists more, executed r.2 = start :: more) /\
    (SAVE_INTERVAL cfg <> 0%Z ->
     r.1 = Ok tt /\ executed r.2 = range start (NUM_EPOCHS cfg))).
  { intros start st Hlt r. split.
    - destruct (range_first start (NUM_EPOCHS cfg) Hlt) as [rest Hrange].
      destruct (train_loop_executed_prefix (range start (NUM_EPOCHS cfg))
                  {| executed := []; files := fs; trained := st |})
        as (more & Hex & Hfirst).
      destruct (Hfirst _ _ Hrange) as [more' ->].
      exists more'. subst r. by rewrite Hex.
    - intros Hinterval. by apply train_loop_executed_all. }
  split; [|split].
  - intros c Hc.
    assert (Hrun : run_of data fs =
              if (epoch c + 1 >=? NUM_EPOCHS cfg)%Z
              then (Ok tt, {| executed := []; files := fs;
                              trained := state_dicts c |})
              else loop (range (epoch c + 1) (NUM_EPOCHS cfg))
                     {| executed := []; files := fs;
                        trained := state_dicts c |}).
    { unfold train_one_monitor, load_checkpoint, torch_load, isfile.
      rewrite Hlmdb. destruct (Z.eqb_spec (dataset_len data) 0); [done|].
      simpl. rewrite Hc. by rewrite bool_decide_eq_true_2. }
    rewrite Hrun. split.
    + intros Hlt.
      destruct (Z.geb_spec (epoch c + 1) (NUM_EPOCHS cfg)); [lia|].
      by apply Hstart.
    + intros Hge.
      destruct (Z.geb_spec (epoch c + 1) (NUM_EPOCHS cfg)); [done|lia].
  - intros Hnone.
    assert (Hrun : run_of data fs =
              if (0 >=? NUM_EPOCHS cfg)%Z
              then (Ok tt, {| executed := []; files := fs; trained := fresh |})
              else loop (range 0 (NUM_EPOCHS cfg))
                     {| executed := []; files := fs; trained := fresh |}).
    { unfold train_one_monitor, isfile.
      rewrite Hlmdb. destruct (Z.eqb_spec (dataset_len data) 0); [done|].
      simpl. rewrite Hnone.
      by rewrite bool_decide_eq_false_2 by (by intros [? ?]). }
    rewrite Hrun. split.
    + intros Hlt. destruct (Z.geb_spec 0 (NUM_EPOCHS cfg)); [lia|].
      by apply Hstart.
    + intros Hge. destruct (Z.geb_spec 0 (NUM_EPOCHS cfg)); [done|lia].
  - by apply run_trainer_train_one_monitor.
Qed.

End Checkpoints.

Lemma resume_position_witness :
  let cfg := {| train.NUM_EPOCHS := 20; train.SAVE_INTERVAL := 1;
                train.CHECKPOINT_DIR := "checkpoints";
                train.LMDB_DIR := "data" |} in
  let name := "iMac_M1_24" in
  let fresh := 0%Z in
  let train_epoch := fun (e : Z) (st : Z) => ((st + 1)%Z, e) in
  let now := fun _ : Z => "2025-01-01T00:00:00" in
  let data := {| train.lmdb_exists := true; train.dataset_len := 64 |} in
  let fs : gmap string (train.stored Z Z) :=
    {[ train.ckpt_path cfg name :=
         train.Complete {| train.epoch := 9; train.state_dicts := 10%Z;
                           train.loss := 9%Z;
                           train.timestamp := "2025-01-01T00:00:00" |} ]} in
  let run_of := train.train_one_monitor cfg name fresh train_epoch now in
  train.lmdb_exists data = true /\
  train.dataset_len data <> 0%Z /\
  (forall c,
     fs !! train.ckpt_path cfg name = Some (train.Complete c) ->
     ((train.epoch c + 1 < train.NUM_EPOCHS cfg)%Z ->
      (exists more,
         train.executed (run_of data fs).2 = (train.epoch c + 1)%Z :: more) /\
      (train.SAVE_INTERVAL cfg <> 0%Z ->
       (run_of data fs).1 = Py.Ok tt /\
       train.executed (run_of data fs).2
       = train.range (train.epoch c + 1) (train.NUM_EPOCHS cfg))) /\
     ((train.epoch c + 1 >= train.NUM_EPOCHS cfg)%Z ->
      run_of data fs
      = (Py.Ok tt, {| train.executed := []; train.files := fs;
                      train.trained := train.state_dicts c |}))) /\
  (fs !! train.ckpt_path cfg name = None ->
   ((0 < train.NUM_EPOCHS cfg)%Z ->
    (exists more, train.executed (run_of data fs).2 = 0%Z :: more) /\
    (train.SAVE_INTERVAL cfg <> 0%Z ->
     (run_of data fs).1 = Py.Ok tt /\
     train.executed (run_of data fs).2
     = train.range 0 (train.NUM_EPOCHS cfg))) /\
   ((0 >= train.NUM_EPOCHS cfg)%Z ->
    run_of data fs
    = (Py.Ok tt, {| train.executed := []; train.files := fs;
                    train.trained := fresh |}))) /\
  deploy_train.run_trainer cfg name fresh train_epoch now data fs
  = run_of data fs.
Proof.
  intros cfg name fresh train_epoch now data fs run_of.
  assert (H1 : train.lmdb_exists data = true) by reflexivity.
  assert (H2 : train.dataset_len data <> 0%Z) by (simpl; lia).
  split; [exact H1|]. split; [exact H2|].
  exact (resume_position cfg name fresh train_epoch now data fs H1 H2).
Defined.

(** The scenario of the specification: the canonical checkpoint stores
    epoch 9 and there are 20 epochs; the runner trains 10 .. 19, epoch 10
    first, and leaves the checkpoint of epoch 19 under the canonical
    path. *)
Example resume_after_epoch_9 :
  let cfg := {| train.NUM_EPOCHS := 20; train.SAVE_INTERVAL := 1;
                train.CHECKPOINT_DIR := "checkpoints";
                train.LMDB_DIR := "data" |} in
  let name := "iMac_M1_24" in
  let train_epoch := fun (e : Z) (st : Z) => ((st + 1)%Z, e) in
  let now := fun _ : Z => "2025-01-01T00:00:00" in
  let data := {| train.lmdb_exists := true; train.dataset_len := 64 |} in
  let fs : gmap string (train.stored Z Z) :=
    {[ train.ckpt_path cfg name :=
         train.Complete {| train.epoch := 9; train.state_dicts := 10%Z;
                           train.loss := 9%Z;
                           train.timestamp := "2025-01-01T00:00:00" |} ]} in
  let result := train.train_one_monitor cfg name 0%Z train_epoch now data fs in
  result.1 = Py.Ok tt /\
  train.executed result.2 = [10; 11; 12; 13; 14; 15; 16; 17; 18; 19]%Z /\
  head (train.executed result.2) = Some 10%Z /\
  train.load_checkpoint (train.ckpt_path cfg name) (train.files result.2)
  = Py.Ok (19%Z, 20%Z) /\
  train.isfile
    (train.get_epoch_checkpoint_path "checkpoints" name 20)
    (train.files result.2) = true /\
  train.get_epoch_checkpoint_path "checkpoints" name 20
  = "checkpoints/iMac_M1_24_epoch_0020.pth".
Proof. vm_compute. repeat split. Qed.

(** ** More on the phase state store *)

Section StateStoreInvariants.
Import Py pipeline_state.

Lemma NoDup_snoc_pyval (l : list pyval) (x : pyval) :
  NoDup l -> x ∉ l -> NoDup (l ++ [x]).
Proof.
  intros Hl Hx. apply NoDup_app. split; [done|].
  split; [|apply NoDup_singleton].
  intros y Hy ->%list_elem_of_singleton. by apply Hx.
Qed.

(** X1 (what [mark_completed] leaves alone).  On a state with a list
    under [completed_phases] and a dict under [phase_data],
    [mark_completed(state, p, data)] only ever appends to the list (the
    old list is a prefix of the new one) and never lists a phase
    twice; the data of every other phase and every other key of the
    state stay as they were; and marking the same phase again, with
    the same data or with none, changes nothing: neither the state nor
    the document in the file. *)
Theorem mark_completed_frame (d : gmap string pyval) (names : list pyval)
    (pd : gmap string pyval) (phase : string) (data : pyval) (f : file) :
  d !! "completed_phases" = Some (PList names) ->
  d !! "phase_data" = Some (PDict pd) ->
  exists d' names' pd',
    mark_completed (PDict d) phase data f
      = Ok (PDict d', Some (JsonText (PDict d'))) /\
    d' !! "completed_phases" = Some (PList names') /\
    d' !! "phase_data" = Some (PDict pd') /\
    names `prefix_of` names' /\
    (NoDup names -> NoDup names') /\
    (forall q, q <> phase -> pd' !! q = pd !! q) /\
    (forall k, k <> "completed_phases" -> k <> "phase_data" ->
               d' !! k = d !! k) /\
    (forall again f', again = data \/ again = PNone ->
       mark_completed (PDict d') phase again f'
         = Ok (PDict d', Some (JsonText (PDict d')))).
Proof.
  intros Hc Hp.
  pose proof (mark_completed_well_formed d names pd phase data f Hc Hp)
    as Hmark. cbv zeta in Hmark.
  set (names' := if existsb (eq_str phase) names then names
                 else names ++ [PStr phase]) in *.
  set (pd' := match data with PNone => pd | _ => <[phase := data]> pd end)
    in *.
  set (d' := <["phase_data" := PDict pd']>
               (<["completed_phases" := PList names']> d)) in *.
  assert (Hc' : d' !! "completed_phases" = Some (PList names')).
  { subst d'. rewrite lookup_insert_ne by done. apply lookup_insert_eq. }
  assert (Hp' : d' !! "phase_data" = Some (PDict pd')).
  { subst d'. apply lookup_insert_eq. }
  assert (Hin : existsb (eq_str phase) names' = true).
  { subst names'. destruct (existsb (eq_str phase) names) eqn:Hin; [done|].
    rewrite existsb_app. simpl. rewrite String.eqb_refl.
    by rewrite orb_true_r. }
  exists d', names', pd'.
  split; [exact Hmark|]. split; [exact Hc'|]. split; [exact Hp'|].
  split; [|split; [|split; [|split]]].
  - subst names'. destruct (existsb (eq_str phase) names); [done|].
    by apply prefix_app_r.
  - intros Hnd. subst names'.
    destruct (existsb (eq_str phase) names) eqn:Hn; [done|].
    apply NoDup_snoc_pyval; [done|].
    intros Hel%existsb_eq_str. congruence.
  - intros q Hq. subst pd'.
    destruct data; try done; by rewrite lookup_insert_ne.
  - intros k Hk1 Hk2. subst d'. by rewrite !lookup_insert_ne.
  - intros again f' Hagain.
    rewrite (mark_completed_well_formed d' names' pd' phase again f' Hc' Hp').
    rewrite Hin.
    assert (Hpd : match again with
                  | PNone => pd'
                  | _ => <[phase := again]> pd'
                  end = pd').
    { destruct Hagain as [-> | ->]; [|done].
      subst pd'. destruct data; try done; by rewrite insert_insert_eq. }
    rewrite Hpd.
    rewrite (insert_id d' "completed_phases") by done.
    by rewrite (insert_id d' "phase_data").
Qed.

Lemma mark_completed_frame_witness :
  let d : gmap string pyval :=
    <["completed_phases" := PList []]> (<["phase_data" := PDict ∅]> ∅) in
  let data := PDict {[ "count" := PInt 3 ]} in
  d !! "completed_phases" = Some (PList []) /\
  d !! "phase_data" = Some (PDict ∅) /\
  exists d' names' pd',
    mark_completed (PDict d) "phase2_prompts" data None
      = Ok (PDict d', Some (JsonText (PDict d'))) /\
    d' !! "completed_phases" = Some (PList names') /\
    d' !! "phase_data" = Some (PDict pd') /\
    [] `prefix_of` names' /\
    (NoDup (@nil pyval) -> NoDup names') /\
    (forall q, q <> "phase2_prompts" -> pd' !! q = (∅ : gmap string pyval) !! q) /\
    (forall k, k <> "completed_phases" -> k <> "phase_data" ->
               d' !! k = d !! k) /\
    (forall again f', again = data \/ again = PNone ->
       mark_completed (PDict d') "phase2_prompts" again f'
         = Ok (PDict d', Some (JsonText (PDict d')))).
Proof.
  intros d data.
  split; [reflexivity|]. split; [reflexivity|].
  apply (mark_completed_frame d [] ∅ "phase2_prompts" data None);
    reflexivity.
Defined.

(** X2 (what [load_state] lets through).  A state file that holds a
    JSON document is never replaced by the empty state: [load_state()]
    returns the document as it is or raises.  It raises AttributeError
    when the document is not a dict, and TypeError when
    [completed_phases] is a number other than zero, [true], or a
    list with an element that is not a string; every other dict is
    returned, also one whose [completed_phases] is [null], on which
    [is_completed] then raises. *)
Theorem load_state_checks_no_shape (v : pyval) :
  let loaded := load_state (Some (JsonText v)) in
  (loaded = Ok v \/ loaded = Raise AttributeError \/ loaded = Raise TypeError) /\
  ((forall d, v <> PDict d) -> loaded = Raise AttributeError) /\
  (forall d, v = PDict d ->
     match d !! "completed_phases" with
     | Some (PList l) =>
         loaded = if forallb is_str l then Ok v else Raise TypeError
     | Some (PInt z) =>
         loaded = if (z =? 0)%Z then Ok v else Raise TypeError
     | Some (PBool b) =>
         loaded = if b then Raise TypeError else Ok v
     | Some PNone =>
         loaded = Ok v /\
         forall phase, is_completed v phase = Raise TypeError
     | Some (PStr _) | Some (PDict _) | None => loaded = Ok v
     end).
Proof.
  intros loaded. subst loaded. split; [|split].
  - destruct v; simpl; auto.
    destruct (d !! "completed_phases") as [[]|]; simpl; auto.
    + destruct b; simpl; auto.
    + destruct (z =? 0)%Z; simpl; auto.
    + destruct (negb (String.eqb s "")); simpl; auto.
    + destruct l; simpl; auto.
      destruct (is_str p && forallb is_str l); simpl; auto.
    + destruct (negb (bool_decide (d0 = ∅))); simpl; auto.
  - intros Hv. destruct v; try done. by destruct (Hv d).
  - intros d ->. simpl.
    destruct (d !! "completed_phases") as [[]|] eqn:Hc; simpl; auto.
    + split; [done|]. intros phase. unfold is_completed. simpl.
      by rewrite Hc.
    + by destruct b.
    + by destruct (z =? 0)%Z.
    + by destruct (negb (String.eqb s "")).
    + destruct l; simpl; [done|].
      by destruct (is_str p && forallb is_str l).
    + by destruct (negb (bool_decide (d0 = ∅))).
Qed.

End StateStoreInvariants.

(** ** More on the pipeline driver *)

Section DriverRuns.
Import Py pipeline_state main.
Context {Env : Type}.
Variable cfg : config.
Variable body : string -> Env -> res pyval * Env.

Abbreviation names_of state names :=
  (getitem state "completed_phases" = Ok (PList names)).

Lemma well_formed_names (state : pyval) :
  well_formed state -> exists names, names_of state names.
Proof.
  intros (d & names & pd & -> & Hc & _). exists names. simpl. by rewrite Hc.
Qed.

Lemma is_completed_names (state : pyval) (names : list pyval) (p : string) :
  well_formed state -> names_of state names ->
  is_completed state p = Ok (existsb (eq_str p) names).
Proof.
  intros (d & names0 & pd & -> & Hc & _). simpl. rewrite Hc. intros [= <-].
  by apply is_completed_well_formed.
Qed.

(** A phase that is not listed, and is switched off or has a body that
    returns. *)
Lemma run_phase_pending (phase : string) (enabled : bool) (state : pyval)
    (names : list pyval) (w : world Env) :
  well_formed state -> names_of state names ->
  existsb (eq_str phase) names = false ->
  (enabled = true -> exists v, (body phase (env w)).1 = Ok v) ->
  exists state' w',
    run_phase body phase enabled state w = (Ok state', w') /\
    well_formed state' /\
    names_of state' (names ++ [PStr phase]) /\
    state_file w' = Some (JsonText state') /\
    log w' = log w ++ (if enabled then [Call phase; Return phase] else []) /\
    (enabled = false ->
     env w' = env w /\
     (let* pd := getitem state' "phase_data" in getitem pd phase)
       = Ok skipped).
Proof.
  intros Hwf Hnames Hin Hbody.
  unfold run_phase. rewrite (is_completed_names state names) by done.
  rewrite Hin.
  destruct Hwf as (d & names0 & pd & -> & Hc & Hn & Hp).
  simpl in Hnames. rewrite Hc in Hnames. injection Hnames as ->.
  assert (Hshape : forall data f,
    exists d', mark_completed (PDict d) phase data f
                 = Ok (PDict d', Some (JsonText (PDict d'))) /\
               well_formed (PDict d') /\
               names_of (PDict d') (names ++ [PStr phase]) /\
               (data <> PNone ->
                (let* pd := getitem (PDict d') "phase_data" in
                 getitem pd phase) = Ok data)).
  { intros data f.
    pose proof (mark_completed_well_formed d names pd phase data f Hc Hp)
      as Hm. cbv zeta in Hm. rewrite Hin in Hm.
    eexists. split; [exact Hm|]. split; [|split].
    - eexists _, (names ++ [PStr phase]), _. split; [done|].
      split; [rewrite lookup_insert_ne by done; apply lookup_insert_eq|].
      split; [by apply forallb_is_str_app|apply lookup_insert_eq].
    - simpl. rewrite lookup_insert_ne by done. by rewrite lookup_insert_eq.
    - intros Hdata. simpl. rewrite lookup_insert_eq. simpl.
      destruct data; try done; by rewrite lookup_insert_eq. }
  destruct enabled; simpl.
  - destruct (Hbody eq_refl) as [v Hv].
    destruct (body phase (env w)) as [[summary|e] env'] eqn:Hb;
      simpl in Hv; [|done].
    set (w1 := with_log _ _).
    destruct (Hshape summary (state_file w1)) as (d' & Hm & Hwf' & Hn' & _).
    unfold mark. rewrite Hm. eexists _, _. split; [done|].
    split; [done|]. split; [done|]. split; [done|].
    split; [simpl; by rewrite <- app_assoc|done].
  - destruct (Hshape skipped (state_file w)) as (d' & Hm & Hwf' & Hn' & Hd).
    unfold mark. rewrite Hm. eexists _, _. split; [done|].
    split; [done|]. split; [done|]. split; [done|].
    split; [simpl; by rewrite app_nil_r|].
    intros _. split; [done|]. by apply Hd.
Qed.

(** A phase that is not listed and whose body raises. *)
Lemma run_phase_raising (phase : string) (state : pyval)
    (names : list pyval) (w : world Env) (e : exn) :
  well_formed state -> names_of state names ->
  existsb (eq_str phase) names = false ->
  (body phase (env w)).1 = Raise e ->
  exists w',
    run_phase body phase true state w = (Raise e, w') /\
    state_file w' = state_file w /\
    log w' = log w ++ [Call phase].
Proof.
  intros Hwf Hnames Hin Hbody.
  unfold run_phase. rewrite (is_completed_names state names) by done.
  rewrite Hin. simpl.
  destruct (body phase (env w)) as [[summary|e'] env'] eqn:Hb;
    simpl in Hbody; [done|]. injection Hbody as ->.
  by eexists.
Qed.

Lemma pending_snoc (names : list pyval) (p : string)
    (phases : list (string * bool)) :
  p ∉ phases.*1 ->
  pending (names ++ [PStr p]) phases = pending names phases.
Proof.
  unfold pending. induction phases as [|[q en] phases IH]; [done|].
  rewrite fmap_cons, not_elem_of_cons. simpl. intros [Hq Hrest].
  assert (Heq : existsb (eq_str q) (names ++ [PStr p])
                = existsb (eq_str q) names).
  { rewrite existsb_app. simpl.
    destruct (String.eqb_spec q p) as [->|_]; [done|].
    by rewrite !orb_false_r. }
  destruct (existsb (eq_str q) names) eqn:Hin.
  - rewrite !filter_cons_False by (simpl; congruence). by apply IH.
  - rewrite !filter_cons_True by (simpl; congruence).
    f_equal. by apply IH.
Qed.

(** Going through phases whose bodies return, from a well-formed
    state. *)
Lemma run_phases_returning (phases : list (string * bool)) (state : pyval)
    (names : list pyval) (w : world Env) :
  well_formed state -> names_of state names ->
  NoDup phases.*1 ->
  (forall q e, (q, true) ∈ phases -> exists v, (body q e).1 = Ok v) ->
  exists state' w',
    run_phases body phases state w = (Ok state', w') /\
    well_formed state' /\
    names_of state' (names ++ (PStr <$> (pending names phases).*1)) /\
    log w' = log w ++ full_log (pending names phases) /\
    (load_state (state_file w) = Ok state ->
     load_state (state_file w') = Ok state').
Proof.
  revert state names w.
  induction phases as [|[p en] phases IH]; intros state names w Hwf Hn Hnd Hb.
  - exists state, w. simpl. split; [done|]. split; [done|].
    split; [by rewrite app_nil_r|]. split; [by rewrite app_nil_r|done].
  - rewrite fmap_cons in Hnd. apply NoDup_cons in Hnd as [Hp Hnd].
    assert (Hb' : forall q e, (q, true) ∈ phases ->
                              exists v, (body q e).1 = Ok v).
    { intros q e Hq. apply Hb. by right. }
    simpl.
    destruct (existsb (eq_str p) names) eqn:Hin.
    + rewrite run_phase_skip
        by (rewrite (is_completed_names state names) by done; by rewrite Hin).
      simpl. unfold pending. rewrite filter_cons_False by (simpl; congruence).
      by apply IH.
    + destruct (run_phase_pending p en state names w Hwf Hn Hin)
        as (state1 & w1 & Hrun & Hwf1 & Hn1 & Hfile1 & Hlog1 & _).
      { intros ->. apply Hb. by left. }
      rewrite Hrun. simpl.
      destruct (IH state1 _ w1 Hwf1 Hn1 Hnd Hb')
        as (state' & w' & Hrun' & Hwf' & Hn' & Hlog' & Hfile').
      exists state', w'. split; [done|]. split; [done|].
      rewrite pending_snoc in Hn', Hlog' by done.
      unfold pending at 1 2.
      rewrite filter_cons_True by (simpl; congruence).
      fold (pending names phases).
      split; [|split].
      * rewrite fmap_cons. simpl. rewrite <- app_assoc in Hn'. exact Hn'.
      * rewrite Hlog', Hlog1. simpl. rewrite <- app_assoc. by destruct en.
      * intros _. apply Hfile'. rewrite Hfile1.
        by apply load_state_well_formed.
Qed.

(** The state file is in step with the state returned, unless nothing
    was done. *)
Lemma run_phases_file_in_step (phases : list (string * bool)) (st st' : pyval)
    (ww ww' : world Env) :
  well_formed st -> state_file ww = Some (JsonText st) ->
  run_phases body phases st ww = (Ok st', ww') ->
  state_file ww' = Some (JsonText st').
Proof.
  revert st ww.
  induction phases as [|[p en] phases IH]; intros st ww Hwf Hf.
  - simpl. by intros [= <- <-].
  - simpl.
    destruct (run_phase_cases body p en st ww Hwf)
      as [[_ ->] | [_ (w1 & [(s1 & -> & Hwf1 & Hf1 & _) | (e & -> & _)])]];
      simpl.
    + by apply IH.
    + by apply IH.
    + done.
Qed.

Lemma run_phases_file_cases (phases : list (string * bool)) (st st' : pyval)
    (ww ww' : world Env) :
  well_formed st ->
  run_phases body phases st ww = (Ok st', ww') ->
  state_file ww' = Some (JsonText st') \/ (st' = st /\ ww' = ww).
Proof.
  revert st ww.
  induction phases as [|[p en] phases IH]; intros st ww Hwf.
  - simpl. intros [= <- <-]. by right.
  - simpl.
    destruct (run_phase_cases body p en st ww Hwf)
      as [[_ ->] | [_ (w1 & [(s1 & -> & Hwf1 & Hf1 & _) | (e & -> & _)])]];
      simpl.
    + by apply IH.
    + intros Hrun. left. by apply (run_phases_file_in_step phases s1 st' w1).
    + done.
Qed.

Lemma pending_nil (phases : list (string * bool)) : pending [] phases = phases.
Proof.
  unfold pending. induction phases as [|x l IH]; [done|].
  rewrite filter_cons_True by done. by rewrite IH.
Qed.

Lemma existsb_eq_str_fmap (p : string) (l : list string) :
  existsb (eq_str p) (PStr <$> l) = true <-> p ∈ l.
Proof.
  rewrite existsb_eq_str, list_elem_of_fmap. split.
  - by intros (q & [= ->] & Hq).
  - intros Hp. by exists p.
Qed.

(** X3 (a run whose bodies all return).  From a well-formed state, when
    the body of every enabled phase returns, [main()] returns; the
    bodies entered are those of the enabled phases not yet listed, in
    the order of [PHASES], each entered once and returned from before
    the next is entered; the phases not yet listed are appended to
    [completed_phases] in that order, the disabled ones among them
    without a call; in the end every phase is listed and the state
    file holds the state returned. *)
Theorem main_completes_pending_phases (w : world Env) (state0 : pyval)
    (names0 : list pyval) :
  load_state (state_file w) = Ok state0 ->
  well_formed state0 -> names_of state0 names0 ->
  (forall q e, (q, true) ∈ plan cfg -> exists v, (body q e).1 = Ok v) ->
  exists state_end w',
    main cfg body w = (Ok state_end, w') /\
    log w' = log w ++ full_log (pending names0 (plan cfg)) /\
    names_of state_end (names0 ++ (PStr <$> (pending names0 (plan cfg)).*1)) /\
    (forall p, p ∈ PHASES -> is_completed state_end p = Ok true) /\
    load_state (state_file w') = Ok state_end /\
    (names0 = [] ->
     names_of state_end (PStr <$> PHASES) /\
     state_file w' = Some (JsonText state_end)).
Proof.
  intros Hload Hwf Hn Hb.
  rewrite main_unfold, Hload.
  destruct (run_phases_returning (plan cfg) state0 names0 w Hwf Hn)
    as (state_end & w' & Hrun & Hwf' & Hn' & Hlog & Hfile).
  { apply plan_NoDup. }
  { exact Hb. }
  exists state_end, w'. split; [done|]. split; [done|]. split; [done|].
  split; [|split; [by apply Hfile|]].
  - intros p Hp. rewrite (is_completed_names state_end _ p Hwf' Hn').
    f_equal. rewrite existsb_app.
    destruct (existsb (eq_str p) names0) eqn:Hin; [done|]. simpl.
    apply existsb_eq_str_fmap, list_elem_of_fmap.
    rewrite <- (plan_phases cfg) in Hp.
    apply list_elem_of_fmap in Hp as ([q en] & -> & Hq).
    exists (q, en). split; [done|].
    apply list_elem_of_filter. by split.
  - intros ->. rewrite pending_nil, (plan_phases cfg) in Hn'.
    split; [exact Hn'|].
    destruct (run_phases_file_cases _ _ _ _ _ Hwf Hrun) as [Hstep | [-> ->]];
      [done|].
    rewrite Hn in Hn'. by injection Hn'.
Qed.

(** X4 (a failure halts the run).  From a well-formed state, when the
    bodies of the phases before an enabled, not yet listed phase [p]
    return and the body of [p] raises, [main()] raises that exception;
    the log ends with the call of [p], no later phase is entered, and
    the state file lists the phases before [p] and not [p]: what was
    completed before the failure is kept. *)
Theorem main_halts_at_failure (w : world Env) (state0 : pyval)
    (names0 : list pyval) (pre post : list (string * bool)) (p : string)
    (e : exn) :
  load_state (state_file w) = Ok state0 ->
  well_formed state0 -> names_of state0 names0 ->
  plan cfg = pre ++ (p, true) :: post ->
  existsb (eq_str p) names0 = false ->
  (forall q en, (q, true) ∈ pre -> exists v, (body q en).1 = Ok v) ->
  (forall en, (body p en).1 = Raise e) ->
  exists state' w',
    main cfg body w = (Raise e, w') /\
    log w' = log w ++ full_log (pending names0 pre) ++ [Call p] /\
    (forall q, q ∈ post.*1 -> q ∉ entered (full_log (pending names0 pre) ++ [Call p])) /\
    load_state (state_file w') = Ok state' /\
    names_of state' (names0 ++ (PStr <$> (pending names0 pre).*1)) /\
    is_completed state' p = Ok false.
Proof.
  intros Hload Hwf Hn Hplan Hin Hpre Hp.
  pose proof (plan_NoDup cfg) as Hnd. rewrite Hplan in Hnd.
  rewrite fmap_app, fmap_cons in Hnd. simpl in Hnd.
  apply NoDup_app in Hnd as (Hnd_pre & Hsep & Hnd_post).
  apply NoDup_cons in Hnd_post as [Hp_post Hnd_post].
  rewrite main_unfold, Hload, Hplan, run_phases_app.
  destruct (run_phases_returning pre state0 names0 w Hwf Hn Hnd_pre Hpre)
    as (state' & w1 & Hrun & Hwf' & Hn' & Hlog & Hfile).
  rewrite Hrun. simpl.
  assert (Hin' : existsb (eq_str p)
                   (names0 ++ (PStr <$> (pending names0 pre).*1)) = false).
  { rewrite existsb_app, Hin. simpl.
    apply not_true_is_false. intros Hel%existsb_eq_str_fmap.
    apply list_elem_of_fmap in Hel as ([q en] & -> & Hq).
    apply list_elem_of_filter in Hq as [_ Hq].
    apply (Hsep q).
    - apply list_elem_of_fmap. by exists (q, en).
    - by left. }
  destruct (run_phase_raising p state' _ w1 e Hwf' Hn' Hin' (Hp _))
    as (w' & Hrun' & Hfile' & Hlog').
  rewrite Hrun'. simpl.
  exists state', w'. split; [done|].
  split; [by rewrite Hlog', Hlog, <- app_assoc|].
  split; [|split; [|split]].
  - intros q Hq Hel.
    assert (Hent : forall l, entered (full_log l)
                             = (filter (fun ph : string * bool => ph.2 = true) l).*1).
    { clear. induction l as [|[q [|]] l IH].
      - done.
      - rewrite filter_cons_True by done. rewrite fmap_cons. simpl.
        by f_equal.
      - rewrite filter_cons_False by done. exact IH. }
    unfold entered in Hel. rewrite omap_app in Hel.
    fold (entered (full_log (pending names0 pre))) in Hel.
    rewrite Hent in Hel. simpl in Hel.
    apply elem_of_app in Hel as [Hel | Hel].
    + apply list_elem_of_fmap in Hel as ([q' en] & -> & Hq').
      apply list_elem_of_filter in Hq' as [_ Hq'].
      apply list_elem_of_filter in Hq' as [_ Hq'].
      apply (Hsep q').
      * apply list_elem_of_fmap. by exists (q', en).
      * by right.
    + apply list_elem_of_singleton in Hel as ->. by apply Hp_post.
  - rewrite Hfile'. by apply Hfile.
  - done.
  - rewrite (is_completed_names state' _ p Hwf' Hn'). by rewrite Hin'.
Qed.





Abbreviation enabled_of phases :=
  (filter (fun ph : string * bool => ph.2 = true) phases).*1.



(** X6 (a disabled phase stays skipped).  With the crawler switched
    off, [main()] does not enter the body of phase 0; it lists the
    phase as completed, with [{"skipped": true}] as its data when it
    was not listed before; and a later run does not enter that body
    either, whatever its switches are: a phase skipped once is not run
    by turning its switch on. *)
Theorem disabled_phase_stays_skipped (cfg2 : config)
    (body2 : string -> Env -> res pyval * Env) (w0 : world Env) :
  (forall state, state_file w0 = Some (JsonText state) -> well_formed state) ->
  state_file w0 <> Some NotUtf8 ->
  RUN_CRAWLER cfg = false ->
  let run1 := main cfg body (restart w0) in
  let run2 := main cfg2 body2 (restart run1.2) in
  (Call "phase0_crawl" ∉ log run1.2) /\
  (Call "phase0_crawl" ∉ log run2.2) /\
  (exists state1,
     load_state (state_file run1.2) = Ok state1 /\
     is_completed state1 "phase0_crawl" = Ok true) /\
  (forall state w,
     well_formed state -> is_completed state "phase0_crawl" = Ok false ->
     exists state' w',
       phase0_crawl cfg body state w = (Ok state', w') /\
       log w' = log w /\ env w' = env w /\
       state_file w' = Some (JsonText state') /\
       (let* pd := getitem state' "phase_data" in getitem pd "phase0_crawl")
         = Ok skipped).
Proof.
  intros Hfile Hutf Hoff run1 run2.
  assert (Hstep : forall state w,
    well_formed state -> is_completed state "phase0_crawl" = Ok false ->
    exists state' w',
      phase0_crawl cfg body state w = (Ok state', w') /\
      log w' = log w /\ env w' = env w /\
      state_file w' = Some (JsonText state') /\
      (let* pd := getitem state' "phase_data" in getitem pd "phase0_crawl")
        = Ok skipped /\
      well_formed state' /\ is_completed state' "phase0_crawl" = Ok true).
  { intros state w Hwf Hnot.
    destruct (well_formed_names state Hwf) as [names Hn].
    rewrite (is_completed_names state names) in Hnot by done.
    injection Hnot as Hnot.
    unfold phase0_crawl. rewrite Hoff.
    destruct (run_phase_pending "phase0_crawl" false state names w Hwf Hn Hnot)
      as (state' & w' & Hrun & Hwf' & Hn' & Hf' & Hlog' & Hskip); [done|].
    destruct (Hskip eq_refl) as [Henv Hdata].
    exists state', w'. split; [done|].
    split; [by rewrite Hlog', app_nil_r|].
    split; [done|]. split; [done|]. split; [done|]. split; [done|].
    rewrite (is_completed_names state' _ _ Hwf' Hn'). f_equal.
    rewrite existsb_app. simpl. by rewrite orb_true_r. }
  destruct (load_state_total (state_file w0) Hfile Hutf)
    as (state0 & Hload & Hwf0).
  assert (Hrest : NoDup (tail (plan cfg)).*1 /\ "phase0_crawl" ∉ (tail (plan cfg)).*1).
  { pose proof (plan_NoDup cfg) as Hnd. unfold plan in *. simpl in *.
    apply NoDup_cons in Hnd as [? ?]. done. }
  destruct Hrest as [Hnd Hp0].
  assert (Hrun1 : exists state1,
    (Call "phase0_crawl" ∉ log run1.2) /\
    load_state (state_file run1.2) = Ok state1 /\
    well_formed state1 /\
    is_completed state1 "phase0_crawl" = Ok true).
  { subst run1. rewrite main_unfold.
    change (state_file (restart w0)) with (state_file w0). rewrite Hload.
    change (plan cfg) with (("phase0_crawl", RUN_CRAWLER cfg) :: tail (plan cfg)).
    cbn [run_phases].
    change (run_phase body "phase0_crawl" (RUN_CRAWLER cfg))
      with (phase0_crawl cfg body).
    destruct (is_completed_decided state0 "phase0_crawl" Hwf0) as [Hl | Hnl].
    - unfold phase0_crawl. rewrite run_phase_skip by done. cbn [andthen].
      destruct (run_phases_trace body (tail (plan cfg)) state0 (restart w0)
                  Hnd Hwf0 Hload)
        as (state_end & delta & Hlog & _ & Hload' & Hwf' & Hmono & _ & Hcall & _).
      exists state_end. split; [|split; [done|split; [done|]]].
      + rewrite Hlog. simpl. intros Hel.
        by destruct (Hcall _ Hel) as [? _].
      + by apply Hmono.
    - destruct (Hstep state0 (restart w0) Hwf0 Hnl)
        as (s1 & w1 & Hrun & Hlog1 & _ & Hf1 & _ & Hwf1 & Hl1).
      rewrite Hrun. cbn [andthen].
      assert (Hload1 : load_state (state_file w1) = Ok s1).
      { rewrite Hf1. by apply load_state_well_formed. }
      destruct (run_phases_trace body (tail (plan cfg)) s1 w1 Hnd Hwf1 Hload1)
        as (state_end & delta & Hlog & _ & Hload' & Hwf' & Hmono & _ & Hcall & _).
      exists state_end. split; [|split; [done|split; [done|]]].
      + rewrite Hlog, Hlog1. simpl. intros Hel.
        by destruct (Hcall _ Hel) as [? _].
      + by apply Hmono. }
  destruct Hrun1 as (state1 & Hno1 & Hload1 & Hwf1 & Hl1).
  split; [done|]. split; [|split].
  - subst run2.
    destruct (main_trace cfg2 body2 run1.2) as [[Hraise _] | Hok].
    { intros state Hst. rewrite Hst in Hload1.
      by rewrite (load_state_document _ _ Hload1). }
    + rewrite Hraise. simpl. apply not_elem_of_nil.
    + destruct Hok as (s0 & s_end & Hl0 & _ & _ & _ & _ & _ & _ & Hcall & _).
      intros Hel. specialize (Hcall _ Hel).
      rewrite Hload1 in Hl0. injection Hl0 as <-. congruence.
  - by exists state1.
  - intros state w Hwf Hnot.
    destruct (Hstep state w Hwf Hnot)
      as (s' & w' & ? & ? & ? & ? & ? & _).
    by exists s', w'.
Qed.

(** X7 (a state document without the list).  [load_state()] accepts a
    JSON object that has no [completed_phases], and [is_completed]
    answers false on it for every phase; but [mark_completed] raises
    KeyError on it before it writes anything.  So [main()] on such a
    file runs the body of phase 0 to its end when the crawler is
    switched on, then raises KeyError and leaves the file as it was:
    every later run does the same again. *)
Theorem main_raises_on_missing_list (d : gmap string pyval) (w : world Env) :
  state_file w = Some (JsonText (PDict d)) ->
  d !! "completed_phases" = None ->
  (RUN_CRAWLER cfg = true ->
   exists v, (body "phase0_crawl" (env w)).1 = Ok v) ->
  load_state (state_file w) = Ok (PDict d) /\
  (forall p, is_completed (PDict d) p = Ok false) /\
  (forall p data f, mark_completed (PDict d) p data f = Raise KeyError) /\
  exists w',
    main cfg body w = (Raise KeyError, w') /\
    state_file w' = state_file w /\
    log w' = log w ++ (if RUN_CRAWLER cfg
                       then [Call "phase0_crawl"; Return "phase0_crawl"]
                       else []).
Proof.
  intros Hfile Hnone Hbody.
  assert (Hload : load_state (state_file w) = Ok (PDict d)).
  { rewrite Hfile. simpl. by rewrite Hnone. }
  assert (Hnot : forall p, is_completed (PDict d) p = Ok false).
  { intros p. unfold is_completed. simpl. by rewrite Hnone. }
  assert (Hmark : forall p data f,
            mark_completed (PDict d) p data f = Raise KeyError).
  { intros p data f. unfold mark_completed. simpl. by rewrite Hnone. }
  split; [done|]. split; [done|]. split; [done|].
  unfold main. rewrite Hload.
  unfold phase0_crawl at 1. unfold run_phase at 1. rewrite Hnot.
  destruct (RUN_CRAWLER cfg); simpl.
  - destruct (Hbody eq_refl) as [v Hv].
    destruct (body "phase0_crawl" (env w)) as [[summary|e] env'];
      simpl in Hv; [|done].
    unfold mark. rewrite Hmark. simpl. eexists. split; [done|].
    split; [done|]. simpl. by rewrite <- app_assoc.
  - unfold mark. rewrite Hmark. simpl. eexists. split; [done|].
    split; [done|]. by rewrite app_nil_r.
Qed.

End DriverRuns.

Section DriverRunsScenarios.
Import Py pipeline_state main.

Lemma main_completes_pending_phases_witness :
  let cfg := {| RUN_CRAWLER := true; RUN_SYNTH_GEN := false |} in
  let body := fun (phase : string) (e : unit) =>
                (Ok (PDict {[ "count" := PInt 0 ]}), e) in
  let w := {| state_file := None; env := tt; log := [] |} in
  load_state (state_file w) = Ok empty_state /\
  well_formed empty_state /\
  getitem empty_state "completed_phases" = Ok (PList []) /\
  (forall q e, (q, true) ∈ plan cfg -> exists v, (body q e).1 = Ok v) /\
  exists state_end w',
    main cfg body w = (Ok state_end, w') /\
    log w' = log w ++ full_log (pending [] (plan cfg)) /\
    getitem state_end "completed_phases"
      = Ok (PList ([] ++ (PStr <$> (pending [] (plan cfg)).*1))) /\
    (forall p, p ∈ PHASES -> is_completed state_end p = Ok true) /\
    load_state (state_file w') = Ok state_end /\
    (@nil pyval = [] ->
     getitem state_end "completed_phases" = Ok (PList (PStr <$> PHASES)) /\
     state_file w' = Some (JsonText state_end)).
Proof.
  intros cfg body w.
  assert (Hbody : forall q e, (q, true) ∈ plan cfg ->
                              exists v, (body q e).1 = Ok v).
  { intros q e _. by eexists. }
  split; [reflexivity|]. split; [apply empty_state_well_formed|].
  split; [reflexivity|]. split; [exact Hbody|].
  exact (main_completes_pending_phases cfg body w empty_state []
           eq_refl empty_state_well_formed eq_refl Hbody).
Defined.

(** The run of the repository's six phases from no state file, with
    the synthetic pages switched off. *)
Example main_fresh_run :
  let cfg := {| RUN_CRAWLER := true; RUN_SYNTH_GEN := false |} in
  let body := fun (phase : string) (e : unit) =>
                (Ok (PDict {[ "count" := PInt 0 ]}), e) in
  let w := {| state_file := None; env := tt; log := [] |} in
  log (main cfg body w).2
  = [Call "phase0_crawl"; Return "phase0_crawl";
     Call "phase2_prompts"; Return "phase2_prompts";
     Call "phase3_history"; Return "phase3_history";
     Call "phase4_render"; Return "phase4_render";
     Call "phase5_metadata"; Return "phase5_metadata"].
Proof. by vm_compute. Qed.

Lemma main_halts_at_failure_witness :
  let cfg := {| RUN_CRAWLER := true; RUN_SYNTH_GEN := true |} in
  let body := fun (phase : string) (e : unit) =>
                if String.eqb phase "phase2_prompts"
                then (Raise RuntimeError, e)
                else (Ok (PDict {[ "count" := PInt 0 ]}), e) in
  let w := {| state_file := None; env := tt; log := [] |} in
  let pre := [("phase0_crawl", true); ("phase1_synth", true)] in
  let post := [("phase3_history", true); ("phase4_render", true);
               ("phase5_metadata", true)] in
  let p := "phase2_prompts" in
  load_state (state_file w) = Ok empty_state /\
  well_formed empty_state /\
  getitem empty_state "completed_phases" = Ok (PList []) /\
  plan cfg = pre ++ (p, true) :: post /\
  existsb (eq_str p) [] = false /\
  (forall q en, (q, true) ∈ pre -> exists v, (body q en).1 = Ok v) /\
  (forall en, (body p en).1 = Raise RuntimeError) /\
  exists state' w',
    main cfg body w = (Raise RuntimeError, w') /\
    log w' = log w ++ full_log (pending [] pre) ++ [Call p] /\
    (forall q, q ∈ post.*1 ->
               q ∉ entered (full_log (pending [] pre) ++ [Call p])) /\
    load_state (state_file w') = Ok state' /\
    getitem state' "completed_phases"
      = Ok (PList ([] ++ (PStr <$> (pending [] pre).*1))) /\
    is_completed state' p = Ok false.
Proof.
  intros cfg body w pre post p.
  assert (Hpre : forall q en, (q, true) ∈ pre ->
                              exists v, (body q en).1 = Ok v).
  { intros q en Hq. subst pre.
    apply elem_of_cons in Hq as [[= ->] | Hq]; [by eexists|].
    apply elem_of_cons in Hq as [[= ->] | Hq]; [by eexists|].
    by apply elem_of_nil in Hq. }
  assert (Hp : forall en, (body p en).1 = Raise RuntimeError) by done.
  split; [reflexivity|]. split; [apply empty_state_well_formed|].
  split; [reflexivity|]. split; [reflexivity|]. split; [reflexivity|].
  split; [exact Hpre|]. split; [exact Hp|].
  exact (main_halts_at_failure cfg body w empty_state [] pre post p
           RuntimeError eq_refl empty_state_well_formed eq_refl eq_refl
           eq_refl Hpre Hp).
Defined.

Lemma disabled_phase_stays_skipped_witness :
  let cfg := {| RUN_CRAWLER := false; RUN_SYNTH_GEN := true |} in
  let cfg2 := {| RUN_CRAWLER := true; RUN_SYNTH_GEN := true |} in
  let body := fun (phase : string) (e : unit) =>
                (Ok (PDict {[ "count" := PInt 0 ]}), e) in
  let w0 := {| state_file := None; env := tt; log := [] |} in
  (forall state, state_file w0 = Some (JsonText state) -> well_formed state) /\
  state_file w0 <> Some NotUtf8 /\
  RUN_CRAWLER cfg = false /\
  let run1 := main cfg body (restart w0) in
  let run2 := main cfg2 body (restart run1.2) in
  (Call "phase0_crawl" ∉ log run1.2) /\
  (Call "phase0_crawl" ∉ log run2.2) /\
  (exists state1,
     load_state (state_file run1.2) = Ok state1 /\
     is_completed state1 "phase0_crawl" = Ok true) /\
  (forall state w,
     well_formed state -> is_completed state "phase0_crawl" = Ok false ->
     exists state' w',
       phase0_crawl cfg body state w = (Ok state', w') /\
       log w' = log w /\ env w' = env w /\
       state_file w' = Some (JsonText state') /\
       (let* pd := getitem state' "phase_data" in getitem pd "phase0_crawl")
         = Ok skipped).
Proof.
  intros cfg cfg2 body w0.
  assert (Hfile : forall state, state_file w0 = Some (JsonText state) ->
                                well_formed state) by done.
  assert (Hutf : state_file w0 <> Some NotUtf8) by done.
  split; [exact Hfile|]. split; [exact Hutf|]. split; [reflexivity|].
  exact (disabled_phase_stays_skipped cfg body cfg2 body w0 Hfile Hutf
           eq_refl).
Defined.

Lemma main_raises_on_missing_list_witness :
  let cfg := {| RUN_CRAWLER := true; RUN_SYNTH_GEN := true |} in
  let body := fun (phase : string) (e : unit) =>
                (Ok (PDict {[ "count" := PInt 0 ]}), e) in
  let d : gmap string pyval := ∅ in
  let w := {| state_file := Some (JsonText (PDict d)); env := tt;
              log := [] |} in
  state_file w = Some (JsonText (PDict d)) /\
  d !! "completed_phases" = None /\
  (RUN_CRAWLER cfg = true ->
   exists v, (body "phase0_crawl" (env w)).1 = Ok v) /\
  load_state (state_file w) = Ok (PDict d) /\
  (forall p, is_completed (PDict d) p = Ok false) /\
  (forall p data f, mark_completed (PDict d) p data f = Raise KeyError) /\
  exists w',
    main cfg body w = (Raise KeyError, w') /\
    state_file w' = state_file w /\
    log w' = log w ++ (if RUN_CRAWLER cfg
                       then [Call "phase0_crawl"; Return "phase0_crawl"]
                       else []).
Proof.
  intros cfg body d w.
  assert (Hbody : RUN_CRAWLER cfg = true ->
                  exists v, (body "phase0_crawl" (env w)).1 = Ok v).
  { intros _. by eexists. }
  split; [reflexivity|]. split; [reflexivity|]. split; [exact Hbody|].
  exact (main_raises_on_missing_list cfg body d w eq_refl eq_refl Hbody).
Defined.

End DriverRunsScenarios.

(** ** More on the process supervisor *)

Section SupervisorLog.
Import Py config crawler.

Variable _IS_WINDOWS : bool.
Variable cfg : crawler_config.
Variable outcome : Z -> attempt.

Abbreviation download_page := (crawler.download_page _IS_WINDOWS cfg outcome).
Abbreviation retried := (crawler.retried _IS_WINDOWS cfg).
Abbreviation hung_at := (fun a : Z => hung (outcome a) = true).

(** The first attempt of [m, m + n) that is not answered with the next
    turn, if there is one. *)
Lemma first_stop (m : Z) (n : nat) :
  (forall a, (m <= a < m + Z.of_nat n)%Z -> retried a (outcome a) = true)
  \/ exists k, (m <= k < m + Z.of_nat n)%Z /\
               retried k (outcome k) = false /\
               forall a, (m <= a < k)%Z -> retried a (outcome a) = true.
Proof.
  induction n as [|n IH].
  - left. intros a Ha. lia.
  - destruct IH as [Hall | (k & Hk & Hstop & Hbefore)].
    + destruct (retried (m + Z.of_nat n) (outcome (m + Z.of_nat n))) eqn:Hn.
      * left. intros a Ha.
        destruct (decide (a = (m + Z.of_nat n)%Z)) as [-> | Hne]; [done|].
        apply Hall. lia.
      * right. exists (m + Z.of_nat n)%Z. split; [lia|done].
    + right. exists k. split; [lia|done].
Qed.

(** Off Windows an attempt that is answered with the next turn left no
    process behind. *)
Lemma retried_not_hung (a : Z) (o : attempt) :
  _IS_WINDOWS = false -> retried a o = true -> hung o = false.
Proof.
  intros Hposix. unfold crawler.retried, _kill_proc_tree. rewrite Hposix.
  intros [[_ Hkill]%andb_true_iff _]%andb_true_iff.
  rewrite orb_false_r in Hkill. by apply negb_true_iff.
Qed.

Lemma none_hung (l : list Z) :
  (forall a, a ∈ l -> hung (outcome a) = false) ->
  length (filter hung_at l) = 0.
Proof.
  induction l as [|a l IH]; intros Hnone; [done|].
  rewrite filter_cons_False by (rewrite Hnone by left; done).
  apply IH. intros b Hb. apply Hnone. by right.
Qed.

(** An attempt that ends with the page saved ends the loop. *)
Lemma saved_not_retried (a : Z) (o : attempt) :
  saved o = true -> retried a o = false /\ hung o = false.
Proof.
  unfold crawler.retried.
  destruct o as [| | | |rc [|bytes|]|e]; simpl; try done.
  intros [Hrc Hb]%andb_true_iff. rewrite Hrc. simpl.
  apply Z.gtb_lt in Hb. split; [|done].
  destruct (Z.leb_spec bytes 100); [lia|done].
Qed.

(** Every run of [download_page]: it makes the attempts [1 .. k] for
    some [k], the earlier ones answered with the next one, and ends
    with the launch of attempt [k] and the kill of what that attempt
    left behind. *)
Lemma download_page_run :
  ((MAX_RETRIES cfg <= 0)%Z /\ download_page = (Ends (Ok false), []))
  \/ exists k r before extra,
       (1 <= k <= MAX_RETRIES cfg)%Z /\
       download_page = (r, before ++ Launch k :: extra) /\
       (forall a, (1 <= a < k)%Z -> retried a (outcome a) = true) /\
       attempted before = seqZ 1 (k - 1) /\
       launches before = Z.to_nat (k - 1) /\
       sleeps before = Z.to_nat (k - 1) /\
       kills before = length (filter hung_at (seqZ 1 (k - 1))) /\
       ((retried k (outcome k) = true /\ k = MAX_RETRIES cfg /\
         r = Ends (Ok false) /\
         extra = (if hung (outcome k) then [KillTree] else []))
        \/ (retried k (outcome k) = false /\
            (r = Ends (Ok true) <-> saved (outcome k) = true) /\
            (r = Killed <-> hung (outcome k) = true /\ _IS_WINDOWS = false) /\
            ((hung (outcome k) = false /\ extra = [])
             \/ (hung (outcome k) = true /\ _IS_WINDOWS = false /\
                 extra = [KillTree])
             \/ (hung (outcome k) = true /\ _IS_WINDOWS = true /\
                 (REQUEST_DELAY cfg < 0)%Z /\ (k < MAX_RETRIES cfg)%Z /\
                 r = Ends (Raise ValueError) /\
                 (extra = [KillTree] \/ extra = [KillTree; KillTree]))))).
Proof.
  destruct (Z.le_gt_cases (MAX_RETRIES cfg) 0) as [Hle | Hgt].
  { left. split; [done|]. unfold crawler.download_page.
    by rewrite seqZ_nil. }
  right.
  destruct (first_stop 1 (Z.to_nat (MAX_RETRIES cfg)))
    as [Hall | (k & Hk & Hstop & Hbefore)].
  - assert (Hlast : retried (MAX_RETRIES cfg) (outcome (MAX_RETRIES cfg)) = true)
      by (apply Hall; lia).
    destruct (download_page_reaches _IS_WINDOWS cfg outcome (MAX_RETRIES cfg))
      as (before & Hrun & Hatt & Hlaunch & Hsleep & Hkill);
      [lia|intros a Ha; apply Hall; lia|].
    rewrite seqZ_nil in Hrun by lia. cbn [attempts] in Hrun.
    rewrite (one_attempt_goes_on _ _ _ _ _ Hlast) in Hrun.
    unfold gained in Hrun. rewrite Z.ltb_irrefl, app_nil_r in Hrun.
    exists (MAX_RETRIES cfg), (Ends (Ok false)), before,
           (if hung (outcome (MAX_RETRIES cfg)) then [KillTree] else []).
    split; [lia|]. split; [done|].
    split; [intros a Ha; apply Hall; lia|].
    split; [done|]. split; [done|]. split; [done|]. split; [done|].
    by left.
  - destruct (download_page_reaches _IS_WINDOWS cfg outcome k)
      as (before & Hrun & Hatt & Hlaunch & Hsleep & Hkill); [lia|done|].
    cbn [attempts] in Hrun.
    destruct (one_attempt_leaves _IS_WINDOWS cfg k (outcome k) before Hstop)
      as (r & extra & Hone & Hsaved & Hkilled & Hextra).
    rewrite Hone in Hrun.
    exists k, r, before, extra. split; [lia|]. split; [done|].
    split; [done|]. split; [done|]. split; [done|]. split; [done|].
    split; [done|]. right. done.
Qed.

(** X8 (the log of a download, whatever happens).  On every platform,
    with every configuration and for every behaviour of the processes,
    [download_page] launches the attempts [1, 2, ...] in order and
    never more than [MAX_RETRIES] of them; it sleeps between two
    attempts only, so one time less than it launches, never after the
    last attempt, and never a negative delay.  The process is killed
    under it exactly when, off Windows, an attempt that it made timed
    out or had its wait fail: the kill of that attempt is the last
    thing it does and its only kill.  On Windows, with a delay that is
    not negative, it kills the process tree exactly of the attempts
    that timed out or whose wait failed, of no other. *)
Theorem download_page_log_shape :
  let r := download_page.1 in
  let log := download_page.2 in
  attempted log `prefix_of` seqZ 1 (MAX_RETRIES cfg) /\
  launches log = length (attempted log) /\
  (Z.of_nat (launches log) <= Z.max 0 (MAX_RETRIES cfg))%Z /\
  sleeps log = launches log - 1 /\
  (forall d, last log <> Some (Sleep d)) /\
  (sleeps log <> 0 -> (0 <= REQUEST_DELAY cfg)%Z) /\
  (r = Killed <->
   _IS_WINDOWS = false /\
   exists a, a ∈ attempted log /\ hung (outcome a) = true) /\
  (r = Killed -> last log = Some KillTree /\ kills log = 1) /\
  (_IS_WINDOWS = false -> r <> Killed -> kills log = 0) /\
  (_IS_WINDOWS = true -> (0 <= REQUEST_DELAY cfg)%Z ->
   r <> Killed /\ kills log = length (filter hung_at (attempted log))).
Proof.
  intros r log. subst r log.
  destruct download_page_run
    as [[Hmax ->] | (k & r & before & extra & Hk & -> & Hbefore & Hatt
                     & Hlaunch & Hsleep & Hkill & Hend)].
  { cbn [fst snd]. rewrite seqZ_nil by done.
    split; [done|]. split; [done|].
    split; [change (launches []) with 0; lia|]. split; [done|].
    split; [done|]. split; [done|]. split.
    { split; [done|]. by intros (_ & a & Ha%elem_of_nil & _). }
    split; [done|]. split; [done|]. by intros _ _. }
  cbn [fst snd].
  assert (Hshape : extra = [] \/ extra = [KillTree]
                   \/ extra = [KillTree; KillTree]).
  { destruct Hend as [(_ & _ & _ & ->) | (_ & _ & _ & Hextra)].
    - destruct (hung (outcome k)); [right; by left|by left].
    - destruct Hextra as [[_ ->] | [(_ & _ & ->) | (_ & _ & _ & _ & _ & Hx)]];
        [by left|right; by left|].
      destruct Hx as [-> | ->]; right; [by left|by right]. }
  assert (Hcount : attempted (before ++ Launch k :: extra) = seqZ 1 k /\
                   launches (before ++ Launch k :: extra) = Z.to_nat k /\
                   sleeps (before ++ Launch k :: extra) = Z.to_nat k - 1 /\
                   (forall d, last (before ++ Launch k :: extra)
                              <> Some (Sleep d)) /\
                   kills (before ++ Launch k :: extra)
                     = kills before + length extra).
  { assert (Htail : attempted (Launch k :: extra) = [k] /\
                     launches (Launch k :: extra) = 1 /\
                     sleeps (Launch k :: extra) = 0 /\
                     kills (Launch k :: extra) = length extra /\
                     forall d, last (Launch k :: extra) <> Some (Sleep d)).
    { destruct Hshape as [-> | [-> | ->]]; by vm_compute. }
    destruct Htail as (Ta & Tl & Ts & Tk & Tlast).
    rewrite (attempted_app before), (launches_app before),
      (sleeps_app before), (kills_app before), Hatt, Hlaunch, Hsleep.
    rewrite Ta, Tl, Ts, Tk, (seqZ_snoc k) by lia.
    split; [done|]. split; [lia|]. split; [lia|]. split; [|done].
    intros d. rewrite last_app.
    destruct Hshape as [-> | [-> | ->]]; by vm_compute. }
  destruct Hcount as (Ha & Hl & Hs & Hlast & Hkills).
  rewrite Ha, Hl, Hs, length_seqZ.
  assert (Hprefix : seqZ 1 k `prefix_of` seqZ 1 (MAX_RETRIES cfg)).
  { rewrite (seqZ_split k (MAX_RETRIES cfg)) by lia.
    rewrite (seqZ_snoc k) by lia.
    exists (seqZ (k + 1) (MAX_RETRIES cfg - k)). by rewrite <- app_assoc. }
  assert (Hdelay : Z.to_nat k - 1 <> 0 -> (0 <= REQUEST_DELAY cfg)%Z).
  { intros Hk2. specialize (Hbefore 1%Z ltac:(lia)).
    unfold crawler.retried in Hbefore.
    apply andb_true_iff in Hbefore as [_ Hd].
    apply orb_true_iff in Hd as [Hd%Z.leb_le | Hd%Z.leb_le]; lia. }
  assert (Hearlier : _IS_WINDOWS = false ->
            forall a, a ∈ seqZ 1 (k - 1) -> hung (outcome a) = false).
  { intros Hposix a Hin%elem_of_seqZ.
    apply (retried_not_hung a); [done|]. apply Hbefore. lia. }
  assert (Hkilled : r = Killed <->
                    hung (outcome k) = true /\ _IS_WINDOWS = false).
  { destruct Hend as [(Hgo & _ & -> & _) | (_ & _ & Hkilled & _)]; [|done].
    split; [done|]. intros [Hh Hposix].
    by rewrite (retried_not_hung _ _ Hposix Hgo) in Hh. }
  assert (Hextra_posix : _IS_WINDOWS = false ->
            extra = if hung (outcome k) then [KillTree] else []).
  { intros Hposix.
    destruct Hend as [(_ & _ & _ & ->) | (_ & _ & _ & Hextra)]; [done|].
    destruct Hextra as [[-> ->] | [(-> & _ & ->) | (_ & Hwin & _)]];
      [done|done|congruence]. }
  split; [done|]. split; [lia|]. split; [lia|]. split; [lia|].
  split; [done|]. split; [done|]. split; [|split; [|split]].
  - rewrite Hkilled. split.
    + intros [Hh Hposix]. split; [done|]. exists k. split; [|done].
      apply elem_of_seqZ. lia.
    + intros (Hposix & a & Hin & Hh). split; [|done].
      rewrite (seqZ_snoc k) in Hin by lia.
      apply elem_of_app in Hin as [Hin | ->%list_elem_of_singleton]; [|done].
      by rewrite (Hearlier Hposix a Hin) in Hh.
  - intros [Hh Hposix]%Hkilled.
    rewrite Hkills, Hkill, (Hextra_posix Hposix), Hh.
    rewrite none_hung by (by apply Hearlier).
    split; [|done]. by rewrite (last_app before [Launch k; KillTree]).
  - intros Hposix Hlive.
    rewrite Hkills, Hkill, (Hextra_posix Hposix).
    rewrite none_hung by (by apply Hearlier).
    destruct (hung (outcome k)) eqn:Hh; [|done].
    exfalso. apply Hlive. by apply Hkilled.
  - intros Hwin Hpos. split.
    { intros [_ Hposix]%Hkilled. congruence. }
    rewrite Hkills, Hkill, (seqZ_snoc k), filter_app, length_app by lia.
    f_equal.
    destruct Hend as [(_ & _ & _ & ->) | (_ & _ & _ & Hextra)].
    + destruct (hung (outcome k)) eqn:Hh.
      * by rewrite filter_cons_True.
      * rewrite filter_cons_False by congruence. done.
    + destruct Hextra as [[Hh ->] | [(_ & Hposix & _) | (_ & _ & Hneg & _)]];
        [|congruence|lia].
      rewrite filter_cons_False by congruence. done.
Qed.

(** X9 (when a download succeeds).  [download_page] returns [True]
    exactly when some attempt [k] of [1 .. MAX_RETRIES] ends with exit
    code 0 and an output file of more than 100 bytes, every attempt
    before it having been answered with the next one (a failure the
    loop passes over, without a process left behind off Windows, and
    with a delay that can be slept); it then made the attempts
    [1 .. k], the launch of attempt [k] is the last thing it did, and
    it slept [k - 1] times. *)
Theorem download_page_succeeds_iff :
  (download_page.1 = Ends (Ok true) <->
   exists k, (1 <= k <= MAX_RETRIES cfg)%Z /\
             saved (outcome k) = true /\
             forall a, (1 <= a < k)%Z -> retried a (outcome a) = true) /\
  (forall k, (1 <= k <= MAX_RETRIES cfg)%Z ->
             saved (outcome k) = true ->
             (forall a, (1 <= a < k)%Z -> retried a (outcome a) = true) ->
             exists before,
               download_page = (Ends (Ok true), before ++ [Launch k]) /\
               attempted (before ++ [Launch k]) = seqZ 1 k /\
               sleeps (before ++ [Launch k]) = Z.to_nat k - 1).
Proof.
  assert (Hthere : forall k, (1 <= k <= MAX_RETRIES cfg)%Z ->
             saved (outcome k) = true ->
             (forall a, (1 <= a < k)%Z -> retried a (outcome a) = true) ->
             exists before,
               download_page = (Ends (Ok true), before ++ [Launch k]) /\
               attempted (before ++ [Launch k]) = seqZ 1 k /\
               sleeps (before ++ [Launch k]) = Z.to_nat k - 1).
  { intros k Hk Hs Hbefore.
    destruct (saved_not_retried k _ Hs) as [Hstop Hh].
    destruct (download_page_reaches _IS_WINDOWS cfg outcome k Hk Hbefore)
      as (before & -> & Hatt & _ & Hsleep & _).
    cbn [attempts].
    destruct (one_attempt_leaves _IS_WINDOWS cfg k (outcome k) before Hstop)
      as (r & extra & -> & Hsaved & _ & Hextra).
    apply Hsaved in Hs as ->.
    destruct Hextra as [[_ ->] | [(Hh' & _) | (Hh' & _)]]; [|congruence..].
    exists before. split; [done|].
    rewrite (attempted_app before), (sleeps_app before), Hatt, Hsleep.
    change (attempted [Launch k]) with [k]. change (sleeps [Launch k]) with 0.
    split; [by rewrite <- seqZ_snoc by lia|lia]. }
  split; [|exact Hthere]. split.
  - intros Hres.
    destruct download_page_run
      as [[_ Hrun] | (k & r & before & extra & Hk & Hrun & Hbefore & _ & _
                      & _ & _ & Hend)];
      rewrite Hrun in Hres; cbn [fst] in Hres; [done|]. subst r.
    destruct Hend as [(_ & _ & [=] & _) | (_ & Hsaved & _)].
    exists k. split; [done|]. split; [by apply Hsaved|done].
  - intros (k & Hk & Hs & Hbefore).
    destruct (Hthere k Hk Hs Hbefore) as (before & -> & _). done.
Qed.

(** X26 (bounded retries, where the code keeps them).  When every
    attempt fails by a timeout, a non-zero exit code or a missing or
    too small output file, [download_page] makes the attempts
    [1 .. MAX_RETRIES], that many and no other, sleeps between them
    only, and returns [False], provided that the delay is not negative
    when there is more than one attempt, and that the platform is
    Windows when one of the failures is a timeout. *)
Theorem download_page_bounded_retries :
  (0 <= MAX_RETRIES cfg)%Z ->
  (forall a, (1 <= a <= MAX_RETRIES cfg)%Z -> transient (outcome a) = true) ->
  (_IS_WINDOWS = true
   \/ forall a, (1 <= a <= MAX_RETRIES cfg)%Z -> outcome a <> TimedOut) ->
  (0 <= REQUEST_DELAY cfg \/ MAX_RETRIES cfg <= 1)%Z ->
  exists log,
    download_page = (Ends (Ok false), log) /\
    attempted log = seqZ 1 (MAX_RETRIES cfg) /\
    Z.of_nat (launches log) = MAX_RETRIES cfg /\
    sleeps log = Z.to_nat (MAX_RETRIES cfg - 1).
Proof.
  intros Hmax Hfail Hsafe Hdelay. unfold crawler.download_page.
  destruct (attempts_retried _IS_WINDOWS cfg outcome
              (seqZ 1 (MAX_RETRIES cfg)) [] [])
    as (log & Hrun & Hatt & Hlaunch & Hsleep & _).
  { apply Forall_seqZ. intros a Ha.
    assert (Hin : (1 <= a <= MAX_RETRIES cfg)%Z) by lia.
    specialize (Hfail a Hin). unfold crawler.retried, _kill_proc_tree.
    apply andb_true_iff. split; [apply andb_true_iff; split|].
    - by destruct (outcome a).
    - destruct Hsafe as [-> | Hnone]; [apply orb_true_r|].
      specialize (Hnone a Hin). by destruct (outcome a).
    - apply orb_true_iff.
      destruct Hdelay as [Hpos | Hone]; [right|left]; apply Z.leb_le; lia. }
  rewrite app_nil_r in Hrun. exists log. split; [by rewrite Hrun|].
  split; [done|]. split.
  - rewrite Hlaunch, length_seqZ. change (launches []) with 0. lia.
  - rewrite Hsleep. change (sleeps []) with 0.
    pose proof (delays_seqZ (MAX_RETRIES cfg) (Z.to_nat (MAX_RETRIES cfg)) 1
                  ltac:(lia)) as Hdelays.
    rewrite Z2Nat.id in Hdelays by done. rewrite Hdelays. lia.
Qed.

End SupervisorLog.

(** A page that exits with an error at every attempt, with the shipped
    configuration, on Linux. *)
Lemma download_page_bounded_retries_witness :
  let outcome := fun _ : Z => crawler.Exited 1 crawler.Missing in
  (0 <= config.MAX_RETRIES config.shipped)%Z /\
  (forall a, (1 <= a <= config.MAX_RETRIES config.shipped)%Z ->
             crawler.transient (outcome a) = true) /\
  (false = true
   \/ forall a, (1 <= a <= config.MAX_RETRIES config.shipped)%Z ->
                outcome a <> crawler.TimedOut) /\
  (0 <= config.REQUEST_DELAY config.shipped
   \/ config.MAX_RETRIES config.shipped <= 1)%Z /\
  exists log,
    crawler.download_page false config.shipped outcome
      = (crawler.Ends (Py.Ok false), log) /\
    crawler.attempted log = seqZ 1 (config.MAX_RETRIES config.shipped) /\
    Z.of_nat (crawler.launches log) = config.MAX_RETRIES config.shipped /\
    crawler.sleeps log = Z.to_nat (config.MAX_RETRIES config.shipped - 1).
Proof.
  intros outcome.
  assert (H0 : (0 <= config.MAX_RETRIES config.shipped)%Z) by (simpl; lia).
  assert (H1 : forall a, (1 <= a <= config.MAX_RETRIES config.shipped)%Z ->
                 crawler.transient (outcome a) = true)
    by (intros a _; reflexivity).
  assert (H2 : false = true
               \/ forall a, (1 <= a <= config.MAX_RETRIES config.shipped)%Z ->
                            outcome a <> crawler.TimedOut)
    by (right; intros a _; discriminate).
  assert (H3 : (0 <= config.REQUEST_DELAY config.shipped
                \/ config.MAX_RETRIES config.shipped <= 1)%Z)
    by (left; simpl; lia).
  split; [exact H0|]. split; [exact H1|]. split; [exact H2|].
  split; [exact H3|].
  exact (download_page_bounded_retries false config.shipped outcome
           H0 H1 H2 H3).
Defined.

(** ** More on the interactive gate *)

Section GateBound.
Import Py config crawler.

Variable hz : Z.
Variable check_fn : session -> bool.
Variable check_takes : session -> Z.
Variable oversleeps : session -> Z.
Variable cfg : crawler_config.

Hypothesis hz_pos : (0 < hz)%Z.
Hypothesis check_takes_time : forall s, (0 <= check_takes s)%Z.
Hypothesis sleep_lasts : forall s, (0 <= oversleeps s)%Z.

(** Checks take [c] ticks at most, and a sleep lasts [o] ticks too long
    at most. *)
Variables c o : Z.
Hypothesis check_takes_le : forall s, (check_takes s <= c)%Z.
Hypothesis oversleeps_le : forall s, (oversleeps s <= o)%Z.

Abbreviation poll := (crawler.poll check_fn check_takes).
Abbreviation loop := (wait_loop hz check_fn check_takes oversleeps).
Abbreviation gate := (_wait_for_captcha hz check_fn check_takes oversleeps cfg).

(** Where the waiting loop can end. *)
Lemma wait_loop_bound (fuel : nat) (start timeout : Z) (s : session)
    (b : bool) (s' : session) :
  loop fuel start timeout s = Some (b, s') ->
  naps s <= naps s' /\
  polls s' = polls s + 1 + (naps s' - naps s) /\
  (clock s + 2 * hz * Z.of_nat (naps s' - naps s) <= clock s')%Z /\
  (clock s' - start
   <= Z.max (clock s - start + c) (timeout * hz + 2 * hz + o + c))%Z /\
  (b = false -> (clock s' - start > timeout * hz)%Z) /\
  (naps s < naps s' ->
   (2 * hz * Z.of_nat (naps s' - naps s - 1)
    <= timeout * hz - (clock s - start))%Z).
Proof.
  revert s. induction fuel as [|fuel IH]; intros s; [done|].
  cbn [wait_loop]. unfold crawler.poll.
  pose proof (check_takes_time s) as Hc0. pose proof (check_takes_le s) as Hc1.
  destruct (check_fn s).
  - cbn [clock].
    destruct (Z.gtb_spec (clock s + check_takes s - start) (timeout * hz))
      as [Hgt | Hle].
    + intros [= <- <-]. cbn [clock polls naps]. repeat split; lia.
    + set (s1 := {| clock := _; polls := _; naps := _ |}).
      pose proof (sleep_lasts s1) as Ho0. pose proof (oversleeps_le s1) as Ho1.
      intros Hrun. apply IH in Hrun as (H1 & H2 & H3 & H4 & H5 & H6).
      unfold sleep in *. subst s1. cbn [clock polls naps] in *.
      split; [lia|]. split; [lia|].
      assert (Hn : naps s' - naps s = S (naps s' - S (naps s))) by lia.
      split; [rewrite Hn; lia|]. split; [lia|]. split; [done|].
      intros _. destruct (decide (S (naps s) < naps s')) as [Hlt|Hge].
      * specialize (H6 Hlt).
        replace (naps s' - naps s - 1) with (S (naps s' - S (naps s) - 1))
          by lia.
        lia.
      * replace (naps s' - naps s - 1) with 0 by lia. lia.
  - intros [= <- <-]. cbn [clock polls naps]. repeat split; (done || lia).
Qed.

(** X10 (the gate waits no longer than the timeout allows).  With
    checks of at most [c] ticks and sleeps that last at most [o] ticks
    too long, [_wait_for_captcha] returns, whatever the predicate does;
    it sleeps at most [timeout / 2 + 1] times, two seconds at least
    each time, and no time at all when the first check is negative;
    it returns no later than the timeout, one sleep and two checks
    after it was called; it reports a timeout only when more than the
    timeout has passed; and it checks the predicate once, or twice and
    once more after every sleep. *)
Theorem wait_for_captcha_bounded (timeout : option Z) (s : session) :
  let limit := default (CAPTCHA_WAIT_TIMEOUT cfg) timeout in
  exists b s',
    gate timeout s = Some (b, s') /\
    naps s <= naps s' /\
    (Z.of_nat (naps s' - naps s) <= Z.max 0 (limit / 2 + 1))%Z /\
    (clock s + 2 * hz * Z.of_nat (naps s' - naps s) <= clock s')%Z /\
    (clock s'
     <= clock s + Z.max 0 (limit * hz + 2 * hz + o) + 2 * c)%Z /\
    (b = false -> (clock s' - clock s > limit * hz)%Z) /\
    (check_fn s = false ->
     b = true /\ s' = (poll s).2 /\ naps s' = naps s /\
     polls s' = S (polls s)) /\
    (check_fn s = true -> polls s' = polls s + 2 + (naps s' - naps s)).
Proof.
  intros limit. unfold _wait_for_captcha. fold limit. unfold crawler.poll at 1.
  pose proof (check_takes_time s) as Hc0. pose proof (check_takes_le s) as Hc1.
  destruct (check_fn s) eqn:Hfirst; cbn [negb].
  - set (s1 := {| clock := _; polls := _; naps := _ |}).
    destruct (wait_loop_ends hz check_fn check_takes oversleeps
                check_takes_time sleep_lasts
                (enough limit) (clock s1) limit s1)
      as [[b s'] Hrun].
    { unfold enough. lia. }
    { pose proof (enough_ticks hz hz_pos limit). lia. }
    exists b, s'. split; [done|].
    apply wait_loop_bound in Hrun as (H1 & H2 & H3 & H4 & H5 & H6).
    subst s1. cbn [clock polls naps] in *.
    split; [lia|]. split.
    { destruct (decide (naps s < naps s')) as [Hlt|Hge].
      - specialize (H6 Hlt).
        assert (Hhalf : (2 * Z.of_nat (naps s' - naps s - 1) <= limit)%Z)
          by nia.
        assert (Z.of_nat (naps s' - naps s - 1) <= limit / 2)%Z
          by (apply Z.div_le_lower_bound; lia).
        lia.
      - replace (naps s' - naps s) with 0 by lia. lia. }
    split; [lia|]. split; [lia|].
    split; [intros Hb; specialize (H5 Hb); lia|].
    split; [done|]. intros _. lia.
  - eexists _, _. split; [done|]. cbn [clock polls naps].
    split; [lia|]. split; [replace (naps s - naps s) with 0 by lia; lia|].
    split; [lia|]. split; [lia|]. split; [done|]. split; [|done].
    repeat split.
Qed.

End GateBound.

(** A predicate that never clears, with the shipped timeout of 300
    seconds. *)
Lemma wait_for_captcha_bounded_witness :
  let hz := 1000%Z in
  let check_fn := fun _ : crawler.session => true in
  let check_takes := fun _ : crawler.session => 20%Z in
  let oversleeps := fun _ : crawler.session => 1%Z in
  let s0 := {| crawler.clock := 0; crawler.polls := 0; crawler.naps := 0 |} in
  (0 < hz)%Z /\
  (forall s, 0 <= check_takes s)%Z /\
  (forall s, 0 <= oversleeps s)%Z /\
  (forall s, check_takes s <= 20)%Z /\
  (forall s, oversleeps s <= 1)%Z /\
  exists b s',
    crawler._wait_for_captcha hz check_fn check_takes oversleeps
      config.shipped None s0 = Some (b, s') /\
    (Z.of_nat (crawler.naps s' - crawler.naps s0) <= 151)%Z /\
    (crawler.clock s' <= 302041)%Z.
Proof.
  intros hz check_fn check_takes oversleeps s0.
  assert (H1 : (0 < hz)%Z) by (subst hz; lia).
  assert (H2 : forall s, (0 <= check_takes s)%Z)
    by (intros s; subst check_takes; simpl; lia).
  assert (H3 : forall s, (0 <= oversleeps s)%Z)
    by (intros s; subst oversleeps; simpl; lia).
  assert (H4 : forall s, (check_takes s <= 20)%Z)
    by (intros s; subst check_takes; simpl; lia).
  assert (H5 : forall s, (oversleeps s <= 1)%Z)
    by (intros s; subst oversleeps; simpl; lia).
  split; [exact H1|]. split; [exact H2|]. split; [exact H3|].
  split; [exact H4|]. split; [exact H5|].
  destruct (wait_for_captcha_bounded hz check_fn check_takes oversleeps
              config.shipped H1 H2 H3 20 1 H4 H5 None s0)
    as (b & s' & Hrun & _ & Hnaps & _ & Hclock & _).
  exists b, s'. split; [exact Hrun|]. split; [exact Hnaps|exact Hclock].
Defined.

(** ** More on the download scheduler *)

Section TaskCollection.
Import Py config crawler.

Variable _IS_WINDOWS : bool.
Variable cfg : crawler_config.
Variable _get_target_urls : string -> list string.
Variable present : string -> bool.
Variable outcome : task -> Z -> attempt.

Abbreviation scan := (crawler.scan cfg present).
Abbreviation collect := (crawler.collect cfg _get_target_urls present).
Abbreviation _do_download := (crawler._do_download _IS_WINDOWS cfg outcome).
Abbreviation run_crawler :=
  (crawler.run_crawler _IS_WINDOWS cfg _get_target_urls present outcome).

Lemma total_success_fresh (stats : gmap string counts) (cat : string)
    (new : counts) :
  stats !! cat = None ->
  total_success (<[cat := new]> stats) = (success new + total_success stats)%Z.
Proof.
  intros Hnone. unfold total_success.
  by rewrite map_fold_insert_L; [|intros; lia|].
Qed.

Lemma total_fail_fresh (stats : gmap string counts) (cat : string)
    (new : counts) :
  stats !! cat = None ->
  total_fail (<[cat := new]> stats) = (fail new + total_fail stats)%Z.
Proof.
  intros Hnone. unfold total_fail.
  by rewrite map_fold_insert_L; [|intros; lia|].
Qed.

(** What the inner loop does with the URLs of a category, the URL
    mapping being a dict. *)
Lemma scan_partition (cat : string) (urls : list string) (idx : nat)
    (c : collected) (m : gmap string pyval) :
  is_Some (stats c !! cat) ->
  url_mapping c = PDict m ->
  exists c' new m',
    scan cat urls idx c = Ok c' /\
    url_mapping c' = PDict m' /\
    (forall key, is_Some (m !! key) -> is_Some (m' !! key)) /\
    tasks c' = tasks c ++ new /\
    (0 <= skipped c' - skipped c)%Z /\
    (Z.of_nat (length new) + (skipped c' - skipped c)
     = Z.of_nat (length urls))%Z /\
    Forall (fun t => made_for cfg urls cat idx t /\ present (output_path t) = false) new /\
    dom (stats c') = dom (stats c) /\
    total_success (stats c')
      = (total_success (stats c) + (skipped c' - skipped c))%Z /\
    total_fail (stats c') = total_fail (stats c).
Proof.
  revert idx c m. induction urls as [|u urls IH]; intros idx c m Hcat Hm.
  { exists c, [], m. simpl. rewrite app_nil_r.
    repeat split; (done || lia || by apply Forall_nil). }
  assert (Hshift : forall new,
    Forall (fun t => made_for cfg urls cat (S idx) t /\
                     present (output_path t) = false) new ->
    Forall (fun t => made_for cfg (u :: urls) cat idx t /\
                     present (output_path t) = false) new).
  { intros new Hn. eapply Forall_impl; [exact Hn|].
    intros t [(i & Hi & Hc & Hf & Ho) Hp]. split; [|done]. exists (S i).
    rewrite Nat.add_succ_r. done. }
  cbn [crawler.scan].
  change (path_join (path_join (RAW_HTML_DIR cfg) cat) (page_filename cat idx))
    with (page_path cfg cat idx).
  destruct (present (page_path cfg cat idx)) eqn:Hpresent.
  - rewrite Hm. cbn [setitem bind].
    destruct (add_success_counted (stats c) cat Hcat)
      as (stats' & -> & Hdom & Hs & Hf). cbn [bind].
    destruct (IH (S idx)
                {| stats := stats';
                   url_mapping :=
                     PDict (<[rel_key_of cat (page_filename cat idx) := PStr u]> m);
                   tasks := tasks c; skipped := skipped c + 1 |}
                (<[rel_key_of cat (page_filename cat idx) := PStr u]> m))
      as (c' & new & m' & Hrun & Hm' & Hkeep & Htasks & Hpos & Hcount & Hnew
          & Hdom' & Hs' & Hf').
    { cbn [stats]. apply elem_of_dom. rewrite Hdom. by apply elem_of_dom. }
    { done. }
    cbn [stats tasks skipped] in *.
    exists c', new, m'. split; [done|]. split; [done|]. split.
    { intros key Hkey. apply Hkeep, lookup_insert_is_Some'. by right. }
    split; [done|]. split; [lia|].
    split; [simpl length; lia|]. split; [by apply Hshift|].
    split; [by rewrite Hdom'|]. split; [lia|lia].
  - destruct (IH (S idx)
                {| stats := stats c; url_mapping := url_mapping c;
                   tasks := tasks c ++ [ {| category := cat;
                                            filename := page_filename cat idx;
                                            url := u;
                                            output_path := page_path cfg cat idx |} ];
                   skipped := skipped c |} m)
      as (c' & new & m' & Hrun & Hm' & Hkeep & Htasks & Hpos & Hcount & Hnew
          & Hdom' & Hs' & Hf').
    { done. }
    { done. }
    cbn [stats tasks skipped] in *.
    eexists c', (_ :: new), m'. split; [done|]. split; [done|].
    split; [done|].
    split; [by rewrite Htasks, <- app_assoc|]. split; [done|].
    split; [simpl length; lia|]. split; [|done].
    apply Forall_cons. split; [|by apply Hshift].
    split; [|done]. exists 0. rewrite Nat.add_0_r. done.
Qed.

(** What the outer loop does with categories that have no counters
    yet. *)
Lemma collect_partition (categories : list string) (c : collected)
    (m : gmap string pyval) :
  NoDup categories ->
  (forall cat, cat ∈ categories -> stats c !! cat = None) ->
  url_mapping c = PDict m ->
  exists c' new m',
    collect categories c = Ok c' /\
    url_mapping c' = PDict m' /\
    (forall key, is_Some (m !! key) -> is_Some (m' !! key)) /\
    tasks c' = tasks c ++ new /\
    (0 <= skipped c' - skipped c)%Z /\
    (Z.of_nat (length new) + (skipped c' - skipped c)
     = Z.of_nat (length (concat (_get_target_urls <$> categories))))%Z /\
    Forall (fun t => category t ∈ categories /\
                     made_for cfg (_get_target_urls (category t))
                       (category t) 0 t /\
                     present (output_path t) = false)
           new /\
    dom (stats c') = dom (stats c) ∪ list_to_set categories /\
    total_success (stats c')
      = (total_success (stats c) + (skipped c' - skipped c))%Z /\
    total_fail (stats c') = total_fail (stats c).
Proof.
  revert c m. induction categories as [|cat rest IH]; intros c m Hnd Hfresh Hm.
  { exists c, [], m. simpl. rewrite app_nil_r.
    split; [done|]. split; [done|]. split; [done|]. split; [done|].
    split; [lia|]. split; [lia|].
    split; [by apply Forall_nil|].
    split; [by rewrite union_empty_r_L|]. split; [lia|done]. }
  apply NoDup_cons in Hnd as [Hcat Hnd].
  cbn [crawler.collect].
  set (c0 := {| stats := <[cat := zero]> (stats c);
                url_mapping := url_mapping c;
                tasks := tasks c; skipped := skipped c |}).
  destruct (scan_partition cat (_get_target_urls cat) 0 c0 m)
    as (c1 & new1 & m1 & -> & Hm1 & Hkeep1 & Htasks1 & Hpos1 & Hcount1 & Hnew1
        & Hdom1 & Hs1 & Hf1).
  { subst c0. cbn [stats]. rewrite lookup_insert_eq. by eexists. }
  { done. }
  cbn [bind].
  assert (Hnone : stats c !! cat = None) by (apply Hfresh; by left).
  destruct (IH c1 m1 Hnd)
    as (c' & new & m' & Hrun & Hm' & Hkeep & Htasks & Hpos & Hcount & Hnew
        & Hdom & Hs & Hf).
  { intros cat' Hin. apply not_elem_of_dom. rewrite Hdom1.
    subst c0. cbn [stats]. rewrite dom_insert_L.
    apply not_elem_of_union. split.
    - apply not_elem_of_singleton. by intros ->.
    - apply not_elem_of_dom, Hfresh. by right. }
  { done. }
  subst c0. cbn [stats tasks skipped] in *.
  rewrite (total_success_fresh _ _ _ Hnone) in Hs1.
  rewrite (total_fail_fresh _ _ _ Hnone) in Hf1.
  change (success zero) with 0%Z in Hs1. change (fail zero) with 0%Z in Hf1.
  exists c', (new1 ++ new), m'. split; [done|]. split; [done|].
  split; [intros key Hkey; by apply Hkeep, Hkeep1|].
  split; [by rewrite Htasks, Htasks1, <- app_assoc|]. split; [lia|].
  split; [|split; [|split; [|split; [lia|lia]]]].
  - rewrite fmap_cons. cbn [concat]. rewrite !length_app. lia.
  - apply Forall_app. split.
    + eapply Forall_impl; [exact Hnew1|].
      intros t [(i & Hi & Hc & Hrest) Hp]. split; [rewrite Hc; by left|].
      split; [|done]. exists i. by rewrite Hc.
    + eapply Forall_impl; [exact Hnew|]. intros t [Hin Ht].
      split; [by right|done].
  - rewrite Hdom, Hdom1, dom_insert_L, list_to_set_cons.
    by rewrite (union_comm_L {[cat]}), <- union_assoc_L.
Qed.

(** X11 (which pages become tasks).  From empty statistics, a dict for
    the URL mapping and categories that are all different, the
    collecting loops of [run_crawler] never raise; every URL found is
    either counted as skipped or made a task, so tasks and skipped
    pages together are as many as the URLs; a task is made only for a
    page that is not on disk with more than 100 bytes, it carries the
    URL at its index and the file name of that index; every category
    gets its counters; the successes counted so far are the skipped
    pages, and no failure is counted; and the URL mapping is still a
    dict, with every key it had. *)
Theorem collect_partitions_pages (mapping0 : gmap string pyval) :
  NoDup (DOMAINS cfg) ->
  exists c,
    collect (DOMAINS cfg)
      {| stats := ∅; url_mapping := PDict mapping0; tasks := [];
         skipped := 0 |}
      = Ok c /\
    (Z.of_nat (length (tasks c)) + skipped c
     = Z.of_nat (length (concat (_get_target_urls <$> DOMAINS cfg))))%Z /\
    (0 <= skipped c)%Z /\
    Forall (fun t => category t ∈ DOMAINS cfg /\
                     made_for cfg (_get_target_urls (category t))
                       (category t) 0 t /\
                     present (output_path t) = false)
           (tasks c) /\
    dom (stats c) = list_to_set (DOMAINS cfg) /\
    total_success (stats c) = skipped c /\
    total_fail (stats c) = 0%Z /\
    exists mapping,
      url_mapping c = PDict mapping /\
      forall key, is_Some (mapping0 !! key) -> is_Some (mapping !! key).
Proof.
  intros Hnd.
  destruct (collect_partition (DOMAINS cfg)
              {| stats := ∅; url_mapping := PDict mapping0; tasks := [];
                 skipped := 0 |} mapping0 Hnd)
    as (c & new & m' & Hrun & Hm' & Hkeep & Htasks & Hpos & Hcount & Hnew
        & Hdom & Hs & Hf).
  { intros cat _. apply lookup_empty. }
  { done. }
  cbn [stats tasks skipped] in *. rewrite app_nil_l in Htasks. subst new.
  exists c. split; [done|]. split; [lia|]. split; [lia|]. split; [done|].
  split; [by rewrite Hdom, dom_empty_L, union_empty_l_L|].
  unfold total_success, total_fail in *. rewrite map_fold_empty in Hs, Hf.
  split; [lia|]. split; [lia|]. by exists m'.
Qed.

(** X12 (a crawl with every page on disk).  When the URL mapping file
    is missing, unreadable, no JSON or holds a JSON object, and every
    page of every category is on disk already, [run_crawler] starts no
    download and needs no worker: whatever [CONCURRENT_DOWNLOADS] and
    the platform are, it saves the URL mapping, a dict still, and
    returns statistics in which every URL found counts as a success
    and nothing as a failure. *)
Theorem run_crawler_all_present (f : pipeline_state.file)
    (mapping0 : gmap string pyval) :
  NoDup (DOMAINS cfg) ->
  _load_url_mapping f = Ok (PDict mapping0) ->
  (forall cat i u, cat ∈ DOMAINS cfg -> _get_target_urls cat !! i = Some u ->
                   present (page_path cfg cat i) = true) ->
  exists stats' mapping',
    (forall result,
       run_crawler f result <->
       result = (Ends (Ok stats'),
                 Some (pipeline_state.JsonText (PDict mapping')))) /\
    (forall key, is_Some (mapping0 !! key) -> is_Some (mapping' !! key)) /\
    total_success stats'
      = Z.of_nat (length (concat (_get_target_urls <$> DOMAINS cfg))) /\
    total_fail stats' = 0%Z /\
    dom stats' = list_to_set (DOMAINS cfg).
Proof.
  intros Hnd Hload Hall.
  destruct (collect_partition (DOMAINS cfg)
              {| stats := ∅; url_mapping := PDict mapping0; tasks := [];
                 skipped := 0 |} mapping0 Hnd)
    as (c & new & m' & Hrun & Hm' & Hkeep & Htasks & Hpos & Hcount & Hnew
        & Hdom & Hs & Hf).
  { intros cat _. apply lookup_empty. }
  { done. }
  cbn [stats tasks skipped] in *. rewrite app_nil_l in Htasks.
  assert (Hnone : new = []).
  { destruct new as [|t new]; [done|].
    apply Forall_cons in Hnew as [(Hin & (i & Hi & Hc & Hf' & Ho) & Hp) _].
    rewrite Ho, Nat.add_0_l in Hp. rewrite (Hall _ i (url t) Hin Hi) in Hp.
    done. }
  rewrite Hnone in Htasks, Hcount. simpl in Hcount.
  exists (stats c), m'. split; [|split; [done|split; [|split]]].
  - intros result. unfold crawler.run_crawler.
    rewrite Hload, Hrun, Htasks. unfold save_and_return, _save_url_mapping.
    by rewrite Hm'.
  - unfold total_success in *. rewrite map_fold_empty in Hs. lia.
  - unfold total_fail in *. rewrite map_fold_empty in Hf. lia.
  - by rewrite Hdom, dom_empty_L, union_empty_l_L.
Qed.

(** What the [as_completed] loop does to the URL mapping, a dict. *)
Lemma as_completed_mapping (done : list (task * worker_result))
    (a a' : tally) (m : gmap string pyval) :
  Forall (fun d => _do_download d.1 = Some d.2) done ->
  t_mapping a = PDict m ->
  as_completed done a = Ok a' ->
  exists m',
    t_mapping a' = PDict m' /\
    (forall key,
       m' !! key = m !! key
       \/ exists t, t ∈ done.*1 /\
                    succeeded (_do_download t) = true /\
                    key = rel_key_of (category t) (filename t) /\
                    m' !! key = Some (PStr (url t))) /\
    (forall t, t ∈ done.*1 ->
       succeeded (_do_download t) = true ->
       exists t', t' ∈ done.*1 /\
                  succeeded (_do_download t') = true /\
                  rel_key_of (category t') (filename t')
                    = rel_key_of (category t) (filename t) /\
                  m' !! rel_key_of (category t) (filename t)
                    = Some (PStr (url t'))).
Proof.
  revert a m. induction done as [|[t r] done IH]; intros a m Hdone Hm.
  { simpl. intros [= <-]. exists m. split; [done|].
    split; [by left|]. by intros t ?%elem_of_nil. }
  apply Forall_cons in Hdone as [Hr Hdone]. cbn [fst snd] in Hr.
  cbn [as_completed].
  destruct (account (t, r) a) as [a1|e] eqn:Hacc; [|done].
  cbn [bind]. intros Hrun.
  assert (Hstep :
    (succeeded (_do_download t) = true /\
     t_mapping a1
       = PDict (<[rel_key_of (category t) (filename t) := PStr (url t)]> m))
    \/ (succeeded (_do_download t) = false /\ t_mapping a1 = PDict m)).
  { rewrite Hr. unfold account in Hacc. cbn [fst snd] in Hacc.
    destruct (do_download_result _IS_WINDOWS cfg outcome t r Hr)
      as [[ok ->] | [e ->]].
    - destruct ok; rewrite ?Hm in Hacc; cbn [setitem bind] in Hacc.
      + destruct (add_success _ _) as [s|e]; [|done]. cbn in Hacc.
        injection Hacc as <-. by left.
      + destruct (add_fail _ _) as [s|e]; [|done]. cbn in Hacc.
        injection Hacc as <-. right. by rewrite <- Hm.
    - destruct (add_fail _ _) as [s|e']; [|done]. cbn in Hacc.
      injection Hacc as <-. by right. }
  assert (Hm1 : exists m1, t_mapping a1 = PDict m1).
  { destruct Hstep as [[_ ->] | [_ ->]]; by eexists. }
  destruct Hm1 as [m1 Hm1].
  destruct (IH a1 m1 Hdone Hm1 Hrun) as (m' & Hm' & Hkeys & Hwins).
  exists m'. split; [done|]. rewrite fmap_cons. cbn [fst]. split.
  - intros key. destruct (Hkeys key) as [Hsame | (t' & Hin & Hrest)].
    + destruct Hstep as [[Hok Hmap] | [_ Hmap]];
        rewrite Hm1 in Hmap; injection Hmap as ->.
      * destruct (decide (key = rel_key_of (category t) (filename t)))
          as [-> | Hne].
        -- right. exists t. split; [by left|]. split; [done|].
           split; [done|]. by rewrite Hsame, lookup_insert_eq.
        -- left. by rewrite Hsame, lookup_insert_ne.
      * by left.
    + right. exists t'. split; [by right|done].
  - intros t0 [-> | Hin]%elem_of_cons Hok.
    + destruct (Hkeys (rel_key_of (category t) (filename t)))
        as [Hsame | (t' & Hin' & Hok' & Hkey & Hlook)].
      * exists t. split; [by left|]. split; [done|]. split; [done|].
        destruct Hstep as [[_ Hmap] | [Hno _]]; [|congruence].
        rewrite Hm1 in Hmap. injection Hmap as ->.
        by rewrite Hsame, lookup_insert_eq.
      * exists t'. split; [by right|]. split; [done|]. split; [done|done].
    + destruct (Hwins t0 Hin Hok) as (t' & Hin' & Hrest).
      exists t'. split; [by right|done].
Qed.

(** X13 (the URL mapping after the downloads).  When the batch [ts]
    has been accounted for, in whatever order the downloads ended, the
    URL mapping, a dict before, is a dict after; every entry of it is
    as it was before the batch or holds the URL of a task of the batch
    whose download succeeded; every task whose download succeeded has
    an entry under its key; and the entry of a task whose download
    failed is not touched, so that an entry of an earlier crawl
    stays. *)
Theorem url_mapping_after_downloads (W : nat) (ts : list task)
    (final : pool) (a a' : tally) (m : gmap string pyval) :
  rtc (pool_step _IS_WINDOWS cfg outcome W) (submitted ts) final ->
  drained final ->
  t_mapping a = PDict m ->
  as_completed (finished final) a = Ok a' ->
  exists m',
    t_mapping a' = PDict m' /\
    (forall key,
       m' !! key = m !! key
       \/ exists t, t ∈ ts /\
                    succeeded (_do_download t) = true /\
                    key = rel_key_of (category t) (filename t) /\
                    m' !! key = Some (PStr (url t))) /\
    (forall t, t ∈ ts ->
       succeeded (_do_download t) = true ->
       exists t', t' ∈ ts /\
                  succeeded (_do_download t') = true /\
                  rel_key_of (category t') (filename t')
                    = rel_key_of (category t) (filename t) /\
                  m' !! rel_key_of (category t) (filename t)
                    = Some (PStr (url t'))) /\
    (forall t, t ∈ ts ->
       (forall t', t' ∈ ts ->
                   rel_key_of (category t') (filename t')
                     = rel_key_of (category t) (filename t) ->
                   succeeded (_do_download t') = false) ->
       m' !! rel_key_of (category t) (filename t)
         = m !! rel_key_of (category t) (filename t)).
Proof.
  intros Hreach [Hq Hr] Hm Hrun.
  destruct (pool_reachable_accounts_for _IS_WINDOWS cfg outcome W ts final
              Hreach)
    as (_ & Hdone & Hperm).
  rewrite Hq, Hr, !app_nil_r in Hperm.
  destruct (as_completed_mapping (finished final) a a' m Hdone Hm Hrun)
    as (m' & Hm' & Hkeys & Hwins).
  exists m'. split; [done|]. split; [|split].
  - intros key. destruct (Hkeys key) as [Hsame | (t & Hin & Hrest)];
      [by left|].
    right. exists t. split; [by rewrite <- Hperm|done].
  - intros t Hin Hok. rewrite <- Hperm in Hin.
    destruct (Hwins t Hin Hok) as (t' & Hin' & Hrest).
    exists t'. split; [by rewrite <- Hperm|done].
  - intros t Hin Hfail.
    destruct (Hkeys (rel_key_of (category t) (filename t)))
      as [Hsame | (t' & Hin' & Hok & Hkey & _)]; [done|].
    rewrite Hperm in Hin'. by rewrite (Hfail t' Hin') in Hok.
Qed.

End TaskCollection.

Section TaskCollectionScenarios.
Import Py config crawler.

Lemma collect_partitions_pages_witness :
  let cfg := shipped in
  let urls := fun _ : string => ["https://example.org/a"; "https://example.org/b"] in
  let present := fun path : string => String.eqb path "data/raw_html/Blog/blog_real_1.html" in
  let mapping0 : gmap string pyval :=
    {[ "Blog/blog_real_7.html" := PStr "https://example.org/old" ]} in
  NoDup (DOMAINS cfg) /\
  exists c,
    collect cfg urls present (DOMAINS cfg)
      {| stats := ∅; url_mapping := PDict mapping0; tasks := [];
         skipped := 0 |}
      = Ok c /\
    (Z.of_nat (length (tasks c)) + skipped c
     = Z.of_nat (length (concat (urls <$> DOMAINS cfg))))%Z /\
    (0 <= skipped c)%Z /\
    Forall (fun t => category t ∈ DOMAINS cfg /\
                     made_for cfg (urls (category t)) (category t) 0 t /\
                     present (output_path t) = false)
           (tasks c) /\
    dom (stats c) = list_to_set (DOMAINS cfg) /\
    total_success (stats c) = skipped c /\
    total_fail (stats c) = 0%Z /\
    exists mapping,
      url_mapping c = PDict mapping /\
      forall key, is_Some (mapping0 !! key) -> is_Some (mapping !! key).
Proof.
  intros cfg urls present mapping0.
  assert (Hnd : NoDup (DOMAINS cfg)).
  { apply (bool_decide_unpack _). vm_compute. reflexivity. }
  split; [exact Hnd|].
  exact (collect_partitions_pages cfg urls present mapping0 Hnd).
Defined.

Lemma run_crawler_all_present_witness :
  let cfg := shipped in
  let urls := fun _ : string => ["https://example.org/a"; "https://example.org/b"] in
  let present := fun _ : string => true in
  let outcome := fun (_ : task) (_ : Z) => TimedOut in
  let f : pipeline_state.file := Some pipeline_state.NotJson in
  let mapping0 : gmap string pyval := ∅ in
  NoDup (DOMAINS cfg) /\
  _load_url_mapping f = Ok (PDict mapping0) /\
  (forall cat i u, cat ∈ DOMAINS cfg -> urls cat !! i = Some u ->
                   present (page_path cfg cat i) = true) /\
  exists stats' mapping',
    (forall result,
       run_crawler false cfg urls present outcome f result <->
       result = (Ends (Ok stats'),
                 Some (pipeline_state.JsonText (PDict mapping')))) /\
    (forall key, is_Some (mapping0 !! key) -> is_Some (mapping' !! key)) /\
    total_success stats' = Z.of_nat (length (concat (urls <$> DOMAINS cfg))) /\
    total_fail stats' = 0%Z /\
    dom stats' = list_to_set (DOMAINS cfg).
Proof.
  intros cfg urls present outcome f mapping0.
  assert (Hnd : NoDup (DOMAINS cfg)).
  { apply (bool_decide_unpack _). vm_compute. reflexivity. }
  assert (Hload : _load_url_mapping f = Ok (PDict mapping0)) by reflexivity.
  assert (Hall : forall cat i u, cat ∈ DOMAINS cfg -> urls cat !! i = Some u ->
                                 present (page_path cfg cat i) = true).
  { intros cat i u _ _. reflexivity. }
  split; [exact Hnd|]. split; [exact Hload|]. split; [exact Hall|].
  exact (run_crawler_all_present false cfg urls present outcome f mapping0
           Hnd Hload Hall).
Defined.

Lemma url_mapping_after_downloads_witness :
  let cfg := shipped in
  let outcome := scenario_outcome in
  let t0 := scenario_task 0 in
  let t1 := scenario_task 1 in
  let ts := [t0; t1] in
  let r0 := Returned "Blog" "Blog/blog_real_1.html" "https://example.org/0"
              true in
  let r1 := Returned "Blog" "Blog/blog_real_2.html" "https://example.org/1"
              false in
  let W := 2 in
  let final := {| queued := []; running := [];
                  finished := [(t0, r0); (t1, r1)] |} in
  let m : gmap string pyval :=
    {[ "Blog/blog_real_2.html" := PStr "https://example.org/old" ]} in
  let a := {| t_stats := {[ "Blog" := zero ]}; t_mapping := PDict m;
              completed := 0; progress := [] |} in
  let a' := {| t_stats := {[ "Blog" := {| success := 1; fail := 1 |} ]};
               t_mapping :=
                 PDict (<[ "Blog/blog_real_1.html"
                             := PStr "https://example.org/0" ]> m);
               completed := 2; progress := [1; 2]%Z |} in
  rtc (pool_step true cfg outcome W) (submitted ts) final /\
  drained final /\
  t_mapping a = PDict m /\
  as_completed (finished final) a = Ok a' /\
  exists m',
    t_mapping a' = PDict m' /\
    (forall key,
       m' !! key = m !! key
       \/ exists t, t ∈ ts /\
                    succeeded (_do_download true cfg outcome t) = true /\
                    key = rel_key_of (category t) (filename t) /\
                    m' !! key = Some (PStr (url t))) /\
    (forall t, t ∈ ts ->
       succeeded (_do_download true cfg outcome t) = true ->
       exists t', t' ∈ ts /\
                  succeeded (_do_download true cfg outcome t') = true /\
                  rel_key_of (category t') (filename t')
                    = rel_key_of (category t) (filename t) /\
                  m' !! rel_key_of (category t) (filename t)
                    = Some (PStr (url t'))) /\
    (forall t, t ∈ ts ->
       (forall t', t' ∈ ts ->
                   rel_key_of (category t') (filename t')
                     = rel_key_of (category t) (filename t) ->
                   succeeded (_do_download true cfg outcome t') = false) ->
       m' !! rel_key_of (category t) (filename t)
         = m !! rel_key_of (category t) (filename t)).
Proof.
  intros cfg outcome t0 t1 ts r0 r1 W final m a a'.
  assert (Hreach : rtc (pool_step true cfg outcome W) (submitted ts) final).
  { apply (rtc_l _ _ {| queued := [t1]; running := [t0]; finished := [] |}).
    { apply (pool_start true cfg outcome W t0 [t1] [] []). simpl. lia. }
    apply (rtc_l _ _ {| queued := []; running := [t0; t1]; finished := [] |}).
    { apply (pool_start true cfg outcome W t1 [] [t0] []). simpl. lia. }
    apply (rtc_l _ _ {| queued := []; running := [t1];
                        finished := [(t0, r0)] |}).
    { apply (pool_finish true cfg outcome W [] [] t0 [t1] [] r0).
      vm_compute. reflexivity. }
    apply rtc_once.
    apply (pool_finish true cfg outcome W [] [] t1 [] [(t0, r0)] r1).
    vm_compute. reflexivity. }
  assert (Hdrained : drained final) by (split; reflexivity).
  assert (Hm : t_mapping a = PDict m) by reflexivity.
  assert (Hrun : as_completed (finished final) a = Ok a').
  { vm_compute. reflexivity. }
  split; [exact Hreach|]. split; [exact Hdrained|]. split; [exact Hm|].
  split; [exact Hrun|].
  exact (url_mapping_after_downloads true cfg outcome W ts final a a' m
           Hreach Hdrained Hm Hrun).
Defined.

End TaskCollectionScenarios.

(** ** The search for the target URLs *)

Section SearchResults.
Import Py config crawler.

Variable SEARCH_QUERIES : gmap string (list string).
Variable search : string -> res (list string).

(** A URL that some query of [queries] returned. *)
Abbreviation found_by queries u :=
  (exists query results,
     query ∈ queries /\ search query = Ok results /\ u ∈ results).

Lemma add_results_spec (num_results : Z) (results urls : list string) :
  NoDup urls ->
  (Z.of_nat (length urls) < num_results)%Z ->
  NoDup (add_results num_results results urls) /\
  (Z.of_nat (length (add_results num_results results urls)) <= num_results)%Z /\
  urls `prefix_of` add_results num_results results urls /\
  (forall u, u ∈ add_results num_results results urls ->
             u ∈ urls \/ u ∈ results).
Proof.
  revert urls. induction results as [|r results IH]; intros urls Hnd Hlen.
  { simpl. split; [done|]. split; [lia|]. split; [done|]. by left. }
  cbn [add_results].
  destruct (bool_decide (r ∈ urls)) eqn:Hin.
  - destruct (Z.geb_spec (Z.of_nat (length urls)) num_results) as [?|_];
      [lia|].
    destruct (IH urls Hnd Hlen) as (H1 & H2 & H3 & H4).
    split; [done|]. split; [done|]. split; [done|].
    intros u Hu. destruct (H4 u Hu) as [?|?]; [by left|right; by right].
  - apply bool_decide_eq_false in Hin.
    assert (Hnd' : NoDup (urls ++ [r])).
    { apply NoDup_app. split; [done|]. split; [|apply NoDup_singleton].
      intros x Hx ->%list_elem_of_singleton. done. }
    assert (Hel : forall u, u ∈ urls ++ [r] -> u ∈ urls \/ u ∈ r :: results).
    { intros u [?| ->%list_elem_of_singleton]%elem_of_app;
        [by left|right; by left]. }
    destruct (Z.geb_spec (Z.of_nat (length (urls ++ [r]))) num_results)
      as [Hge|Hlt].
    + split; [done|]. rewrite length_app in *. simpl length in *.
      split; [lia|]. split; [by apply prefix_app_r|done].
    + destruct (IH (urls ++ [r]) Hnd' Hlt) as (H1 & H2 & H3 & H4).
      split; [done|]. split; [done|].
      split; [etrans; [|exact H3]; by apply prefix_app_r|].
      intros u Hu. destruct (H4 u Hu) as [Hu'|Hu'].
      * by apply Hel.
      * right. by right.
Qed.

Lemma search_loop_spec (num_results : Z) (queries urls : list string)
    (slept : nat) :
  NoDup urls ->
  (Z.of_nat (length urls) <= Z.max 0 num_results)%Z ->
  let result := search_loop search num_results queries urls slept in
  NoDup result.1 /\
  (Z.of_nat (length result.1) <= Z.max 0 num_results)%Z /\
  urls `prefix_of` result.1 /\
  (forall u, u ∈ result.1 -> u ∈ urls \/ found_by queries u) /\
  slept <= result.2 <= slept + length queries.
Proof.
  revert urls slept.
  induction queries as [|q queries IH]; intros urls slept Hnd Hlen.
  { simpl. split; [done|]. split; [done|]. split; [done|].
    split; [by left|lia]. }
  cbn [search_loop].
  destruct (Z.geb_spec (Z.of_nat (length urls)) num_results) as [Hge|Hlt].
  { cbn [fst snd]. split; [done|]. split; [done|]. split; [done|].
    split; [by left|simpl; lia]. }
  assert (Hlift : forall u, found_by queries u -> found_by (q :: queries) u).
  { intros u (query & results & Hq & Hs & Hu).
    exists query, results. split; [by right|done]. }
  destruct (search q) as [results|e] eqn:Hsearch.
  - destruct (add_results_spec num_results results urls Hnd Hlt)
      as (H1 & H2 & H3 & H4).
    destruct (IH (add_results num_results results urls) (S slept) H1)
      as (I1 & I2 & I3 & I4 & I5); [lia|].
    cbv zeta. split; [done|]. split; [done|].
    split; [by etrans|]. split; [|simpl; lia].
    intros u Hu. destruct (I4 u Hu) as [Hu'|Hu'].
    + destruct (H4 u Hu') as [?|?]; [by left|].
      right. exists q, results. split; [by left|done].
    + right. by apply Hlift.
  - destruct (IH urls slept Hnd Hlen) as (I1 & I2 & I3 & I4 & I5).
    cbv zeta. split; [done|]. split; [done|]. split; [done|].
    split; [|simpl; lia].
    intros u Hu. destruct (I4 u Hu) as [?|?]; [by left|].
    right. by apply Hlift.
Qed.

(** Queries that raise change nothing. *)
Lemma search_loop_skips_failures (num_results : Z) (queries urls : list string)
    (slept : nat) :
  search_loop search num_results
    (filter (fun q => is_ok (search q) = true) queries)
    urls slept
  = search_loop search num_results queries urls slept.
Proof.
  revert urls slept. induction queries as [|q queries IH]; intros urls slept.
  { done. }
  destruct (search q) as [results|e] eqn:Hsearch.
  - rewrite filter_cons_True by (by rewrite Hsearch).
    cbn [search_loop]. rewrite Hsearch.
    destruct (Z.of_nat (length urls) >=? num_results)%Z; [done|]. apply IH.
  - rewrite filter_cons_False by (by rewrite Hsearch).
    rewrite IH. cbn [search_loop]. rewrite Hsearch.
    destruct (Z.of_nat (length urls) >=? num_results)%Z eqn:Hfull; [|done].
    destruct queries as [|q' queries]; [done|].
    cbn [search_loop]. by rewrite Hfull.
Qed.

Lemma slice_to_all {A : Type} (n : Z) (l : list A) :
  (Z.of_nat (length l) <= Z.max 0 n)%Z -> slice_to n l = l.
Proof.
  intros Hlen. unfold slice_to.
  destruct (Z.ltb_spec n 0).
  - destruct l; [done|]. simpl in Hlen. lia.
  - apply take_ge. lia.
Qed.

(** X14 (the URLs of a category).  Whatever the searches return,
    [_get_target_urls(category, n)] returns no URL twice and never
    more than [n] URLs; every URL it returns was returned by the
    search of one of the queries of the category; a category without
    queries gives the empty list; and a query whose search raises is
    passed over: the result, and the number of delays, are the same as
    if the query were not there. *)
Theorem get_target_urls_spec (category : string) (num_results : Z) :
  let queries := default [] (SEARCH_QUERIES !! category) in
  let urls := _get_target_urls SEARCH_QUERIES search category num_results in
  NoDup urls /\
  (Z.of_nat (length urls) <= Z.max 0 num_results)%Z /\
  (forall u, u ∈ urls -> found_by queries u) /\
  (SEARCH_QUERIES !! category = None -> urls = []) /\
  ((forall query, query ∈ queries -> exists e, search query = Raise e) ->
   urls = []) /\
  urls = (search_loop search num_results queries [] 0).1 /\
  search_loop search num_results
    (filter (fun q => is_ok (search q) = true) queries) [] 0
  = search_loop search num_results queries [] 0.
Proof.
  intros queries urls.
  destruct (search_loop_spec num_results queries [] 0)
    as (Hnd & Hlen & _ & Hfrom & _); [apply NoDup_nil_2|simpl; lia|].
  assert (Hurls : urls = (search_loop search num_results queries [] 0).1).
  { subst urls. unfold _get_target_urls. fold queries.
    destruct (search_loop search num_results queries [] 0).1 as [|u l] eqn:Hl;
      [done|].
    by apply slice_to_all. }
  assert (Hfound : forall u, u ∈ urls -> found_by queries u).
  { intros u Hu. rewrite Hurls in Hu.
    destruct (Hfrom u Hu) as [Hnil|?]; [|done]. by apply elem_of_nil in Hnil. }
  rewrite Hurls. split; [done|]. split; [done|].
  split; [by rewrite <- Hurls|]. split; [|split; [|split]].
  - intros Hnone. subst queries. by rewrite Hnone.
  - intros Hfail. rewrite <- Hurls.
    destruct urls as [|u l]; [done|].
    destruct (Hfound u) as (query & results & Hq & Hs & _); [by left|].
    destruct (Hfail query Hq) as [e He]. congruence.
  - done.
  - apply search_loop_skips_failures.
Qed.

End SearchResults.

(** ** More on the checkpointed job runner *)

Section CheckpointRuns.
Import Py train.

Context {State Metric : Type}.
Variable cfg : train_config.
Variable monitor_name : string.
Variable fresh : State.
Variable train_epoch : Z -> State -> State * Metric.
Variable now : Z -> string.

Abbreviation disk := (gmap string (stored State Metric)).
Abbreviation run_of := (train_one_monitor cfg monitor_name fresh train_epoch now).
Abbreviation loop := (train_loop cfg monitor_name train_epoch now).
Abbreviation latest := (ckpt_path cfg monitor_name).
Abbreviation next := (next_epoch cfg monitor_name).

Lemma string_app_assoc (a b c : string) : (a +:+ b) +:+ c = a +:+ (b +:+ c).
Proof.
  induction a as [|ch a IH]; [done|].
  change (String ch ((a +:+ b) +:+ c) = String ch (a +:+ (b +:+ c))).
  by f_equal.
Qed.

Lemma string_app_inv_head (a b c : string) : a +:+ b = a +:+ c -> b = c.
Proof. induction a as [|ch a IH]; [done|]. intros [= H]. by apply IH. Qed.

(** The canonical checkpoint, the numbered copies and their temporary
    files have different paths. *)
Lemma checkpoint_paths_differ (dir name : string) (e : Z) :
  get_epoch_checkpoint_path dir name e <> get_checkpoint_path dir name /\
  get_epoch_checkpoint_path dir name e +:+ ".tmp"
    <> get_checkpoint_path dir name /\
  get_checkpoint_path dir name +:+ ".tmp"
    <> get_epoch_checkpoint_path dir name e.
Proof.
  unfold get_epoch_checkpoint_path, get_checkpoint_path, path_join.
  rewrite !string_app_assoc.
  split; [|split]; intros H;
    do 3 apply string_app_inv_head in H;
    cbv beta iota delta [String.append] in H; discriminate H.
Qed.

(** X16 (a checkpoint read back).  Whatever the checkpoint directory
    holds, also a temporary file left by a crash, after
    [save_checkpoint(path, ...)] the file at [path] exists and
    [load_checkpoint(path, ...)] gives back the epoch and the state
    dicts that were saved; of two saves to the same path the later
    one is read back; and the methods of [Trainer] do the same. *)
Theorem checkpoint_round_trip (path : string) (c : checkpoint State Metric)
    (fs : disk) :
  isfile path (save_checkpoint path c fs) = true /\
  torch_load path (save_checkpoint path c fs) = Ok c /\
  load_checkpoint path (save_checkpoint path c fs)
    = Ok (epoch c, state_dicts c) /\
  (forall stale, load_checkpoint path
                   (save_checkpoint path c (<[path +:+ ".tmp" := stale]> fs))
                 = Ok (epoch c, state_dicts c)) /\
  (forall c2, load_checkpoint path
                (save_checkpoint path c2 (save_checkpoint path c fs))
              = Ok (epoch c2, state_dicts c2)) /\
  deploy_train._load_checkpoint path (deploy_train._save_checkpoint path c fs)
    = Ok (epoch c, state_dicts c).
Proof.
  assert (Hload : forall (c' : checkpoint State Metric) (fs' : disk),
            torch_load path (save_checkpoint path c' fs') = Ok c').
  { intros c' fs'. unfold torch_load.
    by rewrite (proj1 (save_checkpoint_lookup path c' fs')). }
  split; [|split; [|split; [|split; [|split]]]].
  - unfold isfile. rewrite (proj1 (save_checkpoint_lookup path c fs)).
    by apply bool_decide_eq_true.
  - apply Hload.
  - unfold load_checkpoint. by rewrite Hload.
  - intros stale. unfold load_checkpoint. by rewrite Hload.
  - intros c2. unfold load_checkpoint. by rewrite Hload.
  - unfold deploy_train._load_checkpoint, deploy_train._save_checkpoint.
    fold (save_checkpoint path c fs). by rewrite Hload.
Qed.

(** X17 (the numbered copies and the canonical checkpoint).  The
    numbered copy of an epoch, the canonical checkpoint and their
    temporary files are four different paths.  So saving a numbered
    copy, or being killed anywhere while saving it, leaves the
    canonical checkpoint as it is, and saving the canonical
    checkpoint leaves every numbered copy as it is. *)
Theorem numbered_copy_is_separate (dir name : string) (e : Z)
    (c : checkpoint State Metric) (fs : disk) :
  let canonical := get_checkpoint_path dir name in
  let numbered := get_epoch_checkpoint_path dir name e in
  numbered <> canonical /\
  numbered +:+ ".tmp" <> canonical /\
  canonical +:+ ".tmp" <> numbered /\
  save_checkpoint numbered c fs !! canonical = fs !! canonical /\
  save_checkpoint canonical c fs !! numbered = fs !! numbered /\
  (forall at_point,
     killed_in_save at_point numbered c fs !! canonical = fs !! canonical) /\
  (forall at_point,
     torch_load canonical (killed_in_save at_point numbered c fs)
     = torch_load canonical fs).
Proof.
  intros canonical numbered.
  destruct (checkpoint_paths_differ dir name e) as (H1 & H2 & H3).
  fold canonical numbered in H1, H2, H3.
  assert (Hkill : forall at_point,
    killed_in_save at_point numbered c fs !! canonical = fs !! canonical).
  { intros [| written | |]; unfold killed_in_save, torch_save.
    - done.
    - by rewrite lookup_insert_ne.
    - by rewrite lookup_insert_ne.
    - by apply save_checkpoint_other. }
  split; [done|]. split; [done|]. split; [done|].
  split; [by apply save_checkpoint_other|].
  split; [by apply save_checkpoint_other|].
  split; [done|].
  intros at_point. unfold torch_load. by rewrite Hkill.
Qed.

(** What the saving at the end of an epoch leaves at the canonical
    path. *)
Lemma save_step_next (e : Z) (st : State) (avg_loss : Metric) (fs : disk) :
  SAVE_INTERVAL cfg <> 0%Z ->
  exists fs',
    save_step cfg monitor_name now e st avg_loss fs = Ok fs' /\
    next fs' = if ((e + 1) mod SAVE_INTERVAL cfg =? 0)%Z
               then Some (e + 1)%Z else next fs.
Proof.
  intros Hs. unfold save_step.
  destruct (Z.eqb_spec (SAVE_INTERVAL cfg) 0) as [?|_]; [done|].
  destruct ((e + 1) mod SAVE_INTERVAL cfg =? 0)%Z; [|by eexists].
  set (c := {| epoch := e; state_dicts := st; loss := avg_loss;
               timestamp := now e |}).
  assert (Hnext : forall fs0,
    fs0 !! latest = Some (Complete c) -> next fs0 = Some (e + 1)%Z).
  { intros fs0 Hfs0. unfold next_epoch, isfile, load_checkpoint, torch_load.
    rewrite Hfs0. rewrite bool_decide_eq_true_2 by (by eexists). done. }
  destruct ((e + 1) mod 10 =? 0)%Z; eexists; (split; [done|]); apply Hnext.
  - destruct (checkpoint_paths_differ (CHECKPOINT_DIR cfg) monitor_name (e + 1))
      as (H1 & H2 & _).
    rewrite save_checkpoint_other by (by apply not_eq_sym).
    apply save_checkpoint_lookup.
  - apply save_checkpoint_lookup.
Qed.

Lemma train_loop_app (l1 l2 : list Z) (r : run State Metric) :
  loop (l1 ++ l2) r
  = match loop l1 r with
    | (Ok _, r1) => loop l2 r1
    | (Raise e, r1) => (Raise e, r1)
    end.
Proof.
  revert r. induction l1 as [|e l1 IH]; intros r; [done|].
  simpl. destruct (train_epoch e (trained r)) as [st avg_loss].
  destruct (save_step _ _ _ _ _ _ _) as [fs'|err]; [|done]. apply IH.
Qed.

(** Where the canonical checkpoint stands after the epochs
    [a, a + n): at the last of them whose number plus one is a
    multiple of the saving interval. *)
Lemma train_loop_next (n : nat) (a p : Z) (r : run State Metric) :
  SAVE_INTERVAL cfg <> 0%Z ->
  next (files r) = Some p ->
  (p <= a)%Z ->
  (forall m, (p < m <= a)%Z -> m mod SAVE_INTERVAL cfg <> 0)%Z ->
  exists r' p',
    loop (seqZ a (Z.of_nat n)) r = (Ok tt, r') /\
    executed r' = executed r ++ seqZ a (Z.of_nat n) /\
    next (files r') = Some p' /\
    (p <= p' <= a + Z.of_nat n)%Z /\
    (forall m, (p' < m <= a + Z.of_nat n)%Z -> m mod SAVE_INTERVAL cfg <> 0)%Z.
Proof.
  intros Hs. revert a p r. induction n as [|n IH]; intros a p r Hnext Hpa Hnone.
  { exists r, p. simpl. rewrite app_nil_r. split; [done|]. split; [done|].
    split; [done|]. split; [lia|]. intros m Hm. apply Hnone. lia. }
  rewrite seqZ_cons by lia.
  replace (Z.pred (Z.of_nat (S n))) with (Z.of_nat n) by lia.
  cbn [train_loop].
  destruct (train_epoch a (trained r)) as [st avg_loss].
  destruct (save_step_next a st avg_loss (files r) Hs) as (fs' & -> & Hnext').
  destruct (Z.eqb_spec ((a + 1) mod SAVE_INTERVAL cfg) 0) as [Hsave | Hskip].
  - destruct (IH (Z.succ a) (a + 1)%Z
                {| executed := executed r ++ [a]; files := fs'; trained := st |})
      as (r' & p' & Hrun & Hexec & Hn' & Hp' & Hnone'); cbn [files executed].
    + done.
    + lia.
    + intros m Hm. lia.
    + exists r', p'. split; [done|]. cbn [executed] in Hexec.
      split; [by rewrite Hexec, <- app_assoc|]. split; [done|].
      split; [lia|]. intros m Hm. apply Hnone'. lia.
  - destruct (IH (Z.succ a) p
                {| executed := executed r ++ [a]; files := fs'; trained := st |})
      as (r' & p' & Hrun & Hexec & Hn' & Hp' & Hnone'); cbn [files executed].
    + by rewrite Hnext'.
    + lia.
    + intros m Hm. destruct (decide (m = a + 1)%Z) as [-> | Hne]; [done|].
      apply Hnone. lia.
    + exists r', p'. split; [done|]. cbn [executed] in Hexec.
      split; [by rewrite Hexec, <- app_assoc|]. split; [done|].
      split; [lia|]. intros m Hm. apply Hnone'. lia.
Qed.

(** The run from a disk whose canonical checkpoint can be loaded. *)
Lemma run_of_next (data : dataset) (fs : disk) (p : Z) :
  lmdb_exists data = true -> dataset_len data <> 0%Z ->
  next fs = Some p ->
  exists st,
    run_of data fs
    = if (p >=? NUM_EPOCHS cfg)%Z
      then (Ok tt, {| executed := []; files := fs; trained := st |})
      else loop (range p (NUM_EPOCHS cfg))
                {| executed := []; files := fs; trained := st |}.
Proof.
  intros Hdata Hlen Hnext. unfold train_one_monitor.
  rewrite Hdata. cbn [negb].
  destruct (Z.eqb_spec (dataset_len data) 0) as [?|_]; [done|].
  unfold next_epoch in Hnext.
  destruct (isfile latest fs).
  - destruct (load_checkpoint latest fs) as [[e st]|err]; [|done].
    cbn [bind fst snd] in *. injection Hnext as <-. by exists st.
  - injection Hnext as <-. by exists fresh.
Qed.

(** A multiple of [s] lies in every [s] numbers in a row. *)
Lemma multiple_within (s lo hi : Z) :
  (0 < s)%Z -> (lo + s <= hi)%Z ->
  exists m, (lo < m <= hi)%Z /\ (m mod s = 0)%Z.
Proof.
  intros Hs Hhi. exists (s * (lo / s + 1))%Z. split.
  - pose proof (Z.mod_pos_bound lo s Hs) as Hmod.
    pose proof (Z.div_mod lo s ltac:(lia)) as Hdiv. nia.
  - rewrite Z.mul_comm. by apply Z.mod_mul; lia.
Qed.

(** X18 (a finished job is not run again).  With a positive saving
    interval that divides the number of epochs (as the shipped
    interval 1 does), a run of [train_one_monitor] that comes to its
    end leaves the checkpoint of the last epoch at the canonical
    path, so that a second run trains no epoch and changes no file. *)
Theorem finished_job_is_idle (data : dataset) (fs : disk) (p : Z) :
  lmdb_exists data = true -> dataset_len data <> 0%Z ->
  (0 < SAVE_INTERVAL cfg)%Z ->
  (NUM_EPOCHS cfg mod SAVE_INTERVAL cfg = 0)%Z ->
  next fs = Some p ->
  let run1 := run_of data fs in
  let run2 := run_of data (files run1.2) in
  run1.1 = Ok tt /\
  executed run1.2 = range p (NUM_EPOCHS cfg) /\
  ((p < NUM_EPOCHS cfg)%Z -> next (files run1.2) = Some (NUM_EPOCHS cfg)) /\
  run2.1 = Ok tt /\
  executed run2.2 = [] /\
  files run2.2 = files run1.2.
Proof.
  intros Hdata Hlen Hs Hdiv Hnext run1 run2.
  assert (Hidle : forall fs0 p0,
    next fs0 = Some p0 -> (p0 >= NUM_EPOCHS cfg)%Z ->
    (run_of data fs0).1 = Ok tt /\
    executed (run_of data fs0).2 = [] /\
    files (run_of data fs0).2 = fs0).
  { intros fs0 p0 Hn0 Hp0.
    destruct (run_of_next data fs0 p0 Hdata Hlen Hn0) as [st ->].
    destruct (Z.geb_spec p0 (NUM_EPOCHS cfg)); [done|lia]. }
  destruct (Z.lt_ge_cases p (NUM_EPOCHS cfg)) as [Hwork | Hdone].
  - assert (Hrun1 : run1.1 = Ok tt /\
                    executed run1.2 = range p (NUM_EPOCHS cfg) /\
                    next (files run1.2) = Some (NUM_EPOCHS cfg)).
    { subst run1. destruct (run_of_next data fs p Hdata Hlen Hnext) as [st ->].
      destruct (Z.geb_spec p (NUM_EPOCHS cfg)); [lia|].
      destruct (train_loop_next (Z.to_nat (NUM_EPOCHS cfg - p)) p p
                  {| executed := []; files := fs; trained := st |})
        as (r' & p' & Hrun & Hexec & Hn' & Hp' & Hnone).
      { lia. } { done. } { lia. } { intros m Hm. lia. }
      rewrite Z2Nat.id in * by lia. unfold range. rewrite Hrun.
      cbn [fst snd]. split; [done|]. split; [done|]. rewrite Hn'. f_equal.
      destruct (decide (p' = NUM_EPOCHS cfg)) as [->|Hne]; [done|].
      destruct (Hnone (NUM_EPOCHS cfg)); [lia|done]. }
    destruct Hrun1 as (Hok1 & Hexec1 & Hnext1).
    split; [done|]. split; [done|]. split; [done|].
    apply (Hidle _ (NUM_EPOCHS cfg)); [done|lia].
  - destruct (Hidle fs p Hnext ltac:(lia)) as (Hok1 & Hexec1 & Hfiles1).
    fold run1 in Hok1, Hexec1, Hfiles1.
    split; [done|]. split.
    { rewrite Hexec1. unfold range. by rewrite seqZ_nil by lia. }
    split; [lia|]. subst run2. rewrite Hfiles1.
    destruct (Hidle fs p Hnext ltac:(lia)) as (H1 & H2 & H3).
    fold run1. rewrite Hfiles1 in *. done.
Qed.

(** X19 (killed between two epochs and started again).  Let a run
    start at epoch [p] and be cut off after its first [j] epochs, at
    the end of an epoch or while training the next one.  With a
    positive saving interval, the run started on the disk it leaves
    goes on at an epoch [q] between [p] and [p + j]: no epoch is
    left out; it trains again fewer epochs than the saving interval,
    and with the interval 1 none, so that both runs together train
    every epoch from [p] on exactly once. *)
Theorem restart_after_kill (data : dataset) (fs : disk) (p : Z) (j : nat)
    (st : State) :
  lmdb_exists data = true -> dataset_len data <> 0%Z ->
  (0 < SAVE_INTERVAL cfg)%Z ->
  next fs = Some p ->
  (p + Z.of_nat j <= NUM_EPOCHS cfg)%Z ->
  let killed := loop (range p (p + Z.of_nat j))
                     {| executed := []; files := fs; trained := st |} in
  let again := run_of data (files killed.2) in
  exists q,
    killed.1 = Ok tt /\
    executed killed.2 = range p (p + Z.of_nat j) /\
    next (files killed.2) = Some q /\
    (p <= q <= p + Z.of_nat j)%Z /\
    (p + Z.of_nat j - q < SAVE_INTERVAL cfg)%Z /\
    again.1 = Ok tt /\
    executed again.2 = range q (NUM_EPOCHS cfg) /\
    (SAVE_INTERVAL cfg = 1%Z ->
     executed killed.2 ++ executed again.2 = range p (NUM_EPOCHS cfg)).
Proof.
  intros Hdata Hlen Hs Hnext Hj killed again.
  destruct (train_loop_next j p p
              {| executed := []; files := fs; trained := st |})
    as (r' & q & Hrun & Hexec & Hq & Hpq & Hnone).
  { lia. } { done. } { lia. } { intros m Hm. lia. }
  assert (Hrange : range p (p + Z.of_nat j) = seqZ p (Z.of_nat j)).
  { unfold range. f_equal. lia. }
  assert (Hkilled : killed = (Ok tt, r')).
  { subst killed. by rewrite Hrange. }
  assert (Hbound : (p + Z.of_nat j - q < SAVE_INTERVAL cfg)%Z).
  { destruct (Z.lt_ge_cases (p + Z.of_nat j - q) (SAVE_INTERVAL cfg))
      as [?|Hfar]; [done|].
    destruct (multiple_within (SAVE_INTERVAL cfg) q (p + Z.of_nat j))
      as (m & Hm & Hmod); [done|lia|].
    by destruct (Hnone m Hm). }
  assert (Hagain : again.1 = Ok tt /\
                   executed again.2 = range q (NUM_EPOCHS cfg)).
  { subst again. rewrite Hkilled. cbn [snd].
    destruct (run_of_next data (files r') q Hdata Hlen Hq) as [st' ->].
    destruct (Z.geb_spec q (NUM_EPOCHS cfg)) as [Hge|Hlt].
    - cbn [fst snd executed]. split; [done|].
      unfold range. by rewrite seqZ_nil by lia.
    - destruct (train_loop_next (Z.to_nat (NUM_EPOCHS cfg - q)) q q
                  {| executed := []; files := files r'; trained := st' |})
        as (r2 & q2 & Hrun2 & Hexec2 & _).
      { lia. } { done. } { lia. } { intros m Hm. lia. }
      rewrite Z2Nat.id in * by lia. unfold range. rewrite Hrun2.
      cbn [fst snd]. by split. }
  destruct Hagain as [Hok2 Hexec2].
  exists q. rewrite Hkilled in *. cbn [fst snd] in *.
  split; [done|]. split; [by rewrite Hexec, Hrange|]. split; [done|].
  split; [done|]. split; [done|]. split; [done|]. split; [done|].
  intros Hone. rewrite Hexec, Hexec2. cbn [executed app].
  assert (q = p + Z.of_nat j)%Z as -> by lia.
  unfold range.
  replace (NUM_EPOCHS cfg - p)%Z
    with (Z.of_nat j + (NUM_EPOCHS cfg - (p + Z.of_nat j)))%Z by lia.
  by rewrite seqZ_app by lia.
Qed.

(** X20 (a saving interval of zero).  With [SAVE_INTERVAL] 0 and an
    epoch left to train, [train_one_monitor] trains that one epoch,
    then raises ZeroDivisionError at [(epoch + 1) % save_interval] and
    has written nothing: the epoch is lost, and every run does the
    same again. *)
Theorem zero_save_interval_raises (data : dataset) (fs : disk) (p : Z) :
  lmdb_exists data = true -> dataset_len data <> 0%Z ->
  SAVE_INTERVAL cfg = 0%Z ->
  next fs = Some p ->
  (p < NUM_EPOCHS cfg)%Z ->
  (run_of data fs).1 = Raise ZeroDivisionError /\
  executed (run_of data fs).2 = [p] /\
  files (run_of data fs).2 = fs /\
  run_of data (files (run_of data fs).2) = run_of data fs.
Proof.
  intros Hdata Hlen Hs Hnext Hwork.
  assert (Hrun : (run_of data fs).1 = Raise ZeroDivisionError /\
                 executed (run_of data fs).2 = [p] /\
                 files (run_of data fs).2 = fs).
  { destruct (run_of_next data fs p Hdata Hlen Hnext) as [st ->].
    destruct (Z.geb_spec p (NUM_EPOCHS cfg)); [lia|].
    unfold range. rewrite seqZ_cons by lia.
    cbn [train_loop trained files executed].
    destruct (train_epoch p st) as [st' avg_loss].
    unfold save_step. rewrite Hs.
    change (0 =? 0)%Z with true. cbn [fst snd executed files app]. done. }
  destruct Hrun as (H1 & H2 & H3).
  split; [done|]. split; [done|]. split; [done|]. by rewrite H3.
Qed.

(** X21 (a canonical checkpoint that cannot be loaded).  When the
    file at the canonical path is cut off, a run with data to train
    on raises when it loads it, trains nothing and writes nothing,
    the function and the class alike.  Without data the function
    returns before it looks at the checkpoint, while the constructor
    of [Trainer] loads it all the same and raises. *)
Theorem truncated_checkpoint_raises (data : dataset) (fs : disk)
    (written : nat) :
  fs !! latest = Some (Partial written) ->
  next fs = None /\
  (lmdb_exists data = true -> dataset_len data <> 0%Z ->
   exists e,
     run_of data fs
     = (Raise e, {| executed := []; files := fs; trained := fresh |}) /\
     deploy_train.run_trainer cfg monitor_name fresh train_epoch now data fs
     = (Raise e, {| executed := []; files := fs; trained := fresh |})) /\
  (lmdb_exists data = false \/ dataset_len data = 0%Z ->
   run_of data fs
   = (Ok tt, {| executed := []; files := fs; trained := fresh |}) /\
   exists e,
     deploy_train.run_trainer cfg monitor_name fresh train_epoch now data fs
     = (Raise e, {| executed := []; files := fs; trained := fresh |})).
Proof.
  intros Hpartial.
  assert (Hfile : isfile latest fs = true).
  { unfold isfile. rewrite Hpartial. by apply bool_decide_eq_true. }
  assert (Hload : load_checkpoint latest fs = Raise RuntimeError).
  { unfold load_checkpoint, torch_load. by rewrite Hpartial. }
  assert (Htrainer : forall d,
    deploy_train.run_trainer cfg monitor_name fresh train_epoch now d fs
    = (Raise RuntimeError, {| executed := []; files := fs; trained := fresh |})).
  { intros d. unfold deploy_train.run_trainer, deploy_train.__init__.
    unfold deploy_train._resume_from_checkpoint.
    change (deploy_train.latest_checkpoint_path cfg monitor_name) with latest.
    rewrite Hfile.
    change (deploy_train._load_checkpoint latest fs)
      with (load_checkpoint latest fs).
    by rewrite Hload. }
  split; [|split].
  - unfold next_epoch. by rewrite Hfile, Hload.
  - intros Hdata Hlen. exists RuntimeError. split; [|apply Htrainer].
    unfold train_one_monitor. rewrite Hdata. cbn [negb].
    destruct (Z.eqb_spec (dataset_len data) 0) as [?|_]; [done|].
    by rewrite Hfile, Hload.
  - intros Hnodata. split; [|exists RuntimeError; apply Htrainer].
    unfold train_one_monitor.
    destruct Hnodata as [-> | ->]; [done|].
    by destruct (lmdb_exists data).
Qed.

End CheckpointRuns.

Section CheckpointRunsScenarios.
Import Py train.

(** A monitor trained for 20 epochs, with states and losses as
    numbers. *)
Abbreviation name := "iMac_M1_24".
Abbreviation count_epochs := (fun (e : Z) (st : Z) => ((st + 1)%Z, e)).
Abbreviation clock_reading := (fun _ : Z => "2025-01-01T00:00:00").
Abbreviation some_data := {| lmdb_exists := true; dataset_len := 64 |}.

Lemma finished_job_is_idle_witness :
  let cfg := {| NUM_EPOCHS := 20; SAVE_INTERVAL := 5;
                CHECKPOINT_DIR := "checkpoints"; LMDB_DIR := "data" |} in
  let fs : gmap string (stored Z Z) := ∅ in
  let run_of := train_one_monitor cfg name 0%Z count_epochs clock_reading in
  lmdb_exists some_data = true /\
  dataset_len some_data <> 0%Z /\
  (0 < SAVE_INTERVAL cfg)%Z /\
  (NUM_EPOCHS cfg mod SAVE_INTERVAL cfg = 0)%Z /\
  next_epoch cfg name fs = Some 0%Z /\
  let run1 := run_of some_data fs in
  let run2 := run_of some_data (files run1.2) in
  run1.1 = Ok tt /\
  executed run1.2 = range 0 (NUM_EPOCHS cfg) /\
  ((0 < NUM_EPOCHS cfg)%Z ->
   next_epoch cfg name (files run1.2) = Some (NUM_EPOCHS cfg)) /\
  run2.1 = Ok tt /\
  executed run2.2 = [] /\
  files run2.2 = files run1.2.
Proof.
  intros cfg fs run_of.
  assert (Hlen : dataset_len some_data <> 0%Z) by done.
  assert (Hs : (0 < SAVE_INTERVAL cfg)%Z) by (simpl; lia).
  split; [reflexivity|]. split; [exact Hlen|]. split; [exact Hs|].
  split; [reflexivity|]. split; [reflexivity|].
  exact (finished_job_is_idle cfg name 0%Z count_epochs clock_reading
           some_data fs 0 eq_refl Hlen Hs eq_refl eq_refl).
Defined.

(** With 20 epochs and a saving interval of 3, the run ends with the
    checkpoint of epoch 17 at the canonical path, and a second run
    trains the epochs 18 and 19 again. *)
Example unfinished_interval_trains_again :
  let cfg := {| NUM_EPOCHS := 20; SAVE_INTERVAL := 3;
                CHECKPOINT_DIR := "checkpoints"; LMDB_DIR := "data" |} in
  let fs : gmap string (stored Z Z) := ∅ in
  let run_of := train_one_monitor cfg name 0%Z count_epochs clock_reading in
  let run1 := run_of some_data fs in
  let run2 := run_of some_data (files run1.2) in
  run1.1 = Ok tt /\
  next_epoch cfg name (files run1.2) = Some 18%Z /\
  executed run2.2 = [18; 19]%Z.
Proof. by vm_compute. Qed.

Lemma restart_after_kill_witness :
  let cfg := {| NUM_EPOCHS := 20; SAVE_INTERVAL := 5;
                CHECKPOINT_DIR := "checkpoints"; LMDB_DIR := "data" |} in
  let fs : gmap string (stored Z Z) := ∅ in
  let p := 0%Z in
  let j := 7 in
  let run_of := train_one_monitor cfg name 0%Z count_epochs clock_reading in
  lmdb_exists some_data = true /\
  dataset_len some_data <> 0%Z /\
  (0 < SAVE_INTERVAL cfg)%Z /\
  next_epoch cfg name fs = Some p /\
  (p + Z.of_nat j <= NUM_EPOCHS cfg)%Z /\
  let killed := train_loop cfg name count_epochs clock_reading
                  (range p (p + Z.of_nat j))
                  {| executed := []; files := fs; trained := 0%Z |} in
  let again := run_of some_data (files killed.2) in
  exists q,
    killed.1 = Ok tt /\
    executed killed.2 = range p (p + Z.of_nat j) /\
    next_epoch cfg name (files killed.2) = Some q /\
    (p <= q <= p + Z.of_nat j)%Z /\
    (p + Z.of_nat j - q < SAVE_INTERVAL cfg)%Z /\
    again.1 = Ok tt /\
    executed again.2 = range q (NUM_EPOCHS cfg) /\
    (SAVE_INTERVAL cfg = 1%Z ->
     executed killed.2 ++ executed again.2 = range p (NUM_EPOCHS cfg)).
Proof.
  intros cfg fs p j run_of.
  assert (Hlen : dataset_len some_data <> 0%Z) by done.
  assert (Hs : (0 < SAVE_INTERVAL cfg)%Z) by (simpl; lia).
  assert (Hj : (p + Z.of_nat j <= NUM_EPOCHS cfg)%Z) by (simpl; lia).
  split; [reflexivity|]. split; [exact Hlen|]. split; [exact Hs|].
  split; [reflexivity|]. split; [exact Hj|].
  exact (restart_after_kill cfg name 0%Z count_epochs clock_reading
           some_data fs p j 0%Z eq_refl Hlen Hs eq_refl Hj).
Defined.

(** Killed after 7 of 20 epochs with a saving interval of 5: the
    checkpoint is that of epoch 4, and the next run trains the epochs
    5 to 19, the epochs 5 and 6 for the second time. *)
Example restart_after_seven_epochs :
  let cfg := {| NUM_EPOCHS := 20; SAVE_INTERVAL := 5;
                CHECKPOINT_DIR := "checkpoints"; LMDB_DIR := "data" |} in
  let fs : gmap string (stored Z Z) := ∅ in
  let killed := train_loop cfg name count_epochs clock_reading (range 0 7)
                  {| executed := []; files := fs; trained := 0%Z |} in
  let again := train_one_monitor cfg name 0%Z count_epochs clock_reading
                 some_data (files killed.2) in
  next_epoch cfg name (files killed.2) = Some 5%Z /\
  executed again.2 = range 5 20.
Proof. by vm_compute. Qed.

Lemma zero_save_interval_raises_witness :
  let cfg := {| NUM_EPOCHS := 20; SAVE_INTERVAL := 0;
                CHECKPOINT_DIR := "checkpoints"; LMDB_DIR := "data" |} in
  let fs : gmap string (stored Z Z) := ∅ in
  let run_of := train_one_monitor cfg name 0%Z count_epochs clock_reading in
  lmdb_exists some_data = true /\
  dataset_len some_data <> 0%Z /\
  SAVE_INTERVAL cfg = 0%Z /\
  next_epoch cfg name fs = Some 0%Z /\
  (0 < NUM_EPOCHS cfg)%Z /\
  (run_of some_data fs).1 = Raise ZeroDivisionError /\
  executed (run_of some_data fs).2 = [0%Z] /\
  files (run_of some_data fs).2 = fs /\
  run_of some_data (files (run_of some_data fs).2) = run_of some_data fs.
Proof.
  intros cfg fs run_of.
  assert (Hlen : dataset_len some_data <> 0%Z) by done.
  assert (Hwork : (0 < NUM_EPOCHS cfg)%Z) by (simpl; lia).
  split; [reflexivity|]. split; [exact Hlen|]. split; [reflexivity|].
  split; [reflexivity|]. split; [exact Hwork|].
  exact (zero_save_interval_raises cfg name 0%Z count_epochs clock_reading
           some_data fs 0 eq_refl Hlen eq_refl eq_refl Hwork).
Defined.

Lemma truncated_checkpoint_raises_witness :
  let cfg := shipped in
  let fs : gmap string (stored Z Z) :=
    {[ ckpt_path cfg name := Partial 1024 ]} in
  let no_data := {| lmdb_exists := false; dataset_len := 0 |} in
  let run_of := train_one_monitor cfg name 0%Z count_epochs clock_reading in
  let run_trainer :=
    deploy_train.run_trainer cfg name 0%Z count_epochs clock_reading in
  fs !! ckpt_path cfg name = Some (Partial 1024) /\
  next_epoch cfg name fs = None /\
  (lmdb_exists no_data = true -> dataset_len no_data <> 0%Z ->
   exists e,
     run_of no_data fs
     = (Raise e, {| executed := []; files := fs; trained := 0%Z |}) /\
     run_trainer no_data fs
     = (Raise e, {| executed := []; files := fs; trained := 0%Z |})) /\
  (lmdb_exists no_data = false \/ dataset_len no_data = 0%Z ->
   run_of no_data fs
   = (Ok tt, {| executed := []; files := fs; trained := 0%Z |}) /\
   exists e,
     run_trainer no_data fs
     = (Raise e, {| executed := []; files := fs; trained := 0%Z |})).
Proof.
  intros cfg fs no_data run_of run_trainer.
  assert (Hfs : fs !! ckpt_path cfg name = Some (Partial 1024))
    by apply lookup_singleton_eq.
  split; [exact Hfs|].
  exact (truncated_checkpoint_raises cfg name 0%Z count_epochs clock_reading
           no_data fs 1024 Hfs).
Defined.

End CheckpointRunsScenarios.

(** ** The user prompts *)

Section UserPrompts.
Import prompt_generator.

Variable str_lower : Ascii.ascii -> string.
Variable _call_openai : string -> string.

Abbreviation mock := (_mock_paraphrase str_lower).

(** A prompt the API gives an answer for, in the mode [use_mock]. *)
Abbreviation answered use_mock tp :=
  (negb use_mock
   && negb (String.eqb (_call_openai (PARAPHRASE_PROMPT_TEMPLATE tp)) "")).

(** What [generate_user_prompts] makes of one prompt. *)
Abbreviation paraphrase_of use_mock tp up :=
  (if answered use_mock tp
   then up = _call_openai (PARAPHRASE_PROMPT_TEMPLATE tp)
   else mock tp = Some up).

Lemma replace_first_prefix (old new s : string) :
  String.prefix old s = true ->
  replace_first old new s = new +:+ drop_chars (String.length old) s.
Proof. intros Hp. destruct s; cbn [replace_first]; by rewrite Hp. Qed.

Lemma first_match_nonempty (rs : list (string * string)) (s r : string) :
  Forall (fun r => r.2 <> "") rs ->
  first_match rs s = Some r -> r <> "".
Proof.
  induction rs as [|[old new] rs IH]; [done|].
  intros [Hnew Hrs]%Forall_cons. simpl in *.
  destruct (String.prefix old s) eqn:Hp; [|by apply IH].
  intros [= <-]. rewrite replace_first_prefix by done.
  by destruct new.
Qed.

Lemma replacements_nonempty : Forall (fun r => r.2 <> "") replacements.
Proof. unfold replacements. repeat (apply Forall_cons; split; [done|]). done. Qed.

Lemma mock_paraphrase_raises (tp : string) : mock tp = None <-> tp = "".
Proof.
  unfold _mock_paraphrase. split.
  - destruct (first_match replacements tp); [done|]. by destruct tp.
  - by intros ->.
Qed.

Lemma mock_paraphrase_nonempty (tp up : string) : mock tp = Some up -> up <> "".
Proof.
  unfold _mock_paraphrase.
  destruct (first_match replacements tp) as [r|] eqn:Hm.
  - intros [= <-].
    exact (first_match_nonempty replacements tp r replacements_nonempty Hm).
  - destruct tp as [|c rest]; [done|]. by intros [= <-].
Qed.

(** What the loop over the prompts gives. *)
Lemma paraphrase_all_spec (use_mock : bool) (tps acc : list string) :
  match paraphrase_all str_lower _call_openai use_mock tps acc with
  | Some ups =>
      exists new, ups = acc ++ new /\
                  Forall2 (fun tp up => paraphrase_of use_mock tp up) tps new /\
                  Forall (fun up => up <> "") new
  | None => "" ∈ tps /\ answered use_mock "" = false
  end.
Proof.
  revert acc. induction tps as [|tp tps IH]; intros acc.
  { simpl. exists []. by rewrite app_nil_r. }
  cbn [paraphrase_all].
  set (response := _call_openai (PARAPHRASE_PROMPT_TEMPLATE tp)).
  assert (Hone :
    (exists up, (if use_mock then mock tp
                 else if negb (String.eqb response "") then Some response
                      else mock tp) = Some up /\
                paraphrase_of use_mock tp up /\ up <> "")
    \/ ((if use_mock then mock tp
         else if negb (String.eqb response "") then Some response
              else mock tp) = None /\
        tp = "" /\ answered use_mock "" = false)).
  { fold response. destruct use_mock; cbn [negb andb].
    - destruct (mock tp) as [up|] eqn:Hm.
      + left. exists up. split; [done|]. split; [done|].
        by apply (mock_paraphrase_nonempty tp).
      + right. split; [done|]. split; [|done]. by apply mock_paraphrase_raises.
    - destruct (String.eqb_spec response "") as [Hempty | Hanswer];
        cbn [negb].
      + destruct (mock tp) as [up|] eqn:Hm.
        * left. exists up. split; [done|]. split; [done|].
          by apply (mock_paraphrase_nonempty tp).
        * right. split; [done|].
          apply mock_paraphrase_raises in Hm. subst tp.
          split; [done|]. fold response. by rewrite Hempty.
      + left. exists response. by split. }
  destruct Hone as [(up & -> & Hup & Hne) | (-> & -> & Hno)].
  - specialize (IH (acc ++ [up])).
    destruct (paraphrase_all _ _ _ _ _) as [ups|].
    + destruct IH as (new & -> & Hall & Hnew).
      exists (up :: new). split; [by rewrite <- app_assoc|].
      split; [by apply Forall2_cons|by apply Forall_cons].
    + destruct IH as [Hin Hno]. split; [by right|done].
  - split; [by left|done].
Qed.

(** X22 (one user prompt for every target prompt).
    [generate_user_prompts] raises, at [result[0]] of
    [_mock_paraphrase], exactly when the list holds an empty prompt
    that the API does not answer (in mock mode: an empty prompt);
    otherwise it returns as many prompts as it was given, in the same
    order, none of them empty: for a prompt the API answers the
    answer, for the others the mock paraphrase. *)
Theorem generate_user_prompts_one_to_one (target_prompts : list string)
    (use_mock : bool) :
  let result :=
    generate_user_prompts str_lower _call_openai target_prompts use_mock in
  (result = None <->
   "" ∈ target_prompts /\ answered use_mock "" = false) /\
  (forall user_prompts,
     result = Some user_prompts ->
     length user_prompts = length target_prompts /\
     Forall (fun up => up <> "") user_prompts /\
     Forall2 (fun tp up => paraphrase_of use_mock tp up)
             target_prompts user_prompts).
Proof.
  intros result. subst result. unfold generate_user_prompts.
  pose proof (paraphrase_all_spec use_mock target_prompts []) as Hspec.
  destruct (paraphrase_all _ _ _ _ _) as [ups|].
  - destruct Hspec as (new & -> & Hall & Hnew). rewrite app_nil_l.
    split.
    + split; [done|]. intros [Hin Hno]. exfalso.
      apply list_elem_of_lookup in Hin as [i Hi].
      destruct (Forall2_lookup_l _ _ _ _ _ Hall Hi) as (up & _ & Hup).
      rewrite Hno in Hup.
      by rewrite (proj2 (mock_paraphrase_raises "") eq_refl) in Hup.
    + intros ups [= <-]. split; [|done].
      symmetry. by eapply Forall2_length.
  - split; [done|]. intros ups [=].
Qed.

End UserPrompts.

(** ** The synthetic pages *)

Section SyntheticPages.
Import webpage_manager.

Context {Html : Type}.
Variable size : Html -> Z.
Variable is_empty : Html -> bool.
Variable cfg : synth_config.

Abbreviation disk := (gmap string Html).
Abbreviation good := (present size).
Abbreviation path_of := (filepath_of cfg).
Abbreviation pages_of := (webpage_manager.pages_of cfg).

Section OneRun.
Variable _generate_mock_html : string -> nat -> Html.
Variable _call_openai : string -> nat -> Html.

Abbreviation one := (generate_one size is_empty cfg _generate_mock_html _call_openai).
Abbreviation pages := (generate_pages size is_empty cfg _generate_mock_html _call_openai).
Abbreviation categories := (generate_categories size is_empty cfg _generate_mock_html _call_openai).

Lemma generate_one_spec (category : string) (index : nat) (use_mock : bool)
    (fs : disk) :
  (one category index use_mock fs).1 = path_of category index /\
  (good (path_of category index) fs = true ->
   (one category index use_mock fs).2 = fs) /\
  (forall q, good q fs = true ->
             (one category index use_mock fs).2 !! q = fs !! q) /\
  (pages_large size is_empty _generate_mock_html _call_openai ->
   good (path_of category index) (one category index use_mock fs).2 = true).
Proof.
  unfold generate_one.
  destruct (good (path_of category index) fs) eqn:Hgood; cbn [fst snd].
  - done.
  - split; [done|]. split; [done|]. split.
    + intros q Hq. rewrite lookup_insert_ne; [done|]. intros <-. congruence.
    + intros [Hmock Hapi]. unfold present. rewrite lookup_insert_eq.
      apply Z.gtb_lt. destruct use_mock; [apply Hmock|].
      destruct (is_empty _) eqn:He; [apply Hmock|by apply Hapi].
Qed.

Lemma generate_pages_spec (category : string) (indices : list nat)
    (acc : list string) (fs : disk) :
  (pages category indices acc fs).1 = acc ++ (path_of category <$> indices) /\
  (forall q, good q fs = true ->
             (pages category indices acc fs).2 !! q = fs !! q) /\
  ((forall i, i ∈ indices -> good (path_of category i) fs = true) ->
   (pages category indices acc fs).2 = fs) /\
  (pages_large size is_empty _generate_mock_html _call_openai ->
   forall i, i ∈ indices ->
             good (path_of category i) (pages category indices acc fs).2 = true).
Proof.
  revert acc fs. induction indices as [|idx rest IH]; intros acc fs.
  { simpl. rewrite app_nil_r. split; [done|]. split; [done|].
    split; [done|]. by intros _ i ?%elem_of_nil. }
  cbn [generate_pages].
  destruct (generate_one_spec category idx (USE_MOCK cfg) fs)
    as (Hpath & Hskip & Hkeep & Hmade).
  destruct (one category idx (USE_MOCK cfg) fs) as [path fs1].
  cbn [fst snd] in *. subst path.
  destruct (IH (acc ++ [path_of category idx]) fs1)
    as (Hpaths & Hkeep' & Hskip' & Hmade').
  assert (Hmono : forall q, good q fs = true -> good q fs1 = true).
  { intros q Hq. unfold present in *. by rewrite Hkeep. }
  split; [by rewrite Hpaths, <- app_assoc|]. split; [|split].
  - intros q Hq. rewrite Hkeep' by (by apply Hmono). by apply Hkeep.
  - intros Hall. rewrite Hskip in * by (apply Hall; by left).
    apply Hskip'. intros i Hi. apply Hall. by right.
  - intros Hlarge i [-> | Hi]%elem_of_cons; [|by apply Hmade'].
    specialize (Hmade Hlarge). unfold present in *.
    by rewrite Hkeep'.
Qed.

Lemma generate_categories_spec (cats : list string) (acc : list string)
    (fs : disk) :
  (categories cats acc fs).1 = acc ++ concat (pages_of <$> cats) /\
  (forall q, good q fs = true -> (categories cats acc fs).2 !! q = fs !! q) /\
  ((forall p, p ∈ concat (pages_of <$> cats) -> good p fs = true) ->
   (categories cats acc fs).2 = fs) /\
  (pages_large size is_empty _generate_mock_html _call_openai ->
   forall p, p ∈ concat (pages_of <$> cats) ->
             good p (categories cats acc fs).2 = true).
Proof.
  revert acc fs. induction cats as [|cat rest IH]; intros acc fs.
  { simpl. rewrite app_nil_r. split; [done|]. split; [done|].
    split; [done|]. by intros _ p ?%elem_of_nil. }
  cbn [generate_categories]. rewrite fmap_cons. cbn [concat].
  destruct (generate_pages_spec cat (seq 0 (Z.to_nat (NUM_SYNTH_PAGES cfg)))
              [] fs) as (Hpaths & Hkeep & Hskip & Hmade).
  destruct (pages cat _ [] fs) as [cat_paths fs1].
  cbn [fst snd] in *. rewrite app_nil_l in Hpaths.
  fold (webpage_manager.pages_of cfg cat) in Hpaths. subst cat_paths.
  destruct (IH (acc ++ pages_of cat) fs1) as (Hpaths' & Hkeep' & Hskip' & Hmade').
  assert (Hmono : forall q, good q fs = true -> good q fs1 = true).
  { intros q Hq. unfold present in *. by rewrite Hkeep. }
  split; [by rewrite Hpaths', <- app_assoc|]. split; [|split].
  - intros q Hq. rewrite Hkeep' by (by apply Hmono). by apply Hkeep.
  - intros Hall.
    assert (Hfs1 : fs1 = fs).
    { apply Hskip. intros i Hi. apply Hall, elem_of_app. left.
      apply list_elem_of_fmap. by exists i. }
    rewrite Hfs1 in *. apply Hskip'. intros p Hp.
    apply Hall, elem_of_app. by right.
  - intros Hlarge p [Hp | Hp]%elem_of_app; [|by apply Hmade'].
    apply list_elem_of_fmap in Hp as (i & -> & Hi).
    specialize (Hmade Hlarge i Hi). unfold present in *.
    by rewrite Hkeep'.
Qed.

End OneRun.

Lemma length_pages (cats : list string) :
  length (concat (pages_of <$> cats))
  = length cats * Z.to_nat (NUM_SYNTH_PAGES cfg).
Proof.
  induction cats as [|cat rest IH]; [done|].
  rewrite fmap_cons. cbn [concat]. rewrite length_app, IH.
  unfold webpage_manager.pages_of. rewrite length_fmap, length_seq.
  simpl. lia.
Qed.

(** X23 (the synthetic pages are generated once).  [generate_all]
    returns the paths of all the pages, [NUM_SYNTH_PAGES] for every
    category, in the order of the categories and the indices; it
    never overwrites a file that holds more than 100 bytes; and when
    the pages it writes are larger than that, as the mock pages are,
    all of them are on disk afterwards and a second run, whatever the
    API answers then, writes nothing and returns the same paths. *)
Theorem generate_all_resumes
    (mock1 mock2 : string -> nat -> Html) (api1 api2 : string -> nat -> Html)
    (fs : disk) :
  pages_large size is_empty mock1 api1 ->
  let run1 := generate_all size is_empty cfg mock1 api1 fs in
  let run2 := generate_all size is_empty cfg mock2 api2 run1.2 in
  run1.1 = concat (pages_of <$> DOMAINS cfg) /\
  length run1.1 = length (DOMAINS cfg) * Z.to_nat (NUM_SYNTH_PAGES cfg) /\
  (forall q, good q fs = true -> run1.2 !! q = fs !! q) /\
  (forall p, p ∈ run1.1 -> good p run1.2 = true) /\
  run2 = run1.
Proof.
  intros Hlarge run1 run2.
  destruct (generate_categories_spec mock1 api1 (DOMAINS cfg) [] fs)
    as (Hpaths & Hkeep & _ & Hmade).
  fold (generate_all size is_empty cfg mock1 api1 fs) in Hpaths, Hkeep, Hmade.
  fold run1 in Hpaths, Hkeep, Hmade. rewrite app_nil_l in Hpaths.
  specialize (Hmade Hlarge).
  split; [done|]. split; [by rewrite Hpaths, length_pages|].
  split; [done|]. split; [by rewrite Hpaths|].
  destruct (generate_categories_spec mock2 api2 (DOMAINS cfg) [] run1.2)
    as (Hpaths2 & _ & Hskip2 & _).
  fold (generate_all size is_empty cfg mock2 api2 run1.2) in Hpaths2, Hskip2.
  fold run2 in Hpaths2, Hskip2. rewrite app_nil_l in Hpaths2.
  specialize (Hskip2 Hmade).
  destruct run1 as [paths1 fs1], run2 as [paths2 fs2]. cbn [fst snd] in *.
  by subst.
Qed.

End SyntheticPages.

Section SyntheticPagesScenario.
Import webpage_manager.

(** Pages are stood for by their sizes; the API answers nothing. *)
Lemma generate_all_resumes_witness :
  let size := fun html : Z => html in
  let is_empty := fun html : Z => (html =? 0)%Z in
  let cfg := {| RAW_HTML_DIR := "data/raw_html";
                DOMAINS := ["Blog"; "Commerce"];
                NUM_SYNTH_PAGES := 3; USE_MOCK := false |} in
  let mock1 := fun (_ : string) (_ : nat) => 2048%Z in
  let api1 := fun (_ : string) (_ : nat) => 0%Z in
  let mock2 := fun (_ : string) (_ : nat) => 4096%Z in
  let api2 := fun (_ : string) (_ : nat) => 512%Z in
  let fs : gmap string Z := ∅ in
  pages_large size is_empty mock1 api1 /\
  let run1 := generate_all size is_empty cfg mock1 api1 fs in
  let run2 := generate_all size is_empty cfg mock2 api2 run1.2 in
  run1.1 = concat (pages_of cfg <$> DOMAINS cfg) /\
  length run1.1 = length (DOMAINS cfg) * Z.to_nat (NUM_SYNTH_PAGES cfg) /\
  (forall q, present size q fs = true -> run1.2 !! q = fs !! q) /\
  (forall p, p ∈ run1.1 -> present size p run1.2 = true) /\
  run2 = run1.
Proof.
  intros size is_empty cfg mock1 api1 mock2 api2 fs.
  assert (Hlarge : pages_large size is_empty mock1 api1).
  { split; [intros c i; reflexivity|intros c i H; discriminate H]. }
  split; [exact Hlarge|].
  exact (generate_all_resumes size is_empty cfg mock1 mock2 api1 api2 fs
           Hlarge).
Defined.

End SyntheticPagesScenario.

(** ** Packing the image pairs and reading them back *)

Section PackedDataset.
Import Py pack_data dataset.

Context {Bytes : Type}.
Variable SCREENSHOTS_DIR : string.
Variable RAW_SCREENSHOTS_DIR : string.
Variable isfile : string -> bool.
Variable _read_image_bytes : string -> res Bytes.

Abbreviation lmdb := (gmap string (value Bytes)).
Abbreviation samples_of :=
  (collect_samples SCREENSHOTS_DIR RAW_SCREENSHOTS_DIR isfile).
Abbreviation put := (put_samples _read_image_bytes).
Abbreviation pack :=
  (pack_monitor_lmdb SCREENSHOTS_DIR RAW_SCREENSHOTS_DIR isfile
     _read_image_bytes).

(** *** The keys *)

Lemma string_length_app (a b : string) :
  String.length (a +:+ b) = String.length a + String.length b.
Proof.
  induction a as [|ch a IH]; [done|].
  change (S (String.length (a +:+ b)) = S (String.length a + String.length b)).
  by rewrite IH.
Qed.

Lemma length_zeros (n : nat) : String.length (train.zeros n) = n.
Proof.
  induction n as [|n IH]; [done|].
  change (S (String.length (train.zeros n)) = S n). by rewrite IH.
Qed.

Lemma zeros_add (m n : nat) :
  train.zeros (m + n) = train.zeros m +:+ train.zeros n.
Proof.
  induction m as [|m IH]; [done|].
  change ("0" +:+ train.zeros (m + n)
          = "0" +:+ (train.zeros m +:+ train.zeros n)).
  by rewrite IH.
Qed.

(** A number other than 0 is not written with a leading zero. *)
Lemma pretty_N_go_head (x : N) (s rest : string) :
  (0 < x)%N -> pretty_N_go x s <> "0" +:+ rest.
Proof.
  revert s. induction (N.lt_wf_0 x) as [x _ IH]; intros s Hx.
  rewrite pretty_N_go_step by done.
  destruct (decide (x < 10)%N) as [Hsmall | Hbig].
  - rewrite N.div_small by done. rewrite pretty_N_go_0.
    rewrite N.mod_small by done.
    assert (x = 1 \/ x = 2 \/ x = 3 \/ x = 4 \/ x = 5 \/ x = 6
            \/ x = 7 \/ x = 8 \/ x = 9)%N as Hcases by lia.
    destruct Hcases as [->|[->|[->|[->|[->|[->|[->|[->| ->]]]]]]]];
      intros H; discriminate H.
  - apply IH.
    + apply N.div_lt; lia.
    + apply N.div_str_pos. lia.
Qed.

Lemma pretty_nat_head (n : nat) (rest : string) :
  pretty n = "0" +:+ rest -> rest = "".
Proof.
  unfold pretty, pretty_nat, pretty, pretty_N.
  destruct (decide (N.of_nat n = 0%N)) as [_ | Hn].
  - intros [= H]. exact (eq_sym H).
  - intros H. by destruct (pretty_N_go_head (N.of_nat n) "" rest); [lia|].
Qed.

Lemma pretty_nat_nonempty (n : nat) : pretty n <> "".
Proof.
  unfold pretty, pretty_nat, pretty, pretty_N.
  destruct (decide (N.of_nat n = 0%N)) as [_ | Hn]; [done|].
  assert (Hpos : (0 < N.of_nat n)%N) by lia.
  rewrite pretty_N_go_step by done.
  assert (Hlen : forall x s, String.length s <= String.length (pretty_N_go x s)).
  { clear. intros x. induction (N.lt_wf_0 x) as [x _ IH]; intros s.
    destruct (decide (0 < x)%N) as [Hx | Hx].
    - rewrite pretty_N_go_step by done.
      etrans; [|apply IH, N.div_lt; lia]. simpl. lia.
    - replace x with 0%N by lia. by rewrite pretty_N_go_0. }
  intros H. specialize (Hlen (N.of_nat n `div` 10)%N
    (String (pretty_N_char (N.of_nat n `mod` 10)) "")).
  rewrite H in Hlen. simpl in Hlen. lia.
Qed.

(** Padded with zeros, two numbers are still written differently. *)
Lemma zeros_pretty_inj (ka kb i j : nat) :
  ka <= kb ->
  train.zeros ka +:+ pretty i = train.zeros kb +:+ pretty j ->
  ka = kb /\ i = j.
Proof.
  intros Hk. replace kb with (ka + (kb - ka)) by lia.
  rewrite zeros_add, string_app_assoc.
  intros H%string_app_inv_head.
  destruct (kb - ka) as [|d] eqn:Hd.
  - split; [lia|]. by apply (inj pretty).
  - change (pretty i = "0" +:+ (train.zeros d +:+ pretty j)) in H.
    apply pretty_nat_head in H.
    assert (Hlen : String.length (train.zeros d +:+ pretty j) = 0)
      by (by rewrite H).
    rewrite string_length_app in Hlen.
    pose proof (pretty_nat_nonempty j) as Hj.
    destruct (pretty j); [done|]. simpl in Hlen. lia.
Qed.

Lemma format_08d_inj (i j : nat) : format_08d i = format_08d j -> i = j.
Proof.
  unfold format_08d, train.zfill. intros H.
  destruct (Nat.le_ge_cases (8 - String.length (pretty i))
                            (8 - String.length (pretty j))) as [Hle | Hge].
  - by destruct (zeros_pretty_inj _ _ i j Hle H).
  - symmetry in H. by destruct (zeros_pretty_inj _ _ j i Hge H).
Qed.

Lemma key_of_inj (monitor_name : string) (i j : nat) :
  key_of monitor_name i = key_of monitor_name j -> i = j.
Proof.
  unfold key_of. intros H. do 2 apply string_app_inv_head in H.
  by apply format_08d_inj.
Qed.

Lemma key_of_not_index (monitor_name : string) (i : nat) :
  key_of monitor_name i <> "__keys__".
Proof.
  intros H. apply (f_equal String.length) in H.
  unfold key_of, format_08d, train.zfill in H.
  rewrite !string_length_app, length_zeros in H.
  change (String.length "_") with 1 in H.
  change (String.length "__keys__") with 8 in H. lia.
Qed.

(** *** The transaction *)

Lemma put_samples_spec (monitor_name : string)
    (samples : list (string * string)) (idx : nat) (keys : list string)
    (db : lmdb) :
  (forall path, path ∈ samples.*1 \/ path ∈ samples.*2 ->
                is_ok (_read_image_bytes path) = true) ->
  exists db',
    put monitor_name samples idx keys db
    = Ok (keys ++ (key_of monitor_name <$> seq idx (length samples)), db') /\
    (forall i input_path target_path,
       samples !! i = Some (input_path, target_path) ->
       exists a b,
         _read_image_bytes input_path = Ok a /\
         _read_image_bytes target_path = Ok b /\
         db' !! key_of monitor_name (idx + i) = Some (Sample a b)) /\
    (forall k, (forall i, i < length samples ->
                          k <> key_of monitor_name (idx + i)) ->
               db' !! k = db !! k).
Proof.
  revert idx keys db.
  induction samples as [|[input_path target_path] samples IH];
    intros idx keys db Hread.
  { exists db. simpl. rewrite app_nil_r. split; [done|]. split; [done|done]. }
  cbn [put_samples].
  assert (Hin : is_ok (_read_image_bytes input_path) = true).
  { apply Hread. left. rewrite fmap_cons. by left. }
  assert (Htg : is_ok (_read_image_bytes target_path) = true).
  { apply Hread. right. rewrite fmap_cons. by left. }
  destruct (_read_image_bytes input_path) as [a|e] eqn:Ha; [|done].
  destruct (_read_image_bytes target_path) as [b|e] eqn:Hb; [|done].
  cbn [bind].
  destruct (IH (S idx) (keys ++ [key_of monitor_name idx])
              (<[key_of monitor_name idx := Sample a b]> db))
    as (db' & Hrun & Hget & Hother).
  { intros path [Hp | Hp]; apply Hread; rewrite fmap_cons;
      [left|right]; by right. }
  exists db'. split; [|split].
  - rewrite Hrun. cbn [length seq]. rewrite fmap_cons.
    by rewrite <- app_assoc.
  - intros [|i] inp tgt Hi.
    + injection Hi as <- <-. exists a, b. split; [done|]. split; [done|].
      rewrite Nat.add_0_r, Hother; [apply lookup_insert_eq|].
      intros i _ Heq%key_of_inj. lia.
    + destruct (Hget i inp tgt Hi) as (a' & b' & ? & ? & Hlook).
      exists a', b'. split; [done|]. split; [done|].
      by rewrite Nat.add_succ_r.
  - intros k Hk. rewrite Hother.
    + apply lookup_insert_ne. intros <-. apply (Hk 0); [simpl; lia|].
      by rewrite Nat.add_0_r.
    + intros i Hi. specialize (Hk (S i)). rewrite Nat.add_succ_r in Hk.
      apply Hk. simpl. lia.
Qed.

Lemma collect_samples_exist (monitor_name : string)
    (records : list record) (input_path target_path : string) :
  (input_path, target_path) ∈ samples_of monitor_name records ->
  isfile input_path = true /\ isfile target_path = true.
Proof.
  unfold collect_samples. intros Hin.
  apply list_elem_of_omap in Hin as (r & _ & Hr).
  unfold sample_of in Hr.
  destruct (first_with _ (screenshots r)) as [tf|]; [|done].
  destruct (first_with _ (raw_screenshots r)) as [inf|]; [|done].
  destruct (isfile (train.path_join SCREENSHOTS_DIR tf)) eqn:Ht;
    destruct (isfile (train.path_join RAW_SCREENSHOTS_DIR inf)) eqn:Hi;
    simpl in Hr; try done.
  by injection Hr as <- <-.
Qed.

Lemma pack_monitor_lmdb_unfold (monitor_name : string)
    (records : list record) (db : lmdb) :
  samples_of monitor_name records <> [] ->
  pack monitor_name records db
  = let* put := put monitor_name (samples_of monitor_name records) 0 [] db in
    Ok (<["__keys__" := Keys put.1]> put.2).
Proof.
  intros Hsome. unfold pack_monitor_lmdb.
  by destruct (samples_of monitor_name records).
Qed.

(** X24 (what is packed is what is read).  Let the records give at
    least one pair of images whose files exist, and let the images be
    readable.  Then [pack_monitor_lmdb] commits, whatever the LMDB
    held before; the dataset opened on it has one entry for every
    such pair, as many as there are and never more than records; and
    the entry [i] is the pair of byte strings read from the files of
    the [i]-th pair: no key of a sample collides with another one or
    with the index key.  When no record gives a pair, the LMDB is left
    as it was. *)
Theorem packed_dataset_reads_back (monitor_name : string)
    (records : list record) (db0 : lmdb) :
  let samples := samples_of monitor_name records in
  (forall path, path ∈ samples.*1 \/ path ∈ samples.*2 ->
                is_ok (_read_image_bytes path) = true) ->
  length samples <= length records /\
  (forall input_path target_path,
     (input_path, target_path) ∈ samples ->
     isfile input_path = true /\ isfile target_path = true) /\
  (samples = [] -> pack monitor_name records db0 = Ok db0) /\
  (samples <> [] ->
   exists db keys,
     pack monitor_name records db0 = Ok db /\
     __init__ db = inr keys /\
     __len__ keys = length samples /\
     (forall i input_path target_path,
        samples !! i = Some (input_path, target_path) ->
        exists a b,
          _read_image_bytes input_path = Ok a /\
          _read_image_bytes target_path = Ok b /\
          __getitem__ db keys i = inr (a, b)) /\
     (forall i, length samples <= i ->
                __getitem__ db keys i = inl IndexError)).
Proof.
  intros samples Hread.
  split.
  { subst samples. unfold collect_samples. clear.
    induction records as [|r records IH]; [done|]. csimpl.
    destruct (sample_of _ _ _ _ r); simpl; lia. }
  split; [apply collect_samples_exist|].
  split; [intros Hnil; unfold pack_monitor_lmdb; fold samples; by rewrite Hnil|].
  intros Hsome. rewrite pack_monitor_lmdb_unfold by done. fold samples.
  destruct (put_samples_spec monitor_name samples 0 [] db0 Hread)
    as (db' & Hrun & Hget & _).
  rewrite Hrun. cbn [bind fst snd]. rewrite app_nil_l.
  set (keys := key_of monitor_name <$> seq 0 (length samples)).
  exists (<["__keys__" := Keys keys]> db'), (Keys keys).
  split; [done|].
  split; [unfold __init__; by rewrite lookup_insert_eq|].
  split; [subst keys; simpl; by rewrite length_fmap, length_seq|].
  split.
  - intros i inp tgt Hi.
    destruct (Hget i inp tgt Hi) as (a & b & Ha & Hb & Hlook).
    exists a, b. split; [done|]. split; [done|].
    unfold __getitem__.
    assert (Hkey : keys !! i = Some (key_of monitor_name i)).
    { subst keys. rewrite list_lookup_fmap, lookup_seq_lt; [done|].
      by apply lookup_lt_Some in Hi. }
    rewrite Hkey, lookup_insert_ne by (apply not_eq_sym, key_of_not_index).
    rewrite Nat.add_0_l in Hlook. by rewrite Hlook.
  - intros i Hi. unfold __getitem__.
    rewrite lookup_ge_None_2; [done|].
    subst keys. by rewrite length_fmap, length_seq.
Qed.

End PackedDataset.

Section PackedDatasetScenario.
Import Py pack_data dataset.

Lemma packed_dataset_reads_back_witness :
  let isfile := fun _ : string => true in
  let read := fun path : string => Ok path in
  let records :=
    [ {| screenshots := ["p1_iMac_M1_24.png"; "p1_Dell.png"];
         raw_screenshots := ["p1_iMac_M1_24_raw.png"] |};
      {| screenshots := ["p2_Dell.png"]; raw_screenshots := [] |} ] in
  let db0 : gmap string (value string) := ∅ in
  let samples := collect_samples "shots" "raw" isfile "iMac_M1_24" records in
  (forall path, path ∈ samples.*1 \/ path ∈ samples.*2 ->
                is_ok (read path) = true) /\
  length samples <= length records /\
  (forall input_path target_path,
     (input_path, target_path) ∈ samples ->
     isfile input_path = true /\ isfile target_path = true) /\
  (samples = [] ->
   pack_monitor_lmdb "shots" "raw" isfile read "iMac_M1_24" records db0
   = Ok db0) /\
  (samples <> [] ->
   exists db keys,
     pack_monitor_lmdb "shots" "raw" isfile read "iMac_M1_24" records db0
     = Ok db /\
     __init__ db = inr keys /\
     __len__ keys = length samples /\
     (forall i input_path target_path,
        samples !! i = Some (input_path, target_path) ->
        exists a b,
          read input_path = Ok a /\
          read target_path = Ok b /\
          __getitem__ db keys i = inr (a, b)) /\
     (forall i, length samples <= i ->
                __getitem__ db keys i = inl IndexError)).
Proof.
  intros isfile read records db0 samples.
  assert (Hread : forall path, path ∈ samples.*1 \/ path ∈ samples.*2 ->
                               is_ok (read path) = true).
  { intros path _. reflexivity. }
  split; [exact Hread|].
  exact (packed_dataset_reads_back "shots" "raw" isfile read "iMac_M1_24"
           records db0 Hread).
Defined.

(** The scenario packed: one pair, under the key of index 0. *)
Example packed_dataset_scenario :
  let isfile := fun _ : string => true in
  let read := fun path : string => Ok path in
  let records :=
    [ {| screenshots := ["p1_iMac_M1_24.png"; "p1_Dell.png"];
         raw_screenshots := ["p1_iMac_M1_24_raw.png"] |};
      {| screenshots := ["p2_Dell.png"]; raw_screenshots := [] |} ] in
  pack_monitor_lmdb "shots" "raw" isfile read "iMac_M1_24" records ∅
  = Ok (<["__keys__" := Keys ["iMac_M1_24_00000000"]]>
          {[ "iMac_M1_24_00000000"
               := Sample "raw/p1_iMac_M1_24_raw.png"
                         "shots/p1_iMac_M1_24.png" ]}).
Proof. vm_compute. reflexivity. Qed.

End PackedDatasetScenario.

(** ** The statistics of a crawl *)

Section CrawlTotals.
Import Py config crawler.

Variable _IS_WINDOWS : bool.
Variable cfg : crawler_config.
Variable _get_target_urls : string -> list string.
Variable present : string -> bool.
Variable outcome : task -> Z -> attempt.

Abbreviation scan := (crawler.scan cfg present).
Abbreviation collect := (crawler.collect cfg _get_target_urls present).
Abbreviation _do_download := (crawler._do_download _IS_WINDOWS cfg outcome).
Abbreviation run_crawler :=
  (crawler.run_crawler _IS_WINDOWS cfg _get_target_urls present outcome).

(** X25 (every URL is accounted for).  Let the categories be all
    different, the pool have a worker at least, the URL mapping file
    be missing, unreadable, no JSON or hold a JSON object, and no
    download be the end of the process: the platform is Windows, or no
    attempt leaves a process behind.  Then [run_crawler] returns, and
    however the downloads interleave it returns statistics that hold
    counters for exactly the categories of [DOMAINS] and in which
    successes and failures together are as many as the URLs found:
    every page is counted once, as skipped, downloaded or failed; and
    the URL mapping it saves is a dict with every key that the file
    had. *)
Theorem run_crawler_accounts_for_every_url (f : pipeline_state.file)
    (mapping0 : gmap string pyval) :
  NoDup (DOMAINS cfg) ->
  1 <= CONCURRENT_DOWNLOADS cfg ->
  _load_url_mapping f = Ok (PDict mapping0) ->
  (_IS_WINDOWS = true \/ forall t a, hung (outcome t a) = false) ->
  (exists result, run_crawler f result) /\
  (forall result,
     run_crawler f result ->
     exists stats' mapping',
       result = (Ends (Ok stats'),
                 Some (pipeline_state.JsonText (PDict mapping'))) /\
       dom stats' = list_to_set (DOMAINS cfg) /\
       (0 <= total_fail stats')%Z /\
       (total_success stats' + total_fail stats'
        = Z.of_nat (length (concat (_get_target_urls <$> DOMAINS cfg))))%Z /\
       (forall key, is_Some (mapping0 !! key) -> is_Some (mapping' !! key))).
Proof.
  intros Hnd HW Hload Hsafe.
  assert (Hlive : forall t, is_Some (_do_download t)).
  { intros t. apply do_download_survives.
    destruct Hsafe as [Hwin | Hnone]; [by left|right].
    intros a _. apply Hnone. }
  unfold crawler.run_crawler. rewrite Hload.
  destruct (collect_partition cfg _get_target_urls present (DOMAINS cfg)
              {| stats := ∅; url_mapping := PDict mapping0; tasks := [];
                 skipped := 0 |} mapping0 Hnd)
    as (c & new & m1 & -> & Hm1 & Hkeep1 & Htasks & Hpos & Hcount & Hnew
        & Hdom & Hs & Hf).
  { intros cat _. apply lookup_empty. }
  { done. }
  cbn [stats tasks skipped] in *. rewrite app_nil_l in Htasks.
  rewrite dom_empty_L, union_empty_l_L in Hdom.
  unfold total_success, total_fail in Hs, Hf.
  rewrite map_fold_empty in Hs, Hf.
  fold (total_success (stats c)) in Hs. fold (total_fail (stats c)) in Hf.
  subst new. rewrite Hm1.
  destruct (tasks c) as [|t ts] eqn:Hts.
  { split; [by eexists|]. intros result ->. exists (stats c), m1.
    split; [done|]. split; [done|]. simpl in Hcount.
    split; [lia|]. split; [lia|done]. }
  destruct (CONCURRENT_DOWNLOADS cfg) as [|W] eqn:HWeq; [lia|].
  rewrite <- Hts in *.
  set (start := {| t_stats := stats c; t_mapping := PDict m1;
                   completed := 0; progress := [] |}).
  assert (Hdone : forall final,
            rtc (pool_step _IS_WINDOWS cfg outcome (S W))
                (submitted (tasks c)) final ->
            drained final ->
            exists a m',
              as_completed (finished final) start = Ok a /\
              t_mapping a = PDict m' /\
              dom (t_stats a) = list_to_set (DOMAINS cfg) /\
              (0 <= total_fail (t_stats a))%Z /\
              (total_success (t_stats a) + total_fail (t_stats a)
               = Z.of_nat (length (concat (_get_target_urls
                                             <$> DOMAINS cfg))))%Z /\
              (forall key, is_Some (mapping0 !! key) -> is_Some (m' !! key))).
  { intros final Hrun [Hq Hr].
    destruct (pool_reachable_accounts_for _IS_WINDOWS cfg outcome (S W)
                (tasks c) final Hrun)
      as (_ & Hfin & Hperm).
    rewrite Hq, Hr, !app_nil_r in Hperm.
    destruct (as_completed_counted _IS_WINDOWS cfg outcome (finished final)
                start m1 Hfin)
      as (a & m' & Ha & Hm' & Hdom' & _ & Hs' & Hf').
    { intros t' Ht'. rewrite Hperm in Ht'. subst start. cbn [t_stats].
      apply elem_of_dom. rewrite Hdom.
      apply (proj1 (Forall_forall _ _) Hnew) in Ht' as [Hin _].
      by apply elem_of_list_to_set. }
    { done. }
    destruct (as_completed_mapping _IS_WINDOWS cfg outcome (finished final)
                start a m1 Hfin eq_refl Ha)
      as (m'' & Hm'' & Hkeys & _).
    assert (m'' = m') as -> by congruence.
    exists a, m'. split; [done|]. split; [done|].
    subst start. cbn [t_stats] in *. split; [by rewrite Hdom'|].
    assert (Hwins : crawler.wins _IS_WINDOWS cfg outcome (finished final).*1
                    <= length (finished final).*1).
    { unfold crawler.wins. apply length_filter. }
    assert (Hlen : length (finished final).*1 = length (tasks c)).
    { by rewrite Hperm. }
    rewrite length_fmap in Hwins, Hlen.
    split; [lia|]. split; [lia|].
    intros key Hkey. apply Hkeep1 in Hkey.
    destruct (Hkeys key) as [Heq | (t' & _ & _ & _ & Heq)]; rewrite Heq;
      [done|by eexists]. }
  split.
  - destruct (pool_can_drain _IS_WINDOWS cfg outcome (S W) (tasks c) [])
      as (done & _ & Hrun); [lia|intros t' _; apply Hlive|].
    eexists. left. eexists. split; [exact Hrun|]. split; [by split|done].
  - intros result [(final & Hrun & Hdrained & ->) | (p & Hrun & Hdoom & _)].
    + destruct (Hdone final Hrun Hdrained)
        as (a & m' & -> & Hm' & Hd & Hfail & Hsum & Hkeep).
      exists (t_stats a), m'. rewrite Hm'. done.
    + destruct Hdoom as (t' & _ & Hdie).
      destruct (Hlive t') as [r Hr]. congruence.
Qed.

(** On a URL mapping that is no dict the first page found on disk
    raises TypeError. *)
Lemma scan_non_dict (cat : string) (urls : list string) (idx : nat)
    (c : collected) :
  (forall d, url_mapping c <> PDict d) ->
  (scan cat urls idx c = Raise TypeError /\
   exists i u, urls !! i = Some u /\
               present (page_path cfg cat (idx + i)) = true)
  \/ (exists c',
        scan cat urls idx c = Ok c' /\
        url_mapping c' = url_mapping c /\
        forall i u, urls !! i = Some u ->
                    present (page_path cfg cat (idx + i)) = false).
Proof.
  revert idx c. induction urls as [|u urls IH]; intros idx c Hno.
  { right. exists c. split; [done|]. split; [done|]. by intros i u' [=]. }
  cbn [crawler.scan].
  change (path_join (path_join (RAW_HTML_DIR cfg) cat) (page_filename cat idx))
    with (page_path cfg cat idx).
  destruct (present (page_path cfg cat idx)) eqn:Hpresent.
  - left. split.
    + destruct (url_mapping c) as [| | | | |d] eqn:Hm; try done.
      by destruct (Hno d).
    + exists 0, u. by rewrite Nat.add_0_r.
  - destruct (IH (S idx)
                {| stats := stats c; url_mapping := url_mapping c;
                   tasks := tasks c ++ [ {| category := cat;
                                            filename := page_filename cat idx;
                                            url := u;
                                            output_path := page_path cfg cat idx |} ];
                   skipped := skipped c |} Hno)
      as [[Hraise (i & u' & Hi & Hp)] | (c' & Hrun & Hm & Hnone)].
    + left. split; [done|]. exists (S i), u'. split; [done|].
      by rewrite Nat.add_succ_r.
    + right. exists c'. split; [done|]. split; [done|].
      intros [|i] u' Hi.
      * by rewrite Nat.add_0_r.
      * rewrite Nat.add_succ_r. by apply (Hnone i u').
Qed.

Lemma collect_non_dict (categories : list string) (c : collected) :
  (forall d, url_mapping c <> PDict d) ->
  (collect categories c = Raise TypeError /\
   exists cat i u, cat ∈ categories /\ _get_target_urls cat !! i = Some u /\
                   present (page_path cfg cat i) = true)
  \/ (exists c',
        collect categories c = Ok c' /\
        url_mapping c' = url_mapping c /\
        forall cat i u, cat ∈ categories ->
                        _get_target_urls cat !! i = Some u ->
                        present (page_path cfg cat i) = false).
Proof.
  revert c. induction categories as [|cat rest IH]; intros c Hno.
  { right. exists c. split; [done|]. split; [done|].
    by intros cat i u ?%elem_of_nil. }
  cbn [crawler.collect].
  destruct (scan_non_dict cat (_get_target_urls cat) 0
              {| stats := <[cat := zero]> (stats c);
                 url_mapping := url_mapping c;
                 tasks := tasks c; skipped := skipped c |} Hno)
    as [[-> (i & u & Hi & Hp)] | (c1 & -> & Hm1 & Hnone1)]; cbn [bind].
  - left. split; [done|]. exists cat, i, u. split; [left|done].
  - cbn [url_mapping] in Hm1.
    destruct (IH c1) as [[Hraise (cat' & i & u & Hin & Hi & Hp)]
                        | (c' & Hrun & Hm & Hnone)].
    { by rewrite Hm1. }
    + left. split; [done|]. exists cat', i, u. split; [by right|done].
    + right. exists c'. split; [done|]. split; [congruence|].
      intros cat' i u [-> | Hin]%elem_of_cons Hi.
      * by apply (Hnone1 i u).
      * by apply (Hnone cat' i u).
Qed.

(** X15 (the URL mapping file through a crawl).  [run_crawler] loads
    the file before anything else: a file that is no UTF-8 text makes
    it raise UnicodeDecodeError, which the [except] clause of
    [_load_url_mapping] does not name, and a JSON document that is no
    object makes it raise TypeError at the first page it finds on
    disk; the file is left as it was in both cases.  And whenever
    [run_crawler] returns its statistics it has written the file, and
    what it wrote is what [_load_url_mapping] gives the next run. *)
Theorem run_crawler_mapping_file :
  (forall result,
     run_crawler (Some pipeline_state.NotUtf8) result <->
     result = (Ends (Raise UnicodeDecodeError), Some pipeline_state.NotUtf8)) /\
  (forall v,
     (forall d, v <> PDict d) ->
     (exists cat i u, cat ∈ DOMAINS cfg /\
                      _get_target_urls cat !! i = Some u /\
                      present (page_path cfg cat i) = true) ->
     forall result,
       run_crawler (Some (pipeline_state.JsonText v)) result <->
       result = (Ends (Raise TypeError), Some (pipeline_state.JsonText v))) /\
  (forall f stats' f',
     run_crawler f (Ends (Ok stats'), f') ->
     exists mapping',
       f' = Some (pipeline_state.JsonText mapping') /\
       _load_url_mapping f' = Ok mapping' /\
       is_ok (len mapping') = true).
Proof.
  split; [done|]. split.
  - intros v Hno (cat & i & u & Hin & Hi & Hp) result.
    unfold crawler.run_crawler. cbn [_load_url_mapping pipeline_state.json_load
                                      try_except].
    destruct (collect_non_dict (DOMAINS cfg)
                {| stats := ∅; url_mapping := v; tasks := [];
                   skipped := 0 |} Hno)
      as [[-> _] | (c' & _ & _ & Hnone)]; [done|].
    by rewrite (Hnone cat i u Hin Hi) in Hp.
  - intros f stats' f'. unfold crawler.run_crawler.
    assert (Hsave : forall stats mapping,
              save_and_return stats mapping f = (Ends (Ok stats'), f') ->
              exists mapping',
                f' = Some (pipeline_state.JsonText mapping') /\
                _load_url_mapping f' = Ok mapping' /\
                is_ok (len mapping') = true).
    { intros stats mapping. unfold save_and_return, _save_url_mapping.
      destruct (len mapping) as [n|e] eqn:Hlen; cbn [bind]; [|done].
      intros [= _ <-]. exists mapping. by rewrite Hlen. }
    destruct (_load_url_mapping f) as [mapping0|e]; [|done].
    destruct (crawler.collect _ _ _ _ _) as [c|e]; [|done].
    destruct (tasks c) as [|t ts]; [by intros ?%eq_sym%Hsave|].
    destruct (CONCURRENT_DOWNLOADS cfg) as [|W]; [done|].
    intros [(final & _ & _ & Hres) | (p & _ & _ & [=])].
    destruct (as_completed _ _) as [a|e]; [|done].
    by apply eq_sym, Hsave in Hres.
Qed.

End CrawlTotals.

Section CrawlTotalsScenario.
Import Py config crawler.

(** A crawl on Linux in which every download fails once with an error
    and succeeds at the second attempt; the mapping file is missing. *)
Lemma run_crawler_accounts_for_every_url_witness :
  let cfg := shipped in
  let urls := fun _ : string => ["https://example.org/a"; "https://example.org/b"] in
  let present := fun path : string =>
                   String.eqb path "data/raw_html/Blog/blog_real_1.html" in
  let outcome := fun (_ : task) (number : Z) =>
                   if (number =? 1)%Z then Exited 1 Missing
                   else Exited 0 (Size 20480) in
  let f : pipeline_state.file := None in
  let mapping0 : gmap string pyval := ∅ in
  NoDup (DOMAINS cfg) /\
  1 <= CONCURRENT_DOWNLOADS cfg /\
  _load_url_mapping f = Ok (PDict mapping0) /\
  (false = true \/ forall t a, hung (outcome t a) = false) /\
  (exists result, run_crawler false cfg urls present outcome f result) /\
  (forall result,
     run_crawler false cfg urls present outcome f result ->
     exists stats' mapping',
       result = (Ends (Ok stats'),
                 Some (pipeline_state.JsonText (PDict mapping'))) /\
       dom stats' = list_to_set (DOMAINS cfg) /\
       (0 <= total_fail stats')%Z /\
       (total_success stats' + total_fail stats'
        = Z.of_nat (length (concat (urls <$> DOMAINS cfg))))%Z /\
       (forall key, is_Some (mapping0 !! key) -> is_Some (mapping' !! key))).
Proof.
  intros cfg urls present outcome f mapping0.
  assert (Hnd : NoDup (DOMAINS cfg)).
  { apply (bool_decide_unpack _). vm_compute. reflexivity. }
  assert (HW : 1 <= CONCURRENT_DOWNLOADS cfg) by (simpl; lia).
  assert (Hload : _load_url_mapping f = Ok (PDict mapping0)) by reflexivity.
  assert (Hsafe : false = true \/ forall t a, hung (outcome t a) = false).
  { right. intros t a. unfold outcome. by destruct (a =? 1)%Z. }
  split; [exact Hnd|]. split; [exact HW|]. split; [exact Hload|].
  split; [exact Hsafe|].
  exact (run_crawler_accounts_for_every_url false cfg urls present outcome
           f mapping0 Hnd HW Hload Hsafe).
Defined.

End CrawlTotalsScenario.
